(** * DinixLtd: ledger aggregation, statement assembly and analytics export

    A shallow embedding of the ledger logic of
    [src/lib/pdfGenerator.ts], [src/components/ClientDetail.tsx] and
    [src/components/Reports.tsx], followed by the properties of the
    specification that concern them.

    Modelling conventions.
    - A JavaScript [number] is an IEEE-754 binary64 double, and the
      amount inputs of the detail view take hundredths.  The arithmetic
      on amounts is therefore embedded twice.  [Binary64],
      [PdfGenerator64] and [ClientDetail64] hold the sums of the
      statement, of the combiner and of the detail view on doubles (the
      primitive floats of the kernel): this is the code on every amount,
      and the properties that compare sums taken in different orders are
      stated there.  [Js.number] reads an amount as a whole number ([Z],
      [None] for a field that is [NaN], [null] or [undefined], [Js.or0]
      for [x || 0]): this is the same code on whole amounts, where
      binary64 adds and subtracts without rounding.  The sections
      "Binary64 arithmetic on whole numbers" and "Ledgers of whole
      amounts in binary64" prove it: below 2^53 the two embeddings give
      the same sums.  The whole-number reading carries the properties of
      a single sum and those of counts, strings and control flow.
    - Strings are [string]; arrays are lists; a [Map] iterated in insertion
      order is an association list.
    - [Array.prototype.sort] is stable; it is modelled by a stable
      insertion sort driven by the source's comparator.
    - Functions of the host or of modules outside this repository's
      sources ([Date] parsing and formatting, [formatCurrency]) are
      parameters of the definitions that call them. *)

From Stdlib Require Import ZArith List String Ascii Bool Lia.
From Stdlib Require Import Permutation Sorted DecimalString.
From Stdlib Require Import Floats.
Import ListNotations.

Local Open Scope string_scope.
Local Open Scope Z_scope.

(* ===================================================================== *)
(** ** The host language *)
(* ===================================================================== *)

Module Js.

(** A [number] field read as a whole amount; [None] when the field is
    [NaN], [null] or [undefined]. *)
Definition number := option Z.

(** [x || 0] on a number: [NaN], [null], [undefined] and [0] give [0]. *)
Definition or0 (x : number) : Z :=
  match x with
  | Some v => v
  | None => 0
  end.

(** Truthiness of a string: only the empty string is falsy. *)
Definition truthy (s : string) : bool :=
  match s with
  | EmptyString => false
  | String _ _ => true
  end.

(** [s || (empty string)] on a string. *)
Definition orEmpty (s : string) : string :=
  if truthy s then s else EmptyString.

(** Interpolation of an integer-valued number in a template literal. *)
Definition toString (n : Z) : string :=
  NilZero.string_of_int (Z.to_int n).

(** [Array.prototype.join]. *)
Definition join (sep : string) (l : list string) : string :=
  String.concat sep l.

(** The line feed that ends a line of text. *)
Definition nl : string := String (ascii_of_nat 10) EmptyString.

Section Sort.
Context {A : Type}.
(** The comparator: negative when its first argument goes first. *)
Variable cmp : A -> A -> Z.

(** [insert x l] places [x] before the first element it does not
    follow, hence before every later element that compares equal. *)
Fixpoint insert (x : A) (l : list A) : list A :=
  match l with
  | [] => [x]
  | y :: l' => if cmp x y <=? 0 then x :: l else y :: insert x l'
  end.

(** [Array.prototype.sort(cmp)]: elements that compare equal keep
    their relative order. *)
Definition sort (l : list A) : list A :=
  fold_right insert [] l.
End Sort.

(** [Array.prototype.slice(a, b)] for in-range non-negative bounds. *)
Definition slice {A : Type} (a b : nat) (l : list A) : list A :=
  firstn (b - a) (skipn a l).

(** [Array.prototype.slice(a)]. *)
Definition sliceFrom {A : Type} (a : nat) (l : list A) : list A :=
  skipn a l.

End Js.

(* ===================================================================== *)
(** ** The regular expression [/\bmg\b/i] *)
(* ===================================================================== *)

Module RegExp.

(** The atoms the pattern is made of. *)
Inductive atom : Type :=
| Lit (c : ascii)
| WordBoundary.

Definition inRange (lo hi c : ascii) : bool :=
  (nat_of_ascii lo <=? nat_of_ascii c)%nat
  && (nat_of_ascii c <=? nat_of_ascii hi)%nat.

(** The word characters of [\w] and [\b]: [A-Za-z0-9_]. *)
Definition isWordChar (c : ascii) : bool :=
  inRange "a" "z" c || inRange "A" "Z" c || inRange "0" "9" c
  || Ascii.eqb c "_".

(** Out of the string there is no word character. *)
Definition isWordAt (c : option ascii) : bool :=
  match c with
  | Some x => isWordChar x
  | None => false
  end.

(** Canonicalisation under the [i] flag: upper-casing, on ASCII letters. *)
Definition canonicalize (c : ascii) : ascii :=
  if inRange "a" "z" c then ascii_of_nat (nat_of_ascii c - 32) else c.

Definition charMatches (ignoreCase : bool) (p c : ascii) : bool :=
  if ignoreCase then Ascii.eqb (canonicalize p) (canonicalize c)
  else Ascii.eqb p c.

(** Match of the whole pattern at the current position; [prev] is the
    character before it. *)
Fixpoint matchHere (ignoreCase : bool) (pat : list atom)
         (prev : option ascii) (rest : list ascii) : bool :=
  match pat with
  | [] => true
  | WordBoundary :: pat' =>
      xorb (isWordAt prev) (isWordAt (hd_error rest))
      && matchHere ignoreCase pat' prev rest
  | Lit p :: pat' =>
      match rest with
      | [] => false
      | c :: rest' =>
          charMatches ignoreCase p c
          && matchHere ignoreCase pat' (Some c) rest'
      end
  end.

(** The search of [RegExp.prototype.test]: every start position in turn. *)
Fixpoint searchFrom (ignoreCase : bool) (pat : list atom)
         (prev : option ascii) (rest : list ascii) : bool :=
  matchHere ignoreCase pat prev rest
  || match rest with
     | [] => false
     | c :: rest' => searchFrom ignoreCase pat (Some c) rest'
     end.

Definition test (ignoreCase : bool) (pat : list atom) (s : string) : bool :=
  searchFrom ignoreCase pat None (list_ascii_of_string s).

(** [/\bmg\b/i] *)
Definition mgPattern : list atom :=
  [WordBoundary; Lit "m"; Lit "g"; WordBoundary].

Definition testMg (s : string) : bool := test true mgPattern s.

End RegExp.


(* ===================================================================== *)
(** ** Ledger records *)
(* ===================================================================== *)

(** [interface Transaction]; [id] is the extra field of the rows the
    components hold, carried along by the spread [{...t}]. *)
Record Transaction : Type := mkTransaction {
  id : string;
  transaction_date : string;
  description : string;
  debit : Js.number;
  credit : Js.number;
  payment_method : option string;
  reference_number : option string;
  notes : option string
}.

(** [interface Client] of the statement generator. *)
Record Client : Type := mkClient {
  client_name : string;
  client_code : string;
  email : option string;
  phone : option string;
  business_name : option string;
  address : option string
}.

(** The derived triple [{ receivable, paid, balance }]. *)
Record Summary : Type := mkSummary {
  receivable : Z;
  paid : Z;
  balance : Z
}.

Inductive Currency : Type := KES | USD.

(** [reportType: "full" | "summary" | "kes-only" | "usd-only"] *)
Inductive ReportType : Type := Full | SummaryOnly | KesOnly | UsdOnly.

Record ReportOptions : Type := mkReportOptions {
  client : Client;
  transactionsKES : list Transaction;
  transactionsUSD : list Transaction;
  summaryKES : Summary;
  summaryUSD : Summary;
  reportType : ReportType
}.

(** An element of [options.clients] of the combined statement. *)
Record ClientLedgers : Type := mkClientLedgers {
  cl_client : Client;
  cl_transactionsKES : list Transaction;
  cl_transactionsUSD : list Transaction
}.

(** What a statement draws, in drawing order: a line of text, or one
    [autoTable] call with its head row, body rows and foot rows. *)
Inductive DocItem : Type :=
| DocText (text : string)
| DocTable (head : list string) (body : list (list string))
           (foot : list (list string)).

(** A call that either throws [new Error(message)] or returns. *)
Inductive Result (A : Type) : Type :=
| Threw (message : string)
| Returned (value : A).
Arguments Threw {A} message.
Arguments Returned {A} value.

(* ===================================================================== *)
(** ** [src/lib/pdfGenerator.ts] *)
(* ===================================================================== *)

Module PdfGenerator.

Section Host.

(** [new Date(s).getTime()] on the dates the ledgers hold. *)
Variable getTime : string -> Z.
(** [new Date(s).toLocaleDateString("en-GB", ...)]. *)
Variable toLocaleDateString : string -> string.
(** [formatCurrency] of [src/lib/currency], which is not part of the
    sources at hand. *)
Variable formatCurrency : Z -> Currency -> string.
(** Today, as the header prints it and as the file name holds it. *)
Variable stmtDate : string.
Variable isoDate : string.

(** The comparator of both sorts: oldest first. *)
Definition byDate (a b : Transaction) : Z :=
  getTime (transaction_date a) - getTime (transaction_date b).

(** [(v < 0 ? "-" : (empty)) + formatCurrency(Math.abs(v), sym)] *)
Definition signedCurrency (v : Z) (sym : Currency) : string :=
  (if v <? 0 then "-" else EmptyString) ++ formatCurrency (Z.abs v) sym.

(** The callback of [sorted.map]: the new value of [runBal] and the row. *)
Definition tableRow (sym : Currency) (runBal : Z) (t : Transaction)
  : Z * list string :=
  let inAmt := Js.or0 (credit t) in
  let outAmt := Js.or0 (debit t) in
  let runBal := runBal + (inAmt - outAmt) in
  (runBal,
   [ toLocaleDateString (transaction_date t);
     Js.orEmpty (description t);
     if 0 <? inAmt then formatCurrency inAmt sym else "-";
     if 0 <? outAmt then formatCurrency outAmt sym else "-";
     signedCurrency runBal sym ]).

(** [sorted.map(...)] with the captured, mutated [runBal]. *)
Fixpoint mapRows (sym : Currency) (runBal : Z) (sorted : list Transaction)
  : list (list string) :=
  match sorted with
  | [] => []
  | t :: rest =>
      let '(runBal', row) := tableRow sym runBal t in
      row :: mapRows sym runBal' rest
  end.

(** The successive values [runBal] takes, one per row. *)
Fixpoint runBalances (runBal : Z) (sorted : list Transaction) : list Z :=
  match sorted with
  | [] => []
  | t :: rest =>
      let runBal' := runBal + (Js.or0 (credit t) - Js.or0 (debit t)) in
      runBal' :: runBalances runBal' rest
  end.

Definition sortByDate (txns : list Transaction) : list Transaction :=
  Js.sort byDate txns.

Definition buildTableData (txns : list Transaction) (sym : Currency)
  : list (list string) :=
  mapRows sym 0 (sortByDate txns).

(** [/\bmg\b/i.test(t.description || (empty))] counted over [txns]. *)
Definition mgCount (txns : list Transaction) : nat :=
  List.length
    (filter (fun t => RegExp.testMg (Js.orEmpty (description t))) txns).

Definition footBal (summary : Summary) (sym : Currency) : string :=
  signedCurrency (balance summary) sym.

Definition footRow (summary : Summary) (sym : Currency) : list string :=
  [ EmptyString; "BALANCE";
    formatCurrency (paid summary) sym;
    formatCurrency (receivable summary) sym;
    footBal summary sym ].

Definition mgRow (txns : list Transaction) : list string :=
  let n := mgCount txns in
  [ EmptyString;
    "Mileage (MG) Count: " ++ Js.toString (Z.of_nat n) ++ " trip"
      ++ (if Nat.eqb n 1 then EmptyString else "s");
    EmptyString; EmptyString; EmptyString ].

Definition tableHead : list string :=
  ["Date"; "Description"; "Money IN"; "Money OUT"; "Balance"].

Definition renderSection (label : string) (txns : list Transaction)
           (sym : Currency) (summary : Summary) : list DocItem :=
  [ DocText label;
    DocTable tableHead (buildTableData txns sym)
             [footRow summary sym; mgRow txns] ].

Definition selectsKES (rt : ReportType) : bool :=
  match rt with
  | Full | KesOnly | SummaryOnly => true
  | UsdOnly => false
  end.

Definition selectsUSD (rt : ReportType) : bool :=
  match rt with
  | Full | UsdOnly => true
  | KesOnly | SummaryOnly => false
  end.

Definition nonEmpty {A : Type} (l : list A) : bool :=
  (0 <? List.length l)%nat.

Definition showKES (options : ReportOptions) : bool :=
  selectsKES (reportType options) && nonEmpty (transactionsKES options).

Definition showUSD (options : ReportOptions) : bool :=
  selectsUSD (reportType options) && nonEmpty (transactionsUSD options).

Definition kesLabel : string :=
  "TRANSACTION HISTORY — KES (Kenyan Shillings)".
Definition usdLabel : string :=
  "TRANSACTION HISTORY — USD (US Dollars)".
Definition noTransactionsNotice : string := "No transactions recorded.".

Definition headerBand (c : Client) : list DocItem :=
  [ DocText "DINIX GENERAL TRADING";
    DocText "ACCOUNT STATEMENT";
    DocText ("Date: " ++ stmtDate);
    DocText (client_name c);
    DocText ("Account: " ++ client_code c) ]
  ++ match phone c with
     | Some p => if Js.truthy p then [DocText ("Tel: " ++ p)] else []
     | None => []
     end.

(** The sections drawn between the header band and the page footers. *)
Definition renderSections (options : ReportOptions) : list DocItem :=
  (if showKES options
   then renderSection kesLabel (transactionsKES options) KES
                      (summaryKES options)
   else [])
  ++ (if showUSD options
      then renderSection usdLabel (transactionsUSD options) USD
                         (summaryUSD options)
      else [])
  ++ (if negb (showKES options) && negb (showUSD options)
      then [DocText noTransactionsNotice]
      else []).

Definition fileName (c : Client) : string :=
  "Dinix_Statement_" ++ client_code c ++ "_" ++ isoDate ++ ".pdf".

(** The document handed to [onDocReady] or saved, and its file name.  The
    per-page footer depends on the page count that the table layout of
    [jspdf-autotable] yields and is left to it. *)
Definition generateClientPDFReport (options : ReportOptions)
  : list DocItem * string :=
  ((headerBand (client options) ++ renderSections options)%list,
   fileName (client options)).

(** The object literal pushed for [t]: [{...t, description: ...}]. *)
Definition relabel (c : Client) (t : Transaction) : Transaction :=
  let baseDescription := Js.orEmpty (description t) in
  {| id := id t;
     transaction_date := transaction_date t;
     description :=
       if Js.truthy baseDescription
       then client_name c ++ " - " ++ baseDescription
       else client_name c;
     debit := debit t;
     credit := credit t;
     payment_method := payment_method t;
     reference_number := reference_number t;
     notes := notes t |}.

(** [txns.forEach((t) => all.push({...}))] *)
Definition pushAll (c : Client) (txns all : list Transaction)
  : list Transaction :=
  fold_left (fun all t => (all ++ [relabel c t])%list) txns all.

(** [clients.forEach(...)] over the two accumulators [allKES], [allUSD]. *)
Definition collect (clients : list ClientLedgers)
  : list Transaction * list Transaction :=
  fold_left
    (fun all cl =>
       (pushAll (cl_client cl) (cl_transactionsKES cl) (fst all),
        pushAll (cl_client cl) (cl_transactionsUSD cl) (snd all)))
    clients ([], []).

Definition displayName (allNames : list string) : string :=
  if (List.length allNames <=? 2)%nat
  then Js.join " & " allNames
  else Js.join " & " (Js.slice 0 2 allNames)
       ++ " + " ++ Js.toString (Z.of_nat (List.length allNames) - 2)
       ++ " more".

Definition combinedClient (clients : list ClientLedgers) : Client :=
  let allNames := map (fun c => client_name (cl_client c)) clients in
  let allCodes := map (fun c => client_code (cl_client c)) clients in
  {| client_name := displayName allNames;
     client_code := Js.join " + " allCodes;
     email := None;
     phone := None;
     business_name := None;
     address := None |}.

(** The loop of [calculateSummary]: [paid] and [receivable] after [t]. *)
Definition summaryStep (acc : Z * Z) (t : Transaction) : Z * Z :=
  (fst acc + Js.or0 (credit t), snd acc + Js.or0 (debit t)).

Definition calculateSummary (txns : list Transaction) : Summary :=
  let acc := fold_left summaryStep txns (0, 0) in
  let paid := fst acc in
  let receivable := snd acc in
  {| receivable := receivable; paid := paid; balance := paid - receivable |}.

(** The options [generateCombinedClientsPDFReport] passes on, or the
    error it throws on an empty client list. *)
Definition combinedOptions (clients : list ClientLedgers)
  : Result ReportOptions :=
  match clients with
  | [] => Threw "No clients provided for combined statement"
  | _ :: _ =>
      let all := collect clients in
      let combinedKES := sortByDate (fst all) in
      let combinedUSD := sortByDate (snd all) in
      Returned
        {| client := combinedClient clients;
           transactionsKES := combinedKES;
           transactionsUSD := combinedUSD;
           summaryKES := calculateSummary combinedKES;
           summaryUSD := calculateSummary combinedUSD;
           reportType := Full |}
  end.

Definition generateCombinedClientsPDFReport (clients : list ClientLedgers)
  : Result (list DocItem * string) :=
  match combinedOptions clients with
  | Threw message => Threw message
  | Returned options => Returned (generateClientPDFReport options)
  end.

End Host.

End PdfGenerator.

(* ===================================================================== *)
(** ** [src/components/ClientDetail.tsx] *)
(* ===================================================================== *)

Module ClientDetail.

(** [calculateSummary(transactions, setSummary)]: the value handed to
    [setSummary]. *)
Definition calculateSummary (transactions : list Transaction) : Summary :=
  let receivable :=
    fold_left (fun sum t => sum + Js.or0 (debit t)) transactions 0 in
  let paid :=
    fold_left (fun sum t => sum + Js.or0 (credit t)) transactions 0 in
  let balance := paid - receivable in
  {| receivable := receivable; paid := paid; balance := balance |}.

(** [currentTransactions.filter((t) => /\bmg\b/i.test(t.description)).length] *)
Definition mgCount (currentTransactions : list Transaction) : nat :=
  List.length
    (filter (fun t => RegExp.testMg (description t)) currentTransactions).

(** The balance shown on the row at [index], in both the card list and
    the table: the reduction over [currentTransactions.slice(index)].
    [Number] is the identity on a number. *)
Definition runningBalance (currentTransactions : list Transaction)
           (index : nat) : Z :=
  let remainingTransactions := Js.sliceFrom index currentTransactions in
  fold_left
    (fun sum t => sum + Js.or0 (credit t) - Js.or0 (debit t))
    remainingTransactions 0.

(** The balance column, top row first: [currentTransactions.map] with
    its index. *)
Definition balanceColumn (currentTransactions : list Transaction)
  : list Z :=
  map (runningBalance currentTransactions)
      (seq 0 (List.length currentTransactions)).

End ClientDetail.

(* ===================================================================== *)
(** ** [src/components/Reports.tsx] *)
(* ===================================================================== *)

Module Reports.

(** A row of [clients], as selected: [id, status]. *)
Record ClientRow : Type := mkClientRow {
  row_id : string;
  status : string
}.

(** The joined [clients!inner(user_id, client_name, client_code)]. *)
Record ClientData : Type := mkClientData {
  cd_client_name : string;
  cd_client_code : string
}.

(** The join arrives as one related record or as an array of them. *)
Inductive Joined : Type :=
| JoinedOne (c : option ClientData)
| JoinedMany (cs : list ClientData).

(** A row of [client_transactions_kes] or [client_transactions_usd]. *)
Record ReportTransaction : Type := mkReportTransaction {
  rt_id : string;
  client_id : string;
  rt_description : string;
  rt_debit : Js.number;
  rt_credit : Js.number;
  rt_transaction_date : string;
  clients : Joined
}.

Record ClientStats : Type := mkClientStats {
  totalClients : Z;
  activeClients : Z;
  inactiveClients : Z;
  totalBalanceKES : Z;
  totalBalanceUSD : Z;
  totalTransactions : Z
}.

Record TopClient : Type := mkTopClient {
  tc_client_id : string;
  tc_client_name : string;
  tc_client_code : string;
  total_balance_kes : Z;
  total_balance_usd : Z;
  transaction_count : Z
}.

Record MonthlyTrend : Type := mkMonthlyTrend {
  month : string;
  transactions_kes : Z;
  transactions_usd : Z;
  balance_kes : Z;
  balance_usd : Z
}.

(** [(t.credit || 0) - (t.debit || 0)] *)
Definition net (t : ReportTransaction) : Z :=
  Js.or0 (rt_credit t) - Js.or0 (rt_debit t).

(** [transactions.reduce((sum, t) => sum + (t.credit || 0) - (t.debit || 0), 0)] *)
Definition totalOf (transactions : list ReportTransaction) : Z :=
  fold_left
    (fun sum t => sum + Js.or0 (rt_credit t) - Js.or0 (rt_debit t))
    transactions 0.

(** The object handed to [setClientStats]. *)
Definition computeClientStats (clientRows : list ClientRow)
           (kesTransactions usdTransactions : list ReportTransaction)
  : ClientStats :=
  let activeClients :=
    Z.of_nat
      (List.length
         (filter (fun c => String.eqb (status c) "active") clientRows)) in
  let totalClients := Z.of_nat (List.length clientRows) in
  let totalKES := totalOf kesTransactions in
  let totalUSD := totalOf usdTransactions in
  {| totalClients := totalClients;
     activeClients := activeClients;
     inactiveClients := totalClients - activeClients;
     totalBalanceKES := totalKES;
     totalBalanceUSD := totalUSD;
     totalTransactions :=
       Z.of_nat (List.length kesTransactions)
       + Z.of_nat (List.length usdTransactions) |}.

(** ** The client map: a [Map<string, TopClient>] in insertion order *)

Definition ClientMap := list (string * TopClient).

Definition has (key : string) (m : ClientMap) : bool :=
  existsb (fun e => String.eqb (fst e) key) m.

(** [clientMap.set(key, v)] for a key the map does not hold. *)
Definition setNew (key : string) (v : TopClient) (m : ClientMap)
  : ClientMap :=
  (m ++ [(key, v)])%list.

(** An in-place change of the entry [clientMap.get(key)]. *)
Fixpoint modify (key : string) (f : TopClient -> TopClient) (m : ClientMap)
  : ClientMap :=
  match m with
  | [] => []
  | (k, v) :: m' =>
      if String.eqb k key then (k, f v) :: m'
      else (k, v) :: modify key f m'
  end.

Definition values (m : ClientMap) : list TopClient := map snd m.

(** [clientMap.get(key)] *)
Fixpoint get (key : string) (m : ClientMap) : option TopClient :=
  match m with
  | [] => None
  | (k, v) :: m' => if String.eqb k key then Some v else get key m'
  end.

(** [Array.isArray(t.clients) ? t.clients[0] : t.clients] *)
Definition clientData (t : ReportTransaction) : option ClientData :=
  match clients t with
  | JoinedMany cs => hd_error cs
  | JoinedOne c => c
  end.

(** The entry created at the first transaction of a client. *)
Definition freshEntry (t : ReportTransaction) : TopClient :=
  {| tc_client_id := client_id t;
     tc_client_name :=
       match clientData t with
       | Some c => Js.orEmpty (cd_client_name c)
       | None => EmptyString
       end;
     tc_client_code :=
       match clientData t with
       | Some c => Js.orEmpty (cd_client_code c)
       | None => EmptyString
       end;
     total_balance_kes := 0;
     total_balance_usd := 0;
     transaction_count := 0 |}.

Definition ensure (t : ReportTransaction) (m : ClientMap) : ClientMap :=
  let key := client_id t in
  if negb (has key m) then setNew key (freshEntry t) m else m.

Definition creditKES (t : ReportTransaction) (c : TopClient) : TopClient :=
  {| tc_client_id := tc_client_id c;
     tc_client_name := tc_client_name c;
     tc_client_code := tc_client_code c;
     total_balance_kes := total_balance_kes c + net t;
     total_balance_usd := total_balance_usd c;
     transaction_count := transaction_count c + 1 |}.

Definition creditUSD (t : ReportTransaction) (c : TopClient) : TopClient :=
  {| tc_client_id := tc_client_id c;
     tc_client_name := tc_client_name c;
     tc_client_code := tc_client_code c;
     total_balance_kes := total_balance_kes c;
     total_balance_usd := total_balance_usd c + net t;
     transaction_count := transaction_count c + 1 |}.

(** The body of [kesTransactions.forEach]. *)
Definition stepKES (m : ClientMap) (t : ReportTransaction) : ClientMap :=
  modify (client_id t) (creditKES t) (ensure t m).

(** The body of [usdTransactions.forEach]. *)
Definition stepUSD (m : ClientMap) (t : ReportTransaction) : ClientMap :=
  modify (client_id t) (creditUSD t) (ensure t m).

Definition buildClientMap (kesTransactions usdTransactions
                           : list ReportTransaction) : ClientMap :=
  fold_left stepUSD usdTransactions (fold_left stepKES kesTransactions []).

(** [aTotal], [bTotal]: KES plus USD at the rough conversion of 130. *)
Definition composite (c : TopClient) : Z :=
  total_balance_kes c + total_balance_usd c * 130.

(** The comparator of the ranking: [bTotal - aTotal]. *)
Definition byComposite (a b : TopClient) : Z :=
  let aTotal := composite a in
  let bTotal := composite b in
  bTotal - aTotal.

Definition topClientsList (kesTransactions usdTransactions
                           : list ReportTransaction) : list TopClient :=
  Js.slice 0 10
    (Js.sort byComposite
       (values (buildClientMap kesTransactions usdTransactions))).

(** ** The CSV export *)

(** The double quote that wraps a client name. *)
Definition dquote : string := String (ascii_of_nat 34) EmptyString.

Definition topClientLine (c : TopClient) : string :=
  dquote ++ tc_client_name c ++ dquote ++ "," ++ tc_client_code c ++ ","
  ++ Js.toString (total_balance_kes c) ++ ","
  ++ Js.toString (total_balance_usd c) ++ ","
  ++ Js.toString (transaction_count c) ++ Js.nl.

Definition trendLine (t : MonthlyTrend) : string :=
  month t ++ "," ++ Js.toString (transactions_kes t) ++ ","
  ++ Js.toString (transactions_usd t) ++ ","
  ++ Js.toString (balance_kes t) ++ ","
  ++ Js.toString (balance_usd t) ++ Js.nl.

(** The value of [csvContent] when the [Blob] is made; [now] is
    [new Date().toLocaleString()].  Each [let] is one [csvContent += ...]. *)
Definition exportToExcel (now : string) (clientStats : ClientStats)
           (topClients : list TopClient) (monthlyTrends : list MonthlyTrend)
  : string :=
  let csvContent := "Dinix - Financial Report" ++ Js.nl in
  let csvContent := csvContent ++ ("Generated: " ++ now ++ Js.nl ++ Js.nl) in
  let csvContent := csvContent ++ ("SUMMARY STATISTICS" ++ Js.nl) in
  let csvContent :=
    csvContent
    ++ ("Total Clients," ++ Js.toString (totalClients clientStats) ++ Js.nl) in
  let csvContent :=
    csvContent
    ++ ("Active Clients," ++ Js.toString (activeClients clientStats)
        ++ Js.nl) in
  let csvContent :=
    csvContent
    ++ ("Inactive Clients," ++ Js.toString (inactiveClients clientStats)
        ++ Js.nl) in
  let csvContent :=
    csvContent
    ++ ("Total Transactions," ++ Js.toString (totalTransactions clientStats)
        ++ Js.nl) in
  let csvContent :=
    csvContent
    ++ ("Total Balance (KES)," ++ Js.toString (totalBalanceKES clientStats)
        ++ Js.nl) in
  let csvContent :=
    csvContent
    ++ ("Total Balance (USD)," ++ Js.toString (totalBalanceUSD clientStats)
        ++ Js.nl ++ Js.nl) in
  let csvContent :=
    match topClients with
    | [] => csvContent
    | _ :: _ =>
        let csvContent := csvContent ++ ("TOP CLIENTS" ++ Js.nl) in
        let csvContent :=
          csvContent
          ++ ("Client Name,Client Code,Balance (KES),Balance (USD),Transaction Count"
              ++ Js.nl) in
        let csvContent :=
          fold_left (fun csv c => csv ++ topClientLine c)
                    topClients csvContent in
        csvContent ++ Js.nl
    end in
  match monthlyTrends with
  | [] => csvContent
  | _ :: _ =>
      let csvContent := csvContent ++ ("MONTHLY TRENDS" ++ Js.nl) in
      let csvContent :=
        csvContent
        ++ ("Month,Transactions (KES),Transactions (USD),Balance (KES),Balance (USD)"
            ++ Js.nl) in
      fold_left (fun csv t => csv ++ trendLine t) monthlyTrends csvContent
  end.

End Reports.

(* ===================================================================== *)
(** ** The specification's words *)
(* ===================================================================== *)

Module Spec.

(** The amount a numeric field stands for: a missing field counts as 0. *)
Definition amount (x : Js.number) : Z :=
  match x with
  | None => 0
  | Some v => v
  end.

(** Sum of the credit amounts. *)
Fixpoint sumCredits (txns : list Transaction) : Z :=
  match txns with
  | [] => 0
  | t :: rest => amount (credit t) + sumCredits rest
  end.

(** Sum of the debit amounts. *)
Fixpoint sumDebits (txns : list Transaction) : Z :=
  match txns with
  | [] => 0
  | t :: rest => amount (debit t) + sumDebits rest
  end.

(** Sum of (credit - debit). *)
Fixpoint netSum (txns : list Transaction) : Z :=
  match txns with
  | [] => 0
  | t :: rest => (amount (credit t) - amount (debit t)) + netSum rest
  end.

(** The Summary of a list: paid is the sum of the credits, receivable the
    sum of the debits, balance their difference. *)
Definition ledgerSummary (txns : list Transaction) : Summary :=
  {| receivable := sumDebits txns;
     paid := sumCredits txns;
     balance := sumCredits txns - sumDebits txns |}.

(** Component-wise sum of Summaries. *)
Definition addSummary (a b : Summary) : Summary :=
  {| receivable := receivable a + receivable b;
     paid := paid a + paid b;
     balance := balance a + balance b |}.

Definition zeroSummary : Summary :=
  {| receivable := 0; paid := 0; balance := 0 |}.

Definition sumSummaries (l : list Summary) : Summary :=
  fold_right addSummary zeroSummary l.

(** Sum of list lengths. *)
Definition totalLength {A : Type} (ls : list (list A)) : nat :=
  fold_right (fun l n => (List.length l + n)%nat) 0%nat ls.

(** A transaction with its description replaced. *)
Definition withDescription (t : Transaction) (d : string) : Transaction :=
  {| id := id t;
     transaction_date := transaction_date t;
     description := d;
     debit := debit t;
     credit := credit t;
     payment_method := payment_method t;
     reference_number := reference_number t;
     notes := notes t |}.

(** The rewritten description: [{client name} - {original description}],
    or just the client name when the original description is empty. *)
Definition rewritten (c : Client) (t : Transaction) : Transaction :=
  match description t with
  | EmptyString => withDescription t (client_name c)
  | String _ _ =>
      withDescription t (client_name c ++ " - " ++ description t)
  end.

(** The relabelled transactions of every client, client after client. *)
Definition relabelledKES (clients : list ClientLedgers) : list Transaction :=
  flat_map
    (fun cl => map (rewritten (cl_client cl)) (cl_transactionsKES cl))
    clients.

Definition relabelledUSD (clients : list ClientLedgers) : list Transaction :=
  flat_map
    (fun cl => map (rewritten (cl_client cl)) (cl_transactionsUSD cl))
    clients.

(** Oldest first. *)
Definition notAfter (getTime : string -> Z) (a b : Transaction) : Prop :=
  getTime (transaction_date a) <= getTime (transaction_date b).

(** [s] ends with [suffix]. *)
Fixpoint endsWith (suffix s : string) : bool :=
  String.eqb s suffix
  || match s with
     | EmptyString => false
     | String _ rest => endsWith suffix rest
     end.

(** The display name, case by case on the number of clients. *)
Definition displayName (names : list string) : string :=
  match names with
  | [] => EmptyString
  | [a] => a
  | [a; b] => a ++ " & " ++ b
  | a :: b :: remaining =>
      a ++ " & " ++ b ++ " + "
        ++ Js.toString (Z.of_nat (List.length remaining)) ++ " more"
  end.

(** The letters of the word, in either case. *)
Definition isM (c : ascii) : Prop := c = "m"%char \/ c = "M"%char.
Definition isG (c : ascii) : Prop := c = "g"%char \/ c = "G"%char.

(** [between lo hi c]: the code of [c] lies from [lo] to [hi]. *)
Definition between (lo hi c : ascii) : Prop :=
  (nat_of_ascii lo <= nat_of_ascii c <= nat_of_ascii hi)%nat.

(** A character a word is made of: a letter, a digit or an underscore. *)
Definition inWord (c : ascii) : Prop :=
  between "a" "z" c \/ between "A" "Z" c \/ between "0" "9" c
  \/ c = "_"%char.

(** A neighbour that ends a word: none, or a character no word is made
    of. *)
Definition endsWord (c : option ascii) : Prop :=
  match c with
  | None => True
  | Some x => ~ inWord x
  end.

Definition lastChar (l : list ascii) : option ascii :=
  match l with
  | [] => None
  | _ :: _ => Some (last l "000"%char)
  end.

(** The letters of the word, as tests. *)
Definition isMb (c : ascii) : bool := Ascii.eqb c "m" || Ascii.eqb c "M".
Definition isGb (c : ascii) : bool := Ascii.eqb c "g" || Ascii.eqb c "G".

(** The character before a position: the last of [before], or [prev]
    when [before] is empty. *)
Definition lastFrom (prev : option ascii) (before : list ascii)
  : option ascii :=
  match before with
  | [] => prev
  | _ :: _ => lastChar before
  end.

(** The text holds the standalone word [mg], whatever the case. *)
Definition containsWordMg (s : string) : Prop :=
  exists (before : list ascii) (c1 c2 : ascii) (after : list ascii),
    list_ascii_of_string s = (before ++ c1 :: c2 :: after)%list
    /\ isM c1 /\ isG c2
    /\ endsWord (lastChar before) /\ endsWord (hd_error after).

(** [mgCounted txns n]: [n] transactions of [txns] have a description
    that holds the standalone word. *)
Inductive mgCounted : list Transaction -> nat -> Prop :=
| mgCounted_nil : mgCounted [] 0
| mgCounted_hit t rest n :
    containsWordMg (description t) ->
    mgCounted rest n -> mgCounted (t :: rest) (S n)
| mgCounted_miss t rest n :
    ~ containsWordMg (description t) ->
    mgCounted rest n -> mgCounted (t :: rest) n.

(** Credit minus debit of a report row, a missing amount counting as 0. *)
Definition rowNet (t : Reports.ReportTransaction) : Z :=
  amount (Reports.rt_credit t) - amount (Reports.rt_debit t).

(** The net balance of one client over a list of report rows. *)
Fixpoint clientNet (key : string) (txns : list Reports.ReportTransaction)
  : Z :=
  match txns with
  | [] => 0
  | t :: rest =>
      (if String.eqb (Reports.client_id t) key then rowNet t else 0)
      + clientNet key rest
  end.

(** The number of rows of one client. *)
Fixpoint clientCount (key : string) (txns : list Reports.ReportTransaction)
  : Z :=
  match txns with
  | [] => 0
  | t :: rest =>
      (if String.eqb (Reports.client_id t) key then 1 else 0)
      + clientCount key rest
  end.








(** The tables of a document. *)
Definition isTable (d : DocItem) : bool :=
  match d with
  | DocTable _ _ _ => true
  | DocText _ => false
  end.

Definition tables (items : list DocItem) : list DocItem :=
  filter isTable items.

(** Lines of text, each ended by a line feed. *)
Fixpoint unlines (ls : list string) : string :=
  match ls with
  | [] => EmptyString
  | l :: rest => l ++ Js.nl ++ unlines rest
  end.

(** The TOP CLIENTS block of the CSV export: absent without clients. *)
Definition topClientsBlock (topClients : list Reports.TopClient) : string :=
  match topClients with
  | [] => EmptyString
  | _ :: _ =>
      unlines
        [ "TOP CLIENTS";
          "Client Name,Client Code,Balance (KES),Balance (USD),Transaction Count" ]
      ++ String.concat EmptyString (map Reports.topClientLine topClients)
      ++ Js.nl
  end.

(** The MONTHLY TRENDS block: absent without months. *)
Definition monthlyTrendsBlock (monthlyTrends : list Reports.MonthlyTrend)
  : string :=
  match monthlyTrends with
  | [] => EmptyString
  | _ :: _ =>
      unlines
        [ "MONTHLY TRENDS";
          "Month,Transactions (KES),Transactions (USD),Balance (KES),Balance (USD)" ]
      ++ String.concat EmptyString (map Reports.trendLine monthlyTrends)
  end.

(** The SUMMARY STATISTICS block, from the numbers it prints. *)
Definition summaryBlock (total active inactive transactions kes usd : Z)
  : string :=
  unlines
    [ "SUMMARY STATISTICS";
      "Total Clients," ++ Js.toString total;
      "Active Clients," ++ Js.toString active;
      "Inactive Clients," ++ Js.toString inactive;
      "Total Transactions," ++ Js.toString transactions;
      "Total Balance (KES)," ++ Js.toString kes;
      "Total Balance (USD)," ++ Js.toString usd;
      EmptyString ].

(** The two head lines of the export and the blank line after them. *)
Definition csvHead (now : string) : string :=
  unlines ["Dinix - Financial Report"; "Generated: " ++ now; EmptyString].

(** The entry of client [k] sums the rows of [k]: net KES balance, net
    USD balance and number of rows. *)
Definition rolledUp (kes usd : list Reports.ReportTransaction)
           (k : string) (v : Reports.TopClient) : Prop :=
  Reports.tc_client_id v = k
  /\ Reports.total_balance_kes v = clientNet k kes
  /\ Reports.total_balance_usd v = clientNet k usd
  /\ Reports.transaction_count v = clientCount k kes + clientCount k usd.

(** Client [k] has no row yet. *)
Definition unseen (kes usd : list Reports.ReportTransaction) (k : string)
  : Prop :=
  clientNet k kes = 0 /\ clientNet k usd = 0
  /\ clientCount k kes = 0 /\ clientCount k usd = 0.

(** The client map rolls up the rows seen so far. *)
Definition rollsUp (m : Reports.ClientMap)
           (kes usd : list Reports.ReportTransaction) : Prop :=
  NoDup (map fst m)
  /\ (forall k v, Reports.get k m = Some v -> rolledUp kes usd k v)
  /\ (forall k, Reports.get k m = None -> unseen kes usd k).



End Spec.

(* ===================================================================== *)
(** ** Sample ledgers *)
(* ===================================================================== *)

Module Sample.

Definition digitValue (c : ascii) : option Z :=
  if RegExp.inRange "0" "9" c then Some (Z.of_nat (nat_of_ascii c) - 48)
  else None.

(** A stand-in for [getTime] on ISO dates [YYYY-MM-DD]: the digits read as
    one decimal number, which orders such dates as the calendar does. *)
Fixpoint dateOrdinalFrom (acc : Z) (s : string) : Z :=
  match s with
  | EmptyString => acc
  | String c rest =>
      match digitValue c with
      | Some d => dateOrdinalFrom (10 * acc + d) rest
      | None => dateOrdinalFrom acc rest
      end
  end.

Definition dateOrdinal (s : string) : Z := dateOrdinalFrom 0 s.

(** Stand-ins for the date and currency formatters. *)
Definition showDate (s : string) : string := s.

Definition showCurrency (v : Z) (sym : Currency) : string :=
  match sym with
  | KES => "KES " ++ Js.toString v
  | USD => "USD " ++ Js.toString v
  end.

Definition tx (i date desc : string) (d c : Js.number) : Transaction :=
  {| id := i; transaction_date := date; description := desc;
     debit := d; credit := c;
     payment_method := None; reference_number := None; notes := None |}.

Definition person (name code : string) : Client :=
  {| client_name := name; client_code := code; email := None;
     phone := None; business_name := None; address := None |}.

(** Scenario 6 of the specification: credit 1000 on 2024-01-05, debit
    400 on 2024-01-10, held newest first as the detail view loads them. *)
Definition twoEntries : list Transaction :=
  [ tx "t2" "2024-01-10" "goods" (Some 400) None;
    tx "t1" "2024-01-05" "deposit" None (Some 1000) ].

(** Scenario 7: Client A with a KES credit of 500 described [rent],
    Client B with a KES debit of 200 and no description. *)
Definition clientA (date : string) : ClientLedgers :=
  {| cl_client := person "A" "CA";
     cl_transactionsKES := [tx "a1" date "rent" None (Some 500)];
     cl_transactionsUSD := [] |}.

Definition clientB (date : string) : ClientLedgers :=
  {| cl_client := person "B" "CB";
     cl_transactionsKES := [tx "b1" date EmptyString (Some 200) None];
     cl_transactionsUSD := [] |}.

Definition clientC : ClientLedgers :=
  {| cl_client := person "C" "CC";
     cl_transactionsKES := [];
     cl_transactionsUSD := [tx "c1" "2024-02-01" "fees" None (Some 40)] |}.

(** Scenario 8: the three descriptions of the mileage count. *)
Definition mileage : list Transaction :=
  [ tx "m1" "2024-03-01" "MG run" (Some 10) None;
    tx "m2" "2024-03-02" "mileage" (Some 10) None;
    tx "m3" "2024-03-03" "3mg" (Some 10) None ].

Definition row (i cid name : string) (d c : Js.number)
  : Reports.ReportTransaction :=
  {| Reports.rt_id := i;
     Reports.client_id := cid;
     Reports.rt_description := "entry";
     Reports.rt_debit := d;
     Reports.rt_credit := c;
     Reports.rt_transaction_date := "2024-04-01";
     Reports.clients :=
       Reports.JoinedOne
         (Some {| Reports.cd_client_name := name;
                  Reports.cd_client_code := cid |}) |}.

(** Five clients, three of them active. *)
Definition clientRows : list Reports.ClientRow :=
  [ Reports.mkClientRow "c1" "active";
    Reports.mkClientRow "c2" "active";
    Reports.mkClientRow "c3" "inactive";
    Reports.mkClientRow "c4" "active";
    Reports.mkClientRow "c5" "pending" ].

(** Eight KES rows that net 10000. *)
Definition kesRows : list Reports.ReportTransaction :=
  [ row "k1" "c1" "Asha" None (Some 6000);
    row "k2" "c1" "Asha" (Some 1000) None;
    row "k3" "c2" "Brian" None (Some 4000);
    row "k4" "c2" "Brian" (Some 500) None;
    row "k5" "c3" "Chege" None (Some 2000);
    row "k6" "c3" "Chege" (Some 500) None;
    row "k7" "c4" "Dalila" None (Some 300);
    row "k8" "c4" "Dalila" (Some 300) None ].

(** Four USD rows that net 250. *)
Definition usdRows : list Reports.ReportTransaction :=
  [ row "u1" "c1" "Asha" None (Some 200);
    row "u2" "c2" "Brian" None (Some 100);
    row "u3" "c5" "Edna" (Some 100) None;
    row "u4" "c5" "Edna" None (Some 50) ].





End Sample.

(* ===================================================================== *)
(** ** A [Map] with string keys, in insertion order *)
(* ===================================================================== *)

Module JsMap.

Section Values.
Context {V : Type}.

Definition t := list (string * V).

(** [m.has(key)] *)
Definition has (key : string) (m : t) : bool :=
  existsb (fun e => String.eqb (fst e) key) m.

(** [m.get(key)] *)
Fixpoint get (key : string) (m : t) : option V :=
  match m with
  | [] => None
  | (k, v) :: m' => if String.eqb k key then Some v else get key m'
  end.

(** [m.set(key, v)] for a key the map does not hold: a new last entry. *)
Definition setNew (key : string) (v : V) (m : t) : t :=
  (m ++ [(key, v)])%list.

(** An in-place change of the object [m.get(key)]. *)
Fixpoint modify (key : string) (f : V -> V) (m : t) : t :=
  match m with
  | [] => []
  | (k, v) :: m' =>
      if String.eqb k key then (k, f v) :: m'
      else (k, v) :: modify key f m'
  end.

(** [Array.from(m.values())] *)
Definition values (m : t) : list V := map snd m.

End Values.

End JsMap.

(* ===================================================================== *)
(** ** [src/components/Reports.tsx]: monthly trends and selection *)
(* ===================================================================== *)

Module Trends.

(** [t.transaction_date.substring(0, 7)]: the [YYYY-MM] of the row. *)
Definition monthOf (t : Reports.ReportTransaction) : string :=
  substring 0 7 (Reports.rt_transaction_date t).

(** The bucket created at the first row of a month. *)
Definition freshTrend (m : string) : Reports.MonthlyTrend :=
  {| Reports.month := m;
     Reports.transactions_kes := 0;
     Reports.transactions_usd := 0;
     Reports.balance_kes := 0;
     Reports.balance_usd := 0 |}.

Definition ensure (m : string) (monthlyMap : JsMap.t) : JsMap.t :=
  if negb (JsMap.has m monthlyMap)
  then JsMap.setNew m (freshTrend m) monthlyMap
  else monthlyMap.

Definition countKES (t : Reports.ReportTransaction)
           (trend : Reports.MonthlyTrend) : Reports.MonthlyTrend :=
  {| Reports.month := Reports.month trend;
     Reports.transactions_kes := Reports.transactions_kes trend + 1;
     Reports.transactions_usd := Reports.transactions_usd trend;
     Reports.balance_kes := Reports.balance_kes trend + Reports.net t;
     Reports.balance_usd := Reports.balance_usd trend |}.

Definition countUSD (t : Reports.ReportTransaction)
           (trend : Reports.MonthlyTrend) : Reports.MonthlyTrend :=
  {| Reports.month := Reports.month trend;
     Reports.transactions_kes := Reports.transactions_kes trend;
     Reports.transactions_usd := Reports.transactions_usd trend + 1;
     Reports.balance_kes := Reports.balance_kes trend;
     Reports.balance_usd := Reports.balance_usd trend + Reports.net t |}.

(** The body of [kesTransactions.forEach] over [monthlyMap]. *)
Definition stepKES (monthlyMap : JsMap.t) (t : Reports.ReportTransaction)
  : JsMap.t :=
  let month := monthOf t in
  JsMap.modify month (countKES t) (ensure month monthlyMap).

(** The body of [usdTransactions.forEach] over [monthlyMap]. *)
Definition stepUSD (monthlyMap : JsMap.t) (t : Reports.ReportTransaction)
  : JsMap.t :=
  let month := monthOf t in
  JsMap.modify month (countUSD t) (ensure month monthlyMap).

Definition buildMonthlyMap (kesTransactions usdTransactions
                            : list Reports.ReportTransaction)
  : JsMap.t :=
  fold_left stepUSD usdTransactions (fold_left stepKES kesTransactions []).

Section Locale.
(** [a.localeCompare(b)] of the host. *)
Variable localeCompare : string -> string -> Z.

Definition byMonth (a b : Reports.MonthlyTrend) : Z :=
  localeCompare (Reports.month a) (Reports.month b).

(** The list handed to [setMonthlyTrends]. *)
Definition trends (kesTransactions usdTransactions
                   : list Reports.ReportTransaction)
  : list Reports.MonthlyTrend :=
  Js.sort byMonth
          (JsMap.values (buildMonthlyMap kesTransactions usdTransactions)).
End Locale.

End Trends.

Module Selection.

(** A [Set<string>] in insertion order. *)
Definition IdSet := list string.

(** [s.has(id)] *)
Definition setHas (id : string) (s : IdSet) : bool :=
  existsb (String.eqb id) s.

(** [s.delete(id)] *)
Definition setDelete (id : string) (s : IdSet) : IdSet :=
  filter (fun x => negb (String.eqb x id)) s.

(** [s.add(id)] *)
Definition setAdd (id : string) (s : IdSet) : IdSet :=
  if setHas id s then s else (s ++ [id])%list.

(** The updater of [toggleTopClientSelection]: [next] is a copy of
    [prev]. *)
Definition toggleTopClientSelection (clientId : string) (prev : IdSet)
  : IdSet :=
  let next := prev in
  if setHas clientId next then setDelete clientId next
  else setAdd clientId next.

Definition clearTopClientSelection : IdSet := [].

(** An element of [clientsPayload]. *)
Record PayloadEntry : Type := mkPayloadEntry {
  pe_client : Client;
  pe_transactionsKES : list Reports.ReportTransaction;
  pe_transactionsUSD : list Reports.ReportTransaction
}.

Definition ofClient (clientId : string) (rows : list Reports.ReportTransaction)
  : list Reports.ReportTransaction :=
  filter (fun t => String.eqb (Reports.client_id t) clientId) rows.

(** [topClients.filter((c) => selectedTopClientIds.has(c.client_id))] *)
Definition selected (topClients : list Reports.TopClient)
           (selectedTopClientIds : IdSet) : list Reports.TopClient :=
  filter (fun c => setHas (Reports.tc_client_id c) selectedTopClientIds)
         topClients.

Definition payloadEntry (kesTransactions usdTransactions
                         : list Reports.ReportTransaction)
           (c : Reports.TopClient) : PayloadEntry :=
  {| pe_client :=
       {| client_name := Reports.tc_client_name c;
          client_code := Reports.tc_client_code c;
          email := None;
          phone := None;
          business_name := None;
          address := None |};
     pe_transactionsKES := ofClient (Reports.tc_client_id c) kesTransactions;
     pe_transactionsUSD := ofClient (Reports.tc_client_id c) usdTransactions |}.

Definition clientsPayload (topClients : list Reports.TopClient)
           (selectedTopClientIds : IdSet)
           (kesTransactions usdTransactions : list Reports.ReportTransaction)
  : list PayloadEntry :=
  map (payloadEntry kesTransactions usdTransactions)
      (selected topClients selectedTopClientIds).

(** How [exportCombinedFromReports] ends for a signed-in user: with one
    of its two notices, or by handing the payload to the generator. *)
Inductive ExportOutcome : Type :=
| Info (message : string)
| Generate (payload : list PayloadEntry).

Definition exportCombinedFromReports (topClients : list Reports.TopClient)
           (selectedTopClientIds : IdSet)
           (kesTransactions usdTransactions : list Reports.ReportTransaction)
  : ExportOutcome :=
  match selectedTopClientIds with
  | [] => Info "Select at least one top client to combine."
  | _ :: _ =>
      match clientsPayload topClients selectedTopClientIds
                           kesTransactions usdTransactions with
      | [] => Info "No transactions found for the selected clients."
      | payload => Generate payload
      end
  end.

End Selection.

(* ===================================================================== *)
(** ** [src/components/ClientDetail.tsx]: the handlers *)
(* ===================================================================== *)

Module Ledger.

(** [activeTab], and the [currency] of a delete or an add. *)
Inductive Tab : Type := TabKES | TabUSD.

(** The ledger part of the component state. *)
Record DetailState : Type := mkDetailState {
  ds_transactionsKES : list Transaction;
  ds_transactionsUSD : list Transaction;
  ds_summaryKES : Summary;
  ds_summaryUSD : Summary;
  ds_submitting : bool
}.

(** [list.includes(s)] *)
Definition includes (l : list string) (s : string) : bool :=
  existsb (String.eqb s) l.

Definition debitTypes : list string := ["invoice"; "charge"; "expense"].
Definition creditTypes : list string := ["payment"; "refund"; "credit"].

(** The [debit] and [credit] of [transactionData] in the add and edit
    forms; [amount] is [Number(formData.get("amount"))]. *)
Definition formDebit (transactionType : string) (amount : Js.number)
  : Js.number :=
  if includes debitTypes transactionType then amount else Some 0.

Definition formCredit (transactionType : string) (amount : Js.number)
  : Js.number :=
  if includes creditTypes transactionType then amount else Some 0.

(** The state after [loadClientData] got its three results. *)
Definition loadClientData (kesData usdData : list Transaction)
           (s : DetailState) : DetailState :=
  {| ds_transactionsKES := kesData;
     ds_transactionsUSD := usdData;
     ds_summaryKES := ClientDetail.calculateSummary kesData;
     ds_summaryUSD := ClientDetail.calculateSummary usdData;
     ds_submitting := ds_submitting s |}.

(** [transactions.filter((t) => t.id !== transactionId)] *)
Definition withoutId (transactionId : string) (txns : list Transaction)
  : list Transaction :=
  filter (fun t => negb (String.eqb (id t) transactionId)) txns.

(** [executeDelete(transactionId, currency)]; [deleteError] tells whether
    the backend refused the delete. *)
Definition executeDelete (deleteError : bool) (transactionId : string)
           (currency : Tab) (s : DetailState) : DetailState :=
  if ds_submitting s then s
  else if deleteError then s
  else
    match currency with
    | TabKES =>
        let updatedTransactions :=
          withoutId transactionId (ds_transactionsKES s) in
        {| ds_transactionsKES := updatedTransactions;
           ds_transactionsUSD := ds_transactionsUSD s;
           ds_summaryKES := ClientDetail.calculateSummary updatedTransactions;
           ds_summaryUSD := ds_summaryUSD s;
           ds_submitting := false |}
    | TabUSD =>
        let updatedTransactions :=
          withoutId transactionId (ds_transactionsUSD s) in
        {| ds_transactionsKES := ds_transactionsKES s;
           ds_transactionsUSD := updatedTransactions;
           ds_summaryKES := ds_summaryKES s;
           ds_summaryUSD := ClientDetail.calculateSummary updatedTransactions;
           ds_submitting := false |}
    end.

(** The state update after a confirmed insert: [data] is the row the
    backend returned. *)
Definition addToState (currency : Tab) (data : Transaction)
           (s : DetailState) : DetailState :=
  match currency with
  | TabKES =>
      let updatedTransactions := data :: ds_transactionsKES s in
      {| ds_transactionsKES := updatedTransactions;
         ds_transactionsUSD := ds_transactionsUSD s;
         ds_summaryKES := ClientDetail.calculateSummary updatedTransactions;
         ds_summaryUSD := ds_summaryUSD s;
         ds_submitting := ds_submitting s |}
  | TabUSD =>
      let updatedTransactions := data :: ds_transactionsUSD s in
      {| ds_transactionsKES := ds_transactionsKES s;
         ds_transactionsUSD := updatedTransactions;
         ds_summaryKES := ds_summaryKES s;
         ds_summaryUSD := ClientDetail.calculateSummary updatedTransactions;
         ds_submitting := ds_submitting s |}
  end.



(** ** The PIN challenge *)

(** [pinAction]: its [type] and its [data]. *)
Inductive PinAction : Type :=
| DeleteAction (transactionId : string) (currency : Tab)
| EditAction (transaction : Transaction) (currency : Tab).

Record PinState : Type := mkPinState {
  pinInput : string;
  showPinModal : bool;
  pinAction : option PinAction;
  editingTransaction : option Transaction;
  showEditTransaction : bool
}.

(** What a handler does besides setting state. *)
Inductive Effect : Type :=
| ToastError (message : string)
| CallExecuteDelete (transactionId : string) (currency : Tab).

Definition correctPin : string := "2580".

Definition handlePinProtectedAction (action : PinAction) (s : PinState)
  : PinState :=
  {| pinInput := EmptyString;
     showPinModal := true;
     pinAction := Some action;
     editingTransaction := editingTransaction s;
     showEditTransaction := showEditTransaction s |}.

(** [value.replace(/\D/g, (empty))]: the digits of the text. *)
Fixpoint digitsOnly (value : string) : string :=
  match value with
  | EmptyString => EmptyString
  | String c rest =>
      if RegExp.inRange "0" "9" c then String c (digitsOnly rest)
      else digitsOnly rest
  end.

(** The PIN field's [onChange]: [typed] is [e.target.value]. *)
Definition changePinInput (typed : string) (s : PinState) : PinState :=
  {| pinInput := digitsOnly typed;
     showPinModal := showPinModal s;
     pinAction := pinAction s;
     editingTransaction := editingTransaction s;
     showEditTransaction := showEditTransaction s |}.

Definition verifyPinAndExecute (s : PinState) : PinState * list Effect :=
  if negb (String.eqb (pinInput s) correctPin)
  then
    ({| pinInput := EmptyString;
        showPinModal := showPinModal s;
        pinAction := pinAction s;
        editingTransaction := editingTransaction s;
        showEditTransaction := showEditTransaction s |},
     [ToastError "Incorrect PIN!"])
  else
    match pinAction s with
    | None =>
        ({| pinInput := EmptyString;
            showPinModal := false;
            pinAction := None;
            editingTransaction := editingTransaction s;
            showEditTransaction := showEditTransaction s |}, [])
    | Some (DeleteAction transactionId currency) =>
        ({| pinInput := EmptyString;
            showPinModal := false;
            pinAction := None;
            editingTransaction := editingTransaction s;
            showEditTransaction := showEditTransaction s |},
         [CallExecuteDelete transactionId currency])
    | Some (EditAction transaction _) =>
        ({| pinInput := EmptyString;
            showPinModal := false;
            pinAction := None;
            editingTransaction := Some transaction;
            showEditTransaction := true |}, [])
    end.

(** The close button and the Cancel button of the PIN dialog. *)
Definition cancelPin (s : PinState) : PinState :=
  {| pinInput := EmptyString;
     showPinModal := false;
     pinAction := None;
     editingTransaction := editingTransaction s;
     showEditTransaction := showEditTransaction s |}.

(** Leaving the edit dialog, by its buttons or after a saved edit. *)
Definition closeEdit (s : PinState) : PinState :=
  {| pinInput := pinInput s;
     showPinModal := showPinModal s;
     pinAction := pinAction s;
     editingTransaction := None;
     showEditTransaction := false |}.

(** What the user does at the PIN challenge and the edit dialog. *)
Inductive PinEvent : Type :=
| Request (action : PinAction)
| TypePin (typed : string)
| Verify
| Cancel
| CloseEdit.

Definition pinStep (acc : PinState * list Effect) (e : PinEvent)
  : PinState * list Effect :=
  match e with
  | Request action => (handlePinProtectedAction action (fst acc), snd acc)
  | TypePin typed => (changePinInput typed (fst acc), snd acc)
  | Verify =>
      let r := verifyPinAndExecute (fst acc) in
      (fst r, (snd acc ++ snd r)%list)
  | Cancel => (cancelPin (fst acc), snd acc)
  | CloseEdit => (closeEdit (fst acc), snd acc)
  end.

(** The state and the effects, oldest first, after a run of events. *)
Definition pinRun (events : list PinEvent) (s : PinState)
  : PinState * list Effect :=
  fold_left pinStep events (s, []).

(** The state of a freshly mounted component. *)
Definition pinInitial : PinState :=
  {| pinInput := EmptyString;
     showPinModal := false;
     pinAction := None;
     editingTransaction := None;
     showEditTransaction := false |}.

End Ledger.

(* ===================================================================== *)
(** ** [src/components/ClientDetail.tsx]: the statement of the view *)
(* ===================================================================== *)

Module DetailReport.

(** [interface Client] of the detail view. *)
Record DetailClient : Type := mkDetailClient {
  dc_id : string;
  dc_client_name : string;
  dc_client_code : string;
  dc_email : option string;
  dc_phone : option string;
  dc_business_name : option string;
  dc_address : option string;
  dc_status : string;
  dc_notes : option string;
  dc_created_at : string;
  dc_last_transaction_date : option string
}.

(** [reportType: "full" | "kes-only" | "usd-only"] of [generatePDFReport]. *)
Inductive Choice : Type := ChooseFull | ChooseKes | ChooseUsd.

Definition reportTypeOf (c : Choice) : ReportType :=
  match c with
  | ChooseFull => Full
  | ChooseKes => KesOnly
  | ChooseUsd => UsdOnly
  end.

(** The options both branches of [generatePDFReport] pass to
    [generateClientPDFReport]. *)
Definition reportOptions (c : DetailClient) (s : Ledger.DetailState)
           (reportType : Choice) : ReportOptions :=
  {| client :=
       {| client_name := dc_client_name c;
          client_code := dc_client_code c;
          email := dc_email c;
          phone := dc_phone c;
          business_name := dc_business_name c;
          address := dc_address c |};
     transactionsKES := Ledger.ds_transactionsKES s;
     transactionsUSD := Ledger.ds_transactionsUSD s;
     summaryKES := Ledger.ds_summaryKES s;
     summaryUSD := Ledger.ds_summaryUSD s;
     reportType := reportTypeOf reportType |}.

Section Host.
Variable getTime : string -> Z.
Variable toLocaleDateString : string -> string.
Variable formatCurrency : Z -> Currency -> string.
Variable stmtDate : string.
Variable isoDate : string.

(** [generatePDFReport(reportType)]: nothing without a client, else the
    document and the file name the generator hands on. *)
Definition generatePDFReport (c : option DetailClient)
           (s : Ledger.DetailState) (reportType : Choice)
  : option (list DocItem * string) :=
  match c with
  | None => None
  | Some c =>
      Some (PdfGenerator.generateClientPDFReport
              getTime toLocaleDateString formatCurrency stmtDate isoDate
              (reportOptions c s reportType))
  end.
End Host.

End DetailReport.

(* ===================================================================== *)
(** ** Words for the further properties *)
(* ===================================================================== *)

Module Derived.

(** The sum of [f] over a list. *)
Fixpoint sumZ {A : Type} (f : A -> Z) (l : list A) : Z :=
  match l with
  | [] => 0
  | x :: rest => f x + sumZ f rest
  end.

(** The list shows every entry above all older ones: dates strictly
    decrease down the list. *)
Definition newestFirst (getTime : string -> Z) (txns : list Transaction)
  : Prop :=
  StronglySorted
    (fun a b => getTime (transaction_date a) > getTime (transaction_date b))
    txns.

(** The transactions dated at the instant [time]. *)
Definition datedAt (getTime : string -> Z) (time : Z)
           (txns : list Transaction) : list Transaction :=
  filter (fun t => getTime (transaction_date t) =? time) txns.

(** The stored summaries are those of the stored lists. *)
Definition consistent (s : Ledger.DetailState) : Prop :=
  Ledger.ds_summaryKES s
  = ClientDetail.calculateSummary (Ledger.ds_transactionsKES s)
  /\ Ledger.ds_summaryUSD s
     = ClientDetail.calculateSummary (Ledger.ds_transactionsUSD s).




(** The rows of the clients a predicate picks. *)
Definition ofClients (pick : string -> bool)
           (rows : list Reports.ReportTransaction)
  : list Reports.ReportTransaction :=
  filter (fun t => pick (Reports.client_id t)) rows.

(** A top client that is listed and selected. *)
Definition picked (topClients : list Reports.TopClient)
           (selectedIds : Selection.IdSet) (clientId : string) : bool :=
  existsb (fun c => String.eqb (Reports.tc_client_id c) clientId)
          (Selection.selected topClients selectedIds).


(** The mileage count the ledger of one client adds to a combined
    statement: all its transactions when the client's name holds the word
    [mg], else those whose own description holds it. *)
Definition mileageOf (ledger : ClientLedgers -> list Transaction)
           (cl : ClientLedgers) : nat :=
  if RegExp.testMg (client_name (cl_client cl))
  then List.length (ledger cl)
  else PdfGenerator.mgCount (ledger cl).



(** The ledger and the summary of one currency in the detail view. *)
Definition ledgerOf (currency : Ledger.Tab) (s : Ledger.DetailState)
  : list Transaction :=
  match currency with
  | Ledger.TabKES => Ledger.ds_transactionsKES s
  | Ledger.TabUSD => Ledger.ds_transactionsUSD s
  end.

Definition summaryOf (currency : Ledger.Tab) (s : Ledger.DetailState)
  : Summary :=
  match currency with
  | Ledger.TabKES => Ledger.ds_summaryKES s
  | Ledger.TabUSD => Ledger.ds_summaryUSD s
  end.

Definition otherTab (currency : Ledger.Tab) : Ledger.Tab :=
  match currency with
  | Ledger.TabKES => Ledger.TabUSD
  | Ledger.TabUSD => Ledger.TabKES
  end.

(** The correct PIN was typed at some point. *)
Definition pinTyped (events : list Ledger.PinEvent) : Prop :=
  exists typed,
    In (Ledger.TypePin typed) events
    /\ Ledger.digitsOnly typed = Ledger.correctPin.

(** What a run of the PIN challenge can rely on: the pending action was
    requested, a PIN in the field was typed, and every delete handed on
    and every transaction opened for editing was requested and unlocked
    by the PIN. *)
Definition pinGuarded (events : list Ledger.PinEvent)
           (r : Ledger.PinState * list Ledger.Effect) : Prop :=
  (forall a, Ledger.pinAction (fst r) = Some a ->
             In (Ledger.Request a) events)
  /\ (Ledger.pinInput (fst r) = Ledger.correctPin -> pinTyped events)
  /\ (forall i cur,
         In (Ledger.CallExecuteDelete i cur) (snd r) ->
         In (Ledger.Request (Ledger.DeleteAction i cur)) events
         /\ pinTyped events)
  /\ (forall t,
         Ledger.editingTransaction (fst r) = Some t ->
         (exists cur, In (Ledger.Request (Ledger.EditAction t cur)) events)
         /\ pinTyped events).

End Derived.

(* ===================================================================== *)
(** ** Amounts as the engine holds them: binary64 *)
(* ===================================================================== *)

Module Binary64.

(** A [number] field as the engine holds it: an IEEE-754 double, or
    [null] / [undefined] ([None]). *)
Definition number := option float.

(** Truthiness of a number: [NaN], [0] and [-0] are falsy. *)
Definition truthy (x : float) : bool :=
  negb (PrimFloat.is_nan x || PrimFloat.is_zero x).

(** [x || 0] *)
Definition or0 (x : number) : float :=
  match x with
  | Some v => if truthy v then v else PrimFloat.zero
  | None => PrimFloat.zero
  end.

(** The double that holds the whole number [z]. *)
Definition ofZ (z : Z) : float :=
  match z with
  | Z0 => PrimFloat.zero
  | Zpos _ => PrimFloat.of_uint63 (Uint63.of_Z z)
  | Zneg p => PrimFloat.opp (PrimFloat.of_uint63 (Uint63.of_Z (Zpos p)))
  end.

(** [parseFloat] of an amount typed with two decimals, [c] hundredths
    in all: the double nearest to [c / 100]. *)
Definition cents (c : Z) : float := PrimFloat.div (ofZ c) (ofZ 100).

(** [interface Transaction] with its amounts as doubles. *)
Record Transaction : Type := mkTransaction {
  id : string;
  transaction_date : string;
  description : string;
  debit : number;
  credit : number;
  payment_method : option string;
  reference_number : option string;
  notes : option string
}.

(** The derived triple [{ receivable, paid, balance }]. *)
Record Summary : Type := mkSummary {
  receivable : float;
  paid : float;
  balance : float
}.

Record ReportOptions : Type := mkReportOptions {
  client : Client;
  transactionsKES : list Transaction;
  transactionsUSD : list Transaction;
  summaryKES : Summary;
  summaryUSD : Summary;
  reportType : ReportType
}.

(** An element of [options.clients] of the combined statement. *)
Record ClientLedgers : Type := mkClientLedgers {
  cl_client : Client;
  cl_transactionsKES : list Transaction;
  cl_transactionsUSD : list Transaction
}.

End Binary64.

(** [src/lib/pdfGenerator.ts] on doubles: the table of a statement, the
    combiner and its summary. *)
Module PdfGenerator64.

Section Host.

(** [new Date(s).getTime()] on the dates the ledgers hold. *)
Variable getTime : string -> Z.
(** [new Date(s).toLocaleDateString("en-GB", ...)]. *)
Variable toLocaleDateString : string -> string.
(** [formatCurrency] of [src/lib/currency]. *)
Variable formatCurrency : float -> Currency -> string.

(** The comparator of both sorts: oldest first. *)
Definition byDate (a b : Binary64.Transaction) : Z :=
  getTime (Binary64.transaction_date a)
  - getTime (Binary64.transaction_date b).

(** [(v < 0 ? "-" : (empty)) + formatCurrency(Math.abs(v), sym)] *)
Definition signedCurrency (v : float) (sym : Currency) : string :=
  (if PrimFloat.ltb v PrimFloat.zero then "-" else EmptyString)
  ++ formatCurrency (PrimFloat.abs v) sym.

(** The callback of [sorted.map]: the new value of [runBal] and the row. *)
Definition tableRow (sym : Currency) (runBal : float)
           (t : Binary64.Transaction) : float * list string :=
  let inAmt := Binary64.or0 (Binary64.credit t) in
  let outAmt := Binary64.or0 (Binary64.debit t) in
  let runBal := PrimFloat.add runBal (PrimFloat.sub inAmt outAmt) in
  (runBal,
   [ toLocaleDateString (Binary64.transaction_date t);
     Js.orEmpty (Binary64.description t);
     if PrimFloat.ltb PrimFloat.zero inAmt
     then formatCurrency inAmt sym else "-";
     if PrimFloat.ltb PrimFloat.zero outAmt
     then formatCurrency outAmt sym else "-";
     signedCurrency runBal sym ]).

(** [sorted.map(...)] with the captured, mutated [runBal]. *)
Fixpoint mapRows (sym : Currency) (runBal : float)
         (sorted : list Binary64.Transaction) : list (list string) :=
  match sorted with
  | [] => []
  | t :: rest =>
      let '(runBal', row) := tableRow sym runBal t in
      row :: mapRows sym runBal' rest
  end.

(** The successive values [runBal] takes, one per row. *)
Fixpoint runBalances (runBal : float) (sorted : list Binary64.Transaction)
  : list float :=
  match sorted with
  | [] => []
  | t :: rest =>
      let runBal' :=
        PrimFloat.add runBal
          (PrimFloat.sub (Binary64.or0 (Binary64.credit t))
                         (Binary64.or0 (Binary64.debit t))) in
      runBal' :: runBalances runBal' rest
  end.

Definition sortByDate (txns : list Binary64.Transaction)
  : list Binary64.Transaction :=
  Js.sort byDate txns.

Definition buildTableData (txns : list Binary64.Transaction)
           (sym : Currency) : list (list string) :=
  mapRows sym PrimFloat.zero (sortByDate txns).

(** The BALANCE cell of the footer. *)
Definition footBal (summary : Binary64.Summary) (sym : Currency) : string :=
  signedCurrency (Binary64.balance summary) sym.

(** The object literal pushed for [t]: [{...t, description: ...}]. *)
Definition relabel (c : Client) (t : Binary64.Transaction)
  : Binary64.Transaction :=
  let baseDescription := Js.orEmpty (Binary64.description t) in
  {| Binary64.id := Binary64.id t;
     Binary64.transaction_date := Binary64.transaction_date t;
     Binary64.description :=
       if Js.truthy baseDescription
       then client_name c ++ " - " ++ baseDescription
       else client_name c;
     Binary64.debit := Binary64.debit t;
     Binary64.credit := Binary64.credit t;
     Binary64.payment_method := Binary64.payment_method t;
     Binary64.reference_number := Binary64.reference_number t;
     Binary64.notes := Binary64.notes t |}.

(** [txns.forEach((t) => all.push({...}))] *)
Definition pushAll (c : Client) (txns all : list Binary64.Transaction)
  : list Binary64.Transaction :=
  fold_left (fun all t => (all ++ [relabel c t])%list) txns all.

(** [clients.forEach(...)] over the two accumulators [allKES], [allUSD]. *)
Definition collect (clients : list Binary64.ClientLedgers)
  : list Binary64.Transaction * list Binary64.Transaction :=
  fold_left
    (fun all cl =>
       (pushAll (Binary64.cl_client cl) (Binary64.cl_transactionsKES cl)
                (fst all),
        pushAll (Binary64.cl_client cl) (Binary64.cl_transactionsUSD cl)
                (snd all)))
    clients ([], []).

Definition combinedClient (clients : list Binary64.ClientLedgers) : Client :=
  let allNames := map (fun c => client_name (Binary64.cl_client c)) clients in
  let allCodes := map (fun c => client_code (Binary64.cl_client c)) clients in
  {| client_name := PdfGenerator.displayName allNames;
     client_code := Js.join " + " allCodes;
     email := None;
     phone := None;
     business_name := None;
     address := None |}.

(** The loop of [calculateSummary]: [paid] and [receivable] after [t]. *)
Definition summaryStep (acc : float * float) (t : Binary64.Transaction)
  : float * float :=
  (PrimFloat.add (fst acc) (Binary64.or0 (Binary64.credit t)),
   PrimFloat.add (snd acc) (Binary64.or0 (Binary64.debit t))).

Definition calculateSummary (txns : list Binary64.Transaction)
  : Binary64.Summary :=
  let acc := fold_left summaryStep txns (PrimFloat.zero, PrimFloat.zero) in
  let paid := fst acc in
  let receivable := snd acc in
  {| Binary64.receivable := receivable;
     Binary64.paid := paid;
     Binary64.balance := PrimFloat.sub paid receivable |}.

(** The options [generateCombinedClientsPDFReport] passes on, or the
    error it throws on an empty client list. *)
Definition combinedOptions (clients : list Binary64.ClientLedgers)
  : Result Binary64.ReportOptions :=
  match clients with
  | [] => Threw "No clients provided for combined statement"
  | _ :: _ =>
      let all := collect clients in
      let combinedKES := sortByDate (fst all) in
      let combinedUSD := sortByDate (snd all) in
      Returned
        {| Binary64.client := combinedClient clients;
           Binary64.transactionsKES := combinedKES;
           Binary64.transactionsUSD := combinedUSD;
           Binary64.summaryKES := calculateSummary combinedKES;
           Binary64.summaryUSD := calculateSummary combinedUSD;
           Binary64.reportType := Full |}
  end.

End Host.

End PdfGenerator64.

(** [src/components/ClientDetail.tsx] on doubles: the summary and the
    balance column of the detail view. *)
Module ClientDetail64.

(** [calculateSummary(transactions, setSummary)]: the value handed to
    [setSummary]. *)
Definition calculateSummary (transactions : list Binary64.Transaction)
  : Binary64.Summary :=
  let receivable :=
    fold_left
      (fun sum t => PrimFloat.add sum (Binary64.or0 (Binary64.debit t)))
      transactions PrimFloat.zero in
  let paid :=
    fold_left
      (fun sum t => PrimFloat.add sum (Binary64.or0 (Binary64.credit t)))
      transactions PrimFloat.zero in
  let balance := PrimFloat.sub paid receivable in
  {| Binary64.receivable := receivable;
     Binary64.paid := paid;
     Binary64.balance := balance |}.

(** The balance shown on the row at [index]: the reduction
    [sum + Number(t.credit || 0) - Number(t.debit || 0)] over
    [currentTransactions.slice(index)]. *)
Definition runningBalance (currentTransactions : list Binary64.Transaction)
           (index : nat) : float :=
  let remainingTransactions := Js.sliceFrom index currentTransactions in
  fold_left
    (fun sum t =>
       PrimFloat.sub
         (PrimFloat.add sum (Binary64.or0 (Binary64.credit t)))
         (Binary64.or0 (Binary64.debit t)))
    remainingTransactions PrimFloat.zero.

(** The balance column, top row first. *)
Definition balanceColumn (currentTransactions : list Binary64.Transaction)
  : list float :=
  map (runningBalance currentTransactions)
      (seq 0 (List.length currentTransactions)).

End ClientDetail64.

(* ===================================================================== *)
(** ** Whole amounts, and sums as doubles round them *)
(* ===================================================================== *)

(** A ledger of whole amounts, as the engine holds it. *)
Module Whole.

Definition number (x : Js.number) : Binary64.number :=
  option_map Binary64.ofZ x.

Definition transaction (t : Transaction) : Binary64.Transaction :=
  {| Binary64.id := id t;
     Binary64.transaction_date := transaction_date t;
     Binary64.description := description t;
     Binary64.debit := number (debit t);
     Binary64.credit := number (credit t);
     Binary64.payment_method := payment_method t;
     Binary64.reference_number := reference_number t;
     Binary64.notes := notes t |}.

Definition ledger (txns : list Transaction) : list Binary64.Transaction :=
  map transaction txns.

Definition summary (s : Summary) : Binary64.Summary :=
  {| Binary64.receivable := Binary64.ofZ (receivable s);
     Binary64.paid := Binary64.ofZ (paid s);
     Binary64.balance := Binary64.ofZ (balance s) |}.

Definition clientLedgers (cl : ClientLedgers) : Binary64.ClientLedgers :=
  {| Binary64.cl_client := cl_client cl;
     Binary64.cl_transactionsKES := ledger (cl_transactionsKES cl);
     Binary64.cl_transactionsUSD := ledger (cl_transactionsUSD cl) |}.

Definition clients (cls : list ClientLedgers) : list Binary64.ClientLedgers :=
  map clientLedgers cls.

(** The magnitudes of all the amounts of a ledger, added up. *)
Fixpoint volume (txns : list Transaction) : Z :=
  match txns with
  | [] => 0
  | t :: rest =>
      Z.abs (Spec.amount (credit t)) + Z.abs (Spec.amount (debit t))
      + volume rest
  end.

(** The same over both ledgers of every client. *)
Fixpoint clientsVolume (cls : list ClientLedgers) : Z :=
  match cls with
  | [] => 0
  | cl :: rest =>
      volume (cl_transactionsKES cl) + volume (cl_transactionsUSD cl)
      + clientsVolume rest
  end.

(** The binary64 encoding of a whole number of magnitude below [2^53]:
    a mantissa of exactly 53 bits and the exponent that goes with it. *)
Definition mantissa (p : positive) : positive :=
  match (53 - Zpos (digits2_pos p))%Z with
  | Zpos k => Pos.iter xO p k
  | _ => p
  end.

Definition exponent (p : positive) : Z := Zpos (digits2_pos p) - 53.

Definition encoding (z : Z) : spec_float :=
  match z with
  | Z0 => S754_zero false
  | Zpos p => S754_finite false (mantissa p) (exponent p)
  | Zneg p => S754_finite true (mantissa p) (exponent p)
  end.

End Whole.

(** The specification's words on doubles: sums taken from the left, each
    addition and subtraction rounded as binary64 rounds it. *)
Module Rounded.

(** The amount a numeric field stands for: a missing field, [NaN] and
    zero count as 0. *)
Definition amount (x : Binary64.number) : float :=
  match x with
  | None => PrimFloat.zero
  | Some v =>
      if PrimFloat.is_nan v then PrimFloat.zero
      else if PrimFloat.is_zero v then PrimFloat.zero
      else v
  end.

(** From [start], each credit added and each debit subtracted in turn. *)
Fixpoint netFrom (start : float) (txns : list Binary64.Transaction)
  : float :=
  match txns with
  | [] => start
  | t :: rest =>
      netFrom
        (PrimFloat.sub
           (PrimFloat.add start (amount (Binary64.credit t)))
           (amount (Binary64.debit t)))
        rest
  end.

(** Oldest first. *)
Definition notAfter (getTime : string -> Z) (a b : Binary64.Transaction)
  : Prop :=
  getTime (Binary64.transaction_date a)
  <= getTime (Binary64.transaction_date b).

(** Component-wise sum of Summaries, client after client. *)
Definition addSummary (a b : Binary64.Summary) : Binary64.Summary :=
  {| Binary64.receivable :=
       PrimFloat.add (Binary64.receivable a) (Binary64.receivable b);
     Binary64.paid := PrimFloat.add (Binary64.paid a) (Binary64.paid b);
     Binary64.balance :=
       PrimFloat.add (Binary64.balance a) (Binary64.balance b) |}.

Definition zeroSummary : Binary64.Summary :=
  {| Binary64.receivable := PrimFloat.zero;
     Binary64.paid := PrimFloat.zero;
     Binary64.balance := PrimFloat.zero |}.

Definition sumSummaries (l : list Binary64.Summary) : Binary64.Summary :=
  fold_left addSummary l zeroSummary.

End Rounded.

(** Ledgers with amounts in hundredths, as the amount inputs of the
    detail view ([type="number" step="0.01"], read by [parseFloat])
    produce them. *)
Module SampleCents.

Definition tx (i date : string) (d c : Binary64.number)
  : Binary64.Transaction :=
  {| Binary64.id := i;
     Binary64.transaction_date := date;
     Binary64.description := "entry";
     Binary64.debit := d;
     Binary64.credit := c;
     Binary64.payment_method := None;
     Binary64.reference_number := None;
     Binary64.notes := None |}.

Definition paidIn (i date : string) (c : Z) : Binary64.Transaction :=
  tx i date None (Some (Binary64.cents c)).

Definition paidOut (i date : string) (c : Z) : Binary64.Transaction :=
  tx i date (Some (Binary64.cents c)) None.

(** In date order: 0.10 in, 0.40 out, 0.30 in. *)
Definition ascending : list Binary64.Transaction :=
  [ paidIn "t1" "2024-05-01" 10;
    paidOut "t2" "2024-05-02" 40;
    paidIn "t3" "2024-05-03" 30 ].

(** As the detail view shows them, newest first: 0.30 in, 0.40 out,
    0.10 in. *)
Definition displayed : list Binary64.Transaction :=
  [ paidIn "t3" "2024-05-03" 30;
    paidOut "t2" "2024-05-02" 40;
    paidIn "t1" "2024-05-01" 10 ].

(** Client A paid 0.10 in; client B paid 0.20 and 0.30 in. *)
Definition clientA : Binary64.ClientLedgers :=
  {| Binary64.cl_client := Sample.person "A" "CA";
     Binary64.cl_transactionsKES := [paidIn "a1" "2024-05-01" 10];
     Binary64.cl_transactionsUSD := [] |}.

Definition clientB : Binary64.ClientLedgers :=
  {| Binary64.cl_client := Sample.person "B" "CB";
     Binary64.cl_transactionsKES :=
       [paidIn "b1" "2024-05-02" 20; paidIn "b2" "2024-05-03" 30];
     Binary64.cl_transactionsUSD := [] |}.

(** Three payments of 0.10, 0.20 and 0.30 in, newest first. *)
Definition threeCredits : list Binary64.Transaction :=
  [ paidIn "t3" "2024-05-03" 30;
    paidIn "t2" "2024-05-02" 20;
    paidIn "t1" "2024-05-01" 10 ].

Definition showCurrency (v : float) (sym : Currency) : string :=
  match sym with
  | KES => "KES"
  | USD => "USD"
  end.

End SampleCents.

(* ===================================================================== *)
(** ** Auxiliary facts *)
(* ===================================================================== *)

Section SortFacts.
Context {A : Type}.
Variable cmp : A -> A -> Z.

Lemma insert_perm (x : A) (l : list A) :
  Permutation (Js.insert cmp x l) (x :: l).
Proof.
  induction l as [|y l IH]; simpl.
  - apply Permutation_refl.
  - destruct (cmp x y <=? 0).
    + apply Permutation_refl.
    + eapply perm_trans; [apply perm_skip, IH | apply perm_swap].
Qed.

Lemma sort_perm (l : list A) : Permutation (Js.sort cmp l) l.
Proof.
  induction l as [|x l IH]; simpl.
  - apply perm_nil.
  - eapply perm_trans; [apply insert_perm | apply perm_skip, IH].
Qed.

Lemma sort_length (l : list A) :
  List.length (Js.sort cmp l) = List.length l.
Proof. apply Permutation_length, sort_perm. Qed.

End SortFacts.

Lemma amount_or0 (x : Js.number) : Js.or0 x = Spec.amount x.
Proof. destruct x; reflexivity. Qed.

Lemma netSum_split (l : list Transaction) :
  Spec.netSum l = Spec.sumCredits l - Spec.sumDebits l.
Proof. induction l as [|t l IH]; simpl; lia. Qed.

Lemma sumCredits_app (l1 l2 : list Transaction) :
  Spec.sumCredits (l1 ++ l2) = Spec.sumCredits l1 + Spec.sumCredits l2.
Proof. induction l1 as [|t l1 IH]; simpl; lia. Qed.

Lemma sumDebits_app (l1 l2 : list Transaction) :
  Spec.sumDebits (l1 ++ l2) = Spec.sumDebits l1 + Spec.sumDebits l2.
Proof. induction l1 as [|t l1 IH]; simpl; lia. Qed.

Lemma sumCredits_perm (l1 l2 : list Transaction) :
  Permutation l1 l2 -> Spec.sumCredits l1 = Spec.sumCredits l2.
Proof. induction 1; simpl; lia. Qed.

Lemma sumDebits_perm (l1 l2 : list Transaction) :
  Permutation l1 l2 -> Spec.sumDebits l1 = Spec.sumDebits l2.
Proof. induction 1; simpl; lia. Qed.

Lemma netSum_perm (l1 l2 : list Transaction) :
  Permutation l1 l2 -> Spec.netSum l1 = Spec.netSum l2.
Proof. induction 1; simpl; lia. Qed.

(** The loop of the statement generator's summary, from any start. *)
Lemma summaryStep_fold (l : list Transaction) (acc : Z * Z) :
  fold_left PdfGenerator.summaryStep l acc
  = (fst acc + Spec.sumCredits l, snd acc + Spec.sumDebits l).
Proof.
  revert acc; induction l as [|t l IH]; intros [p r].
  - simpl; apply f_equal2; lia.
  - cbn [fold_left Spec.sumCredits Spec.sumDebits].
    rewrite IH; unfold PdfGenerator.summaryStep; cbn [fst snd].
    rewrite (amount_or0 (credit t)), (amount_or0 (debit t)).
    apply f_equal2; lia.
Qed.



Lemma reduce_net (l : list Transaction) (z : Z) :
  fold_left (fun sum t => sum + Js.or0 (credit t) - Js.or0 (debit t)) l z
  = z + Spec.netSum l.
Proof.
  revert z; induction l as [|t l IH]; intros z; simpl.
  - lia.
  - rewrite IH, (amount_or0 (credit t)), (amount_or0 (debit t)); lia.
Qed.

Lemma pdf_summary_fields (l : list Transaction) :
  PdfGenerator.calculateSummary l
  = {| receivable := Spec.sumDebits l;
       paid := Spec.sumCredits l;
       balance := Spec.sumCredits l - Spec.sumDebits l |}.
Proof.
  unfold PdfGenerator.calculateSummary.
  rewrite summaryStep_fold; reflexivity.
Qed.


(* ===================================================================== *)
(** ** Summary aggregation *)
(* ===================================================================== *)



(* ===================================================================== *)
(** ** Running balances *)
(* ===================================================================== *)

Section StatementTable.
Variable getTime : string -> Z.
Variable toLocaleDateString : string -> string.
Variable formatCurrency : Z -> Currency -> string.

(** The last value of [runBal] is the start plus every net amount. *)
Lemma runBalances_last_cons (l : list Transaction) (t : Transaction)
      (runBal d : Z) :
  last (PdfGenerator.runBalances runBal (t :: l)) d
  = runBal + Spec.netSum (t :: l).
Proof.
  revert t runBal; induction l as [|u l IH]; intros t runBal.
  - simpl; rewrite (amount_or0 (credit t)), (amount_or0 (debit t)); lia.
  - change (PdfGenerator.runBalances runBal (t :: u :: l))
      with (let rb := runBal + (Js.or0 (credit t) - Js.or0 (debit t)) in
            rb :: PdfGenerator.runBalances rb (u :: l)).
    cbv zeta.
    change (last (?a :: PdfGenerator.runBalances ?rb (u :: l)) d)
      with (last (PdfGenerator.runBalances rb (u :: l)) d).
    rewrite IH.
    rewrite (amount_or0 (credit t)), (amount_or0 (debit t)).
    cbn [Spec.netSum]; lia.
Qed.

Lemma runBalances_last (l : list Transaction) (runBal : Z) :
  last (PdfGenerator.runBalances runBal l) runBal = runBal + Spec.netSum l.
Proof.
  destruct l as [|t l].
  - simpl; lia.
  - apply runBalances_last_cons.
Qed.


End StatementTable.

(* ===================================================================== *)
(** ** The multi-client combiner *)
(* ===================================================================== *)

Lemma string_app_assoc (a b c : string) : (a ++ b) ++ c = a ++ (b ++ c).
Proof. induction a as [|x a IH]; simpl; [reflexivity | now rewrite IH]. Qed.

Lemma string_app_empty_r (a : string) : a ++ EmptyString = a.
Proof. induction a as [|x a IH]; simpl; [reflexivity | now rewrite IH]. Qed.

Lemma relabel_rewritten (c : Client) (t : Transaction) :
  PdfGenerator.relabel c t = Spec.rewritten c t.
Proof.
  unfold PdfGenerator.relabel, Spec.rewritten, Spec.withDescription, Js.orEmpty.
  destruct (description t); reflexivity.
Qed.

Lemma pushAll_app (c : Client) (txns all : list Transaction) :
  PdfGenerator.pushAll c txns all
  = (all ++ map (PdfGenerator.relabel c) txns)%list.
Proof.
  unfold PdfGenerator.pushAll.
  revert all; induction txns as [|t txns IH]; intros all; simpl.
  - now rewrite app_nil_r.
  - rewrite IH, <- app_assoc; reflexivity.
Qed.

Lemma collect_from (clients : list ClientLedgers)
      (all : list Transaction * list Transaction) :
  fold_left
    (fun all cl =>
       (PdfGenerator.pushAll (cl_client cl) (cl_transactionsKES cl) (fst all),
        PdfGenerator.pushAll (cl_client cl) (cl_transactionsUSD cl) (snd all)))
    clients all
  = ((fst all ++ Spec.relabelledKES clients)%list,
     (snd all ++ Spec.relabelledUSD clients)%list).
Proof.
  revert all; induction clients as [|cl clients IH]; intros [ks us].
  - simpl; now rewrite !app_nil_r.
  - cbn [fold_left]; rewrite IH; cbn [fst snd].
    rewrite !pushAll_app.
    unfold Spec.relabelledKES, Spec.relabelledUSD; cbn [flat_map].
    rewrite <- !app_assoc.
    rewrite !(map_ext _ _ (relabel_rewritten (cl_client cl))).
    reflexivity.
Qed.

Lemma collect_relabelled (clients : list ClientLedgers) :
  PdfGenerator.collect clients
  = (Spec.relabelledKES clients, Spec.relabelledUSD clients).
Proof. unfold PdfGenerator.collect; now rewrite collect_from. Qed.

Lemma rewritten_amounts (c : Client) (t : Transaction) :
  credit (Spec.rewritten c t) = credit t
  /\ debit (Spec.rewritten c t) = debit t.
Proof. unfold Spec.rewritten; destruct (description t); split; reflexivity. Qed.

Lemma sumCredits_rewritten (c : Client) (l : list Transaction) :
  Spec.sumCredits (map (Spec.rewritten c) l) = Spec.sumCredits l.
Proof.
  induction l as [|t l IH]; simpl; [reflexivity|].
  now rewrite IH, (proj1 (rewritten_amounts c t)).
Qed.

Lemma sumDebits_rewritten (c : Client) (l : list Transaction) :
  Spec.sumDebits (map (Spec.rewritten c) l) = Spec.sumDebits l.
Proof.
  induction l as [|t l IH]; simpl; [reflexivity|].
  now rewrite IH, (proj2 (rewritten_amounts c t)).
Qed.

Lemma length_relabelled (clients : list ClientLedgers) :
  List.length (Spec.relabelledKES clients)
  = Spec.totalLength (map cl_transactionsKES clients)
  /\ List.length (Spec.relabelledUSD clients)
     = Spec.totalLength (map cl_transactionsUSD clients).
Proof.
  unfold Spec.relabelledKES, Spec.relabelledUSD, Spec.totalLength.
  induction clients as [|cl clients [IHk IHu]]; [split; reflexivity|].
  cbn [flat_map map fold_right]; rewrite !length_app, !length_map, IHk, IHu.
  split; reflexivity.
Qed.

Section SortedFacts.
Context {A : Type}.
Variable cmp : A -> A -> Z.
Variable R : A -> A -> Prop.
Hypothesis R_trans : forall x y z, R x y -> R y z -> R x z.
Hypothesis cmp_first : forall x y, cmp x y <= 0 -> R x y.
Hypothesis cmp_second : forall x y, cmp x y > 0 -> R y x.

Lemma insert_sorted (x : A) (l : list A) :
  StronglySorted R l -> StronglySorted R (Js.insert cmp x l).
Proof.
  induction 1 as [|y l Hs IH Hall]; simpl.
  - constructor; [constructor | constructor].
  - destruct (Z.leb_spec (cmp x y) 0) as [Hle | Hgt].
    + constructor.
      * constructor; assumption.
      * constructor; [now apply cmp_first|].
        eapply Forall_impl; [|exact Hall].
        intros z Hz; eapply R_trans; [apply cmp_first; exact Hle | exact Hz].
    + constructor; [exact IH|].
      apply Forall_forall; intros z Hz.
      apply (Permutation_in _ (insert_perm cmp x l)) in Hz.
      destruct Hz as [<- | Hz].
      * apply cmp_second; lia.
      * rewrite Forall_forall in Hall; now apply Hall.
Qed.

Lemma sort_sorted (l : list A) : StronglySorted R (Js.sort cmp l).
Proof.
  induction l as [|x l IH]; simpl.
  - constructor.
  - now apply insert_sorted.
Qed.

End SortedFacts.

Lemma sortByDate_sorted (getTime : string -> Z) (l : list Transaction) :
  StronglySorted (Spec.notAfter getTime) (PdfGenerator.sortByDate getTime l).
Proof.
  apply sort_sorted; unfold Spec.notAfter, PdfGenerator.byDate; intros; lia.
Qed.

(** What the combiner returns for a non-empty client list. *)
Lemma combinedOptions_returns (getTime : string -> Z)
      (clients : list ClientLedgers) :
  clients <> [] ->
  PdfGenerator.combinedOptions getTime clients
  = Returned
      {| client := PdfGenerator.combinedClient clients;
         transactionsKES :=
           PdfGenerator.sortByDate getTime (Spec.relabelledKES clients);
         transactionsUSD :=
           PdfGenerator.sortByDate getTime (Spec.relabelledUSD clients);
         summaryKES :=
           PdfGenerator.calculateSummary
             (PdfGenerator.sortByDate getTime (Spec.relabelledKES clients));
         summaryUSD :=
           PdfGenerator.calculateSummary
             (PdfGenerator.sortByDate getTime (Spec.relabelledUSD clients));
         reportType := Full |}.
Proof.
  intros Hne; destruct clients as [|cl0 rest]; [contradiction|].
  unfold PdfGenerator.combinedOptions.
  now rewrite collect_relabelled.
Qed.

(** C6. For every non-empty client list the combiner returns merged
    lists that hold, up to the order the date sort gives them, exactly the
    transactions of every client with the description rewritten to
    [{client name} - {original description}], or to the client name alone
    when the original description is empty, every other field kept; the
    merged lists are in ascending date order.  For Client A (KES credit
    500, description [rent]) and Client B (KES debit 200, no description)
    the merged descriptions are [A - rent] and [B] and the combined KES
    Summary has balance 300. *)
Theorem C6_merged_descriptions_carry_client_name :
  forall (getTime : string -> Z) (clients : list ClientLedgers),
    clients <> [] ->
    exists options : ReportOptions,
      PdfGenerator.combinedOptions getTime clients = Returned options
      /\ Permutation (transactionsKES options) (Spec.relabelledKES clients)
      /\ Permutation (transactionsUSD options) (Spec.relabelledUSD clients)
      /\ StronglySorted (Spec.notAfter getTime) (transactionsKES options)
      /\ StronglySorted (Spec.notAfter getTime) (transactionsUSD options)
      /\ (forall dateA dateB : string,
             clients = [Sample.clientA dateA; Sample.clientB dateB] ->
             Permutation (transactionsKES options)
               [ Sample.tx "a1" dateA "A - rent" None (Some 500);
                 Sample.tx "b1" dateB "B" (Some 200) None ]
             /\ balance (summaryKES options) = 300).
Proof.
  intros getTime clients Hne.
  eexists; split; [now apply combinedOptions_returns|].
  cbn [transactionsKES transactionsUSD summaryKES].
  assert (Hk : Permutation
                 (PdfGenerator.sortByDate getTime (Spec.relabelledKES clients))
                 (Spec.relabelledKES clients)) by apply sort_perm.
  split; [exact Hk|].
  split; [apply sort_perm|].
  split; [apply sortByDate_sorted|].
  split; [apply sortByDate_sorted|].
  intros dateA dateB Heq; split.
  - subst clients; exact Hk.
  - rewrite pdf_summary_fields; cbn [balance].
    rewrite (sumCredits_perm _ _ Hk), (sumDebits_perm _ _ Hk).
    subst clients; reflexivity.
Qed.

(** C6 at the scenario, Client A's entry dated after Client B's: the
    date sort puts [B] first. *)
Lemma C6_merged_descriptions_witness :
  let clients := [Sample.clientA "2024-01-10"; Sample.clientB "2024-01-05"] in
  clients <> []
  /\ exists options : ReportOptions,
      PdfGenerator.combinedOptions Sample.dateOrdinal clients
      = Returned options
      /\ map description (transactionsKES options) = ["B"; "A - rent"]
      /\ Permutation (transactionsKES options)
           [ Sample.tx "a1" "2024-01-10" "A - rent" None (Some 500);
             Sample.tx "b1" "2024-01-05" "B" (Some 200) None ]
      /\ balance (summaryKES options) = 300.
Proof.
  intros clients.
  assert (Hne : clients <> []) by discriminate.
  split; [exact Hne|].
  destruct (C6_merged_descriptions_carry_client_name
              Sample.dateOrdinal clients Hne)
    as (options & Heq & _ & _ & _ & _ & Hscenario).
  destruct (Hscenario "2024-01-10" "2024-01-05" eq_refl) as [Hperm Hbal].
  exists options.
  split; [exact Heq|].
  split; [|split; [exact Hperm | exact Hbal]].
  injection Heq as <-; reflexivity.
Defined.

Lemma displayName_cases (names : list string) :
  PdfGenerator.displayName names = Spec.displayName names.
Proof.
  unfold PdfGenerator.displayName, Spec.displayName.
  destruct names as [|a [|b [|c remaining]]]; try reflexivity.
  change (List.length (a :: b :: c :: remaining) <=? 2)%nat with false.
  cbv iota.
  change (Js.join " & " (Js.slice 0 2 (a :: b :: c :: remaining)))
    with (a ++ " & " ++ b).
  replace (Z.of_nat (List.length (a :: b :: c :: remaining)) - 2)
    with (Z.of_nat (List.length (c :: remaining)))
    by (cbn [List.length]; lia).
  now rewrite !string_app_assoc.
Qed.

(** C7, as stated, fails on the suffix.  For clients A, B and C the
    display name is [A & B + 1 more]: it does not end with [+1 more], the
    suffix [+N more] for one remaining client, and it is not
    [A & B +1 more]. *)
Lemma C7_suffix_counterexample :
  exists options : ReportOptions,
    PdfGenerator.combinedOptions
      Sample.dateOrdinal
      [Sample.clientA "2024-01-05"; Sample.clientB "2024-01-10";
       Sample.clientC]
    = Returned options
    /\ client_name (client options) = "A & B + 1 more"
    /\ Spec.endsWith "+1 more" (client_name (client options)) = false
    /\ client_name (client options) <> "A & B +1 more".
Proof.
  eexists; split; [reflexivity|].
  split; [reflexivity|].
  split; [reflexivity | discriminate].
Qed.

(** C7, amended.  For every non-empty client list the combined statement
    is issued to a synthetic client whose display name is the single
    name, or the two names joined with [ & ], or, from three clients on,
    the first two names joined with [ & ] followed by [ + N more] (a
    space on either side of the plus sign), N being the number of
    remaining clients; its display code is all client codes joined with
    [ + ]. *)
Theorem C7_display_name_and_code :
  forall (getTime : string -> Z) (clients : list ClientLedgers),
    clients <> [] ->
    let names := map (fun cl => client_name (cl_client cl)) clients in
    let codes := map (fun cl => client_code (cl_client cl)) clients in
    exists options : ReportOptions,
      PdfGenerator.combinedOptions getTime clients = Returned options
      /\ client_name (client options) = Spec.displayName names
      /\ ((List.length clients <= 2)%nat ->
          client_name (client options) = Js.join " & " names)
      /\ ((List.length clients > 2)%nat ->
          client_name (client options)
          = Js.join " & " (firstn 2 names) ++ " + "
            ++ Js.toString (Z.of_nat (List.length clients - 2)) ++ " more")
      /\ client_code (client options) = Js.join " + " codes.
Proof.
  intros getTime clients Hne names codes.
  eexists; split; [now apply combinedOptions_returns|].
  cbn [client PdfGenerator.combinedClient client_name client_code].
  fold names; fold codes.
  assert (Hlen : List.length names = List.length clients)
    by apply length_map.
  repeat split.
  - apply displayName_cases.
  - intros Hle; unfold PdfGenerator.displayName.
    rewrite Hlen.
    apply Nat.leb_le in Hle; now rewrite Hle.
  - intros Hgt; unfold PdfGenerator.displayName.
    rewrite Hlen.
    replace (Z.of_nat (List.length clients) - 2)
      with (Z.of_nat (List.length clients - 2)) by lia.
    apply Nat.leb_gt in Hgt; rewrite Hgt.
    reflexivity.
Qed.

(** C7 at clients A, B and C of the samples. *)
Lemma C7_display_name_witness :
  let clients :=
    [Sample.clientA "2024-01-05"; Sample.clientB "2024-01-10"; Sample.clientC]
  in
  clients <> []
  /\ (List.length clients > 2)%nat
  /\ exists options : ReportOptions,
      PdfGenerator.combinedOptions Sample.dateOrdinal clients
      = Returned options
      /\ client_name (client options) = "A & B + 1 more"
      /\ client_code (client options) = "CA + CB + CC".
Proof.
  intros clients.
  assert (Hne : clients <> []) by discriminate.
  assert (Hgt : (List.length clients > 2)%nat) by (simpl; lia).
  split; [exact Hne|].
  split; [exact Hgt|].
  destruct (C7_display_name_and_code Sample.dateOrdinal clients Hne)
    as (options & Heq & _ & _ & Hname & Hcode).
  exists options.
  split; [exact Heq|].
  split; [exact (Hname Hgt) | exact Hcode].
Defined.

(* ===================================================================== *)
(** ** Section inclusion *)
(* ===================================================================== *)

Lemma labels_distinct :
  PdfGenerator.kesLabel <> PdfGenerator.usdLabel
  /\ PdfGenerator.kesLabel <> PdfGenerator.noTransactionsNotice
  /\ PdfGenerator.usdLabel <> PdfGenerator.noTransactionsNotice.
Proof. repeat split; discriminate. Qed.

Lemma nonEmpty_spec {A : Type} (l : list A) :
  PdfGenerator.nonEmpty l = true <-> l <> [].
Proof.
  destruct l; simpl; split; intros H; try discriminate; try reflexivity.
  contradiction.
Qed.

Lemma selectsKES_spec (rt : ReportType) :
  PdfGenerator.selectsKES rt = true
  <-> rt = Full \/ rt = KesOnly \/ rt = SummaryOnly.
Proof.
  destruct rt; simpl; split; intros H; auto;
    try discriminate; destruct H as [H | [H | H]]; discriminate.
Qed.

Lemma selectsUSD_spec (rt : ReportType) :
  PdfGenerator.selectsUSD rt = true <-> rt = Full \/ rt = UsdOnly.
Proof.
  destruct rt; simpl; split; intros H; auto;
    try discriminate; destruct H as [H | H]; discriminate.
Qed.

Section Inclusion.
Variable getTime : string -> Z.
Variable toLocaleDateString : string -> string.
Variable formatCurrency : Z -> Currency -> string.

Local Abbreviation sections options :=
  (PdfGenerator.renderSections getTime toLocaleDateString formatCurrency
                               options).

Ltac label_cases :=
  repeat match goal with
         | H : In _ (_ :: _) |- _ => destruct H as [H | H]
         | H : In _ [] |- _ => destruct H
         | H : DocText _ = DocText _ |- _ => injection H as H
         | H : DocTable _ _ _ = DocText _ |- _ => discriminate H
         | H : _ = _ :> string |- _ => discriminate H
         end.

Lemma kes_section_drawn (options : ReportOptions) :
  In (DocText PdfGenerator.kesLabel) (sections options)
  <-> PdfGenerator.showKES options = true.
Proof.
  unfold PdfGenerator.renderSections, PdfGenerator.renderSection.
  destruct (PdfGenerator.showKES options), (PdfGenerator.showUSD options);
    cbn [negb andb app]; split; intros H;
    try reflexivity; try (now left); label_cases.
Qed.

Lemma usd_section_drawn (options : ReportOptions) :
  In (DocText PdfGenerator.usdLabel) (sections options)
  <-> PdfGenerator.showUSD options = true.
Proof.
  unfold PdfGenerator.renderSections, PdfGenerator.renderSection.
  destruct (PdfGenerator.showKES options), (PdfGenerator.showUSD options);
    cbn [negb andb app]; split; intros H;
    try reflexivity; try (now left); try (now right; right; left);
    label_cases.
Qed.

Lemma notice_drawn (options : ReportOptions) :
  In (DocText PdfGenerator.noTransactionsNotice) (sections options)
  <-> PdfGenerator.showKES options = false
      /\ PdfGenerator.showUSD options = false.
Proof.
  unfold PdfGenerator.renderSections, PdfGenerator.renderSection.
  destruct (PdfGenerator.showKES options), (PdfGenerator.showUSD options);
    cbn [negb andb app]; split; intros H;
    try (now split); try (now left); try (destruct H; discriminate);
    label_cases.
Qed.

Lemma sections_without_ledger (options : ReportOptions) :
  PdfGenerator.showKES options = false ->
  PdfGenerator.showUSD options = false ->
  sections options = [DocText PdfGenerator.noTransactionsNotice].
Proof.
  unfold PdfGenerator.renderSections; intros -> ->; reflexivity.
Qed.

Lemma tables_drawn (options : ReportOptions) :
  List.length (Spec.tables (sections options))
  = ((if PdfGenerator.showKES options then 1 else 0)
     + (if PdfGenerator.showUSD options then 1 else 0))%nat.
Proof.
  unfold PdfGenerator.renderSections, PdfGenerator.renderSection.
  destruct (PdfGenerator.showKES options), (PdfGenerator.showUSD options);
    reflexivity.
Qed.

Lemma showKES_spec (options : ReportOptions) :
  PdfGenerator.showKES options = true
  <-> (reportType options = Full \/ reportType options = KesOnly
       \/ reportType options = SummaryOnly)
      /\ transactionsKES options <> [].
Proof.
  unfold PdfGenerator.showKES.
  now rewrite andb_true_iff, selectsKES_spec, nonEmpty_spec.
Qed.

Lemma showUSD_spec (options : ReportOptions) :
  PdfGenerator.showUSD options = true
  <-> (reportType options = Full \/ reportType options = UsdOnly)
      /\ transactionsUSD options <> [].
Proof.
  unfold PdfGenerator.showUSD.
  now rewrite andb_true_iff, selectsUSD_spec, nonEmpty_spec.
Qed.

End Inclusion.

(** C4. In the sections of a statement the KES section is drawn if and
    only if the report type is full, kes-only or summary and the KES list
    is non-empty; the USD section if and only if the report type is full
    or usd-only and the USD list is non-empty; the "no transactions"
    notice if and only if neither section is drawn, and then it is the
    only thing drawn: once, and no table.  One table is drawn per section.
    This holds for every report type and every pair of lists. *)
Theorem C4_section_inclusion :
  forall (getTime : string -> Z) (toLocaleDateString : string -> string)
         (formatCurrency : Z -> Currency -> string)
         (options : ReportOptions),
    let items :=
      PdfGenerator.renderSections getTime toLocaleDateString formatCurrency
                                  options in
    let kesDrawn := In (DocText PdfGenerator.kesLabel) items in
    let usdDrawn := In (DocText PdfGenerator.usdLabel) items in
    let noticeDrawn := In (DocText PdfGenerator.noTransactionsNotice) items in
    (kesDrawn
     <-> (reportType options = Full \/ reportType options = KesOnly
          \/ reportType options = SummaryOnly)
         /\ transactionsKES options <> [])
    /\ (usdDrawn
        <-> (reportType options = Full \/ reportType options = UsdOnly)
            /\ transactionsUSD options <> [])
    /\ (noticeDrawn <-> ~ kesDrawn /\ ~ usdDrawn)
    /\ (noticeDrawn ->
        items = [DocText PdfGenerator.noTransactionsNotice])
    /\ (kesDrawn \/ usdDrawn -> Spec.tables items <> [])
    /\ (~ kesDrawn /\ ~ usdDrawn -> Spec.tables items = []).
Proof.
  intros getTime toLoc fc options items kesDrawn usdDrawn noticeDrawn.
  pose proof (kes_section_drawn getTime toLoc fc options) as Hk.
  pose proof (usd_section_drawn getTime toLoc fc options) as Hu.
  pose proof (notice_drawn getTime toLoc fc options) as Hn.
  pose proof (tables_drawn getTime toLoc fc options) as Ht.
  pose proof (sections_without_ledger getTime toLoc fc options) as Hnone.
  fold items in Hk, Hu, Hn, Ht, Hnone.
  fold kesDrawn in Hk; fold usdDrawn in Hu; fold noticeDrawn in Hn.
  split; [now rewrite Hk; apply showKES_spec|].
  split; [now rewrite Hu; apply showUSD_spec|].
  assert (Hempty : List.length (Spec.tables items) = 0%nat ->
                   Spec.tables items = [])
    by (destruct (Spec.tables items); [reflexivity | discriminate]).
  destruct (PdfGenerator.showKES options), (PdfGenerator.showUSD options);
    cbn [Nat.add] in Ht.
  - (* both sections *)
    split; [split|split; [|split]].
    + intros H; apply Hn in H; destruct H; discriminate.
    + intros [H _]; exfalso; apply H, Hk; reflexivity.
    + intros H; apply Hn in H; destruct H; discriminate.
    + intros _ E; rewrite E in Ht; discriminate Ht.
    + intros [H _]; exfalso; apply H, Hk; reflexivity.
  - (* KES only *)
    split; [split|split; [|split]].
    + intros H; apply Hn in H; destruct H; discriminate.
    + intros [H _]; exfalso; apply H, Hk; reflexivity.
    + intros H; apply Hn in H; destruct H; discriminate.
    + intros _ E; rewrite E in Ht; discriminate Ht.
    + intros [H _]; exfalso; apply H, Hk; reflexivity.
  - (* USD only *)
    split; [split|split; [|split]].
    + intros H; apply Hn in H; destruct H; discriminate.
    + intros [_ H]; exfalso; apply H, Hu; reflexivity.
    + intros H; apply Hn in H; destruct H; discriminate.
    + intros _ E; rewrite E in Ht; discriminate Ht.
    + intros [_ H]; exfalso; apply H, Hu; reflexivity.
  - (* neither *)
    split; [split|split; [|split]].
    + intros _; split; intros H; [apply Hk in H | apply Hu in H];
        discriminate.
    + intros _; apply Hn; split; reflexivity.
    + intros _; apply Hnone; reflexivity.
    + intros [H | H]; [apply Hk in H | apply Hu in H]; discriminate.
    + intros _; apply Hempty, Ht.
Qed.

(** C4 at a summary report over two non-empty ledgers: the KES section
    is drawn, the USD section and the notice are not. *)
Lemma C4_section_inclusion_witness :
  let options :=
    {| client := Sample.person "A" "CA";
       transactionsKES := Sample.twoEntries;
       transactionsUSD := Sample.mileage;
       summaryKES := PdfGenerator.calculateSummary Sample.twoEntries;
       summaryUSD := PdfGenerator.calculateSummary Sample.mileage;
       reportType := SummaryOnly |} in
  let items :=
    PdfGenerator.renderSections Sample.dateOrdinal Sample.showDate
                                Sample.showCurrency options in
  In (DocText PdfGenerator.kesLabel) items
  /\ ~ In (DocText PdfGenerator.usdLabel) items
  /\ ~ In (DocText PdfGenerator.noTransactionsNotice) items
  /\ Spec.tables items <> [].
Proof.
  intros options items.
  destruct (C4_section_inclusion Sample.dateOrdinal Sample.showDate
                                 Sample.showCurrency options)
    as (Hk & Hu & Hn & _ & Ht & _).
  assert (Hkes : In (DocText PdfGenerator.kesLabel) items).
  { apply Hk; split; [right; right; reflexivity | discriminate]. }
  split; [exact Hkes|].
  split; [|split].
  - intros H; apply Hu in H; destruct H as [[H | H] _]; discriminate.
  - intros H; apply Hn in H; destruct H as [H _]; exact (H Hkes).
  - apply Ht; left; exact Hkes.
Defined.

(* ===================================================================== *)
(** ** The mileage count *)
(* ===================================================================== *)

Ltac each_ascii c :=
  destruct c as [[] [] [] [] [] [] [] []]; reflexivity.

Lemma charMatches_m (c : ascii) : RegExp.charMatches true "m" c = Spec.isMb c.
Proof. each_ascii c. Qed.

Lemma charMatches_g (c : ascii) : RegExp.charMatches true "g" c = Spec.isGb c.
Proof. each_ascii c. Qed.

Lemma isMb_word (c : ascii) : Spec.isMb c = true -> RegExp.isWordChar c = true.
Proof.
  unfold Spec.isMb; rewrite orb_true_iff, !Ascii.eqb_eq; intros [-> | ->];
    reflexivity.
Qed.

Lemma isGb_word (c : ascii) : Spec.isGb c = true -> RegExp.isWordChar c = true.
Proof.
  unfold Spec.isGb; rewrite orb_true_iff, !Ascii.eqb_eq; intros [-> | ->];
    reflexivity.
Qed.

Lemma isMb_spec (c : ascii) : Spec.isMb c = true <-> Spec.isM c.
Proof. unfold Spec.isMb, Spec.isM; now rewrite orb_true_iff, !Ascii.eqb_eq. Qed.

Lemma isGb_spec (c : ascii) : Spec.isGb c = true <-> Spec.isG c.
Proof. unfold Spec.isGb, Spec.isG; now rewrite orb_true_iff, !Ascii.eqb_eq. Qed.

Lemma inRange_spec (lo hi c : ascii) :
  RegExp.inRange lo hi c = true <-> Spec.between lo hi c.
Proof.
  unfold RegExp.inRange, Spec.between.
  now rewrite andb_true_iff, !Nat.leb_le.
Qed.

Lemma isWordChar_spec (c : ascii) :
  RegExp.isWordChar c = true <-> Spec.inWord c.
Proof.
  unfold RegExp.isWordChar, Spec.inWord.
  rewrite !orb_true_iff, !inRange_spec, Ascii.eqb_eq; tauto.
Qed.

Lemma endsWord_spec (c : option ascii) :
  Spec.endsWord c <-> RegExp.isWordAt c = false.
Proof.
  destruct c as [x|]; cbn [Spec.endsWord RegExp.isWordAt].
  - rewrite <- isWordChar_spec.
    destruct (RegExp.isWordChar x); split; intros H.
    + exfalso; now apply H.
    + discriminate H.
    + reflexivity.
    + intros E; discriminate E.
  - split; auto.
Qed.

Lemma lastFrom_cons (prev : option ascii) (c : ascii) (before : list ascii) :
  Spec.lastFrom prev (c :: before) = Spec.lastFrom (Some c) before.
Proof. destruct before; reflexivity. Qed.

(** A match of [/\bmg\b/i] that starts right here. *)
Lemma matchHere_mg (prev : option ascii) (rest : list ascii) :
  RegExp.matchHere true RegExp.mgPattern prev rest = true
  <-> exists c1 c2 after,
      rest = c1 :: c2 :: after
      /\ Spec.isM c1 /\ Spec.isG c2
      /\ Spec.endsWord prev /\ Spec.endsWord (hd_error after).
Proof.
  unfold RegExp.mgPattern; cbn [RegExp.matchHere].
  split.
  - intros H.
    destruct rest as [|c1 [|c2 after]];
      try (rewrite ?andb_false_r in H; discriminate H).
    cbn [hd_error] in H.
    rewrite charMatches_m, charMatches_g in H.
    repeat (apply andb_true_iff in H; destruct H as [? H]).
    repeat match goal with
           | X : _ && _ = true |- _ =>
               apply andb_true_iff in X; destruct X
           end.
    match goal with X : Spec.isMb c1 = true |- _ => pose proof (isMb_word _ X) end.
    match goal with X : Spec.isGb c2 = true |- _ => pose proof (isGb_word _ X) end.
    exists c1, c2, after.
    repeat split; try (apply isMb_spec; assumption);
      try (apply isGb_spec; assumption); apply endsWord_spec.
    + cbn [RegExp.isWordAt] in *.
      destruct (RegExp.isWordAt prev); [|reflexivity].
      match goal with X : xorb true (RegExp.isWordChar c1) = true |- _ =>
        rewrite (isMb_word c1) in X by assumption; discriminate X end.
    + cbn [RegExp.isWordAt] in *.
      destruct (RegExp.isWordAt (hd_error after)); [|reflexivity].
      match goal with X : xorb (RegExp.isWordChar c2) true = true |- _ =>
        rewrite (isGb_word c2) in X by assumption; discriminate X end.
  - intros (c1 & c2 & after & -> & Hm & Hg & Hp & Ha).
    apply isMb_spec in Hm; apply isGb_spec in Hg.
    apply endsWord_spec in Hp; apply endsWord_spec in Ha.
    cbn [hd_error RegExp.isWordAt].
    rewrite charMatches_m, charMatches_g, Hm, Hg, Hp, Ha.
    rewrite (isMb_word _ Hm), (isGb_word _ Hg); reflexivity.
Qed.

(** A match that starts here or further on. *)
Lemma searchFrom_mg (rest : list ascii) (prev : option ascii) :
  RegExp.searchFrom true RegExp.mgPattern prev rest = true
  <-> exists before c1 c2 after,
      rest = (before ++ c1 :: c2 :: after)%list
      /\ Spec.isM c1 /\ Spec.isG c2
      /\ Spec.endsWord (Spec.lastFrom prev before)
      /\ Spec.endsWord (hd_error after).
Proof.
  revert prev; induction rest as [|c rest IH]; intros prev.
  - cbn [RegExp.searchFrom]; rewrite orb_false_r, matchHere_mg.
    split.
    + intros (c1 & c2 & after & E & _); discriminate E.
    + intros (before & c1 & c2 & after & E & _).
      destruct before; discriminate E.
  - cbn [RegExp.searchFrom]; rewrite orb_true_iff, matchHere_mg, IH.
    split.
    + intros [(c1 & c2 & after & E & Hm & Hg & Hp & Ha)
             | (before & c1 & c2 & after & E & Hm & Hg & Hp & Ha)].
      * exists [], c1, c2, after; auto.
      * exists (c :: before), c1, c2, after.
        rewrite lastFrom_cons, E; auto.
    + intros (before & c1 & c2 & after & E & Hm & Hg & Hp & Ha).
      destruct before as [|b before].
      * left; exists c1, c2, after; auto.
      * right; injection E as -> ->.
        exists before, c1, c2, after.
        rewrite lastFrom_cons in Hp; auto.
Qed.

(** The regular expression decides the presence of the standalone word. *)
Lemma testMg_spec (s : string) :
  RegExp.testMg s = true <-> Spec.containsWordMg s.
Proof.
  unfold RegExp.testMg, RegExp.test, Spec.containsWordMg.
  rewrite searchFrom_mg.
  split; intros (before & c1 & c2 & after & E & Hm & Hg & Hp & Ha);
    exists before, c1, c2, after; repeat split; auto;
    destruct before; exact Hp.
Qed.

Lemma orEmpty_id (s : string) : Js.orEmpty s = s.
Proof. destruct s; reflexivity. Qed.

Lemma filter_counted (txns : list Transaction) :
  Spec.mgCounted txns
    (List.length (filter (fun t => RegExp.testMg (description t)) txns)).
Proof.
  induction txns as [|t txns IH]; cbn [filter].
  - constructor.
  - destruct (RegExp.testMg (description t)) eqn:E.
    + cbn [List.length]; constructor; [now apply testMg_spec | exact IH].
    + apply Spec.mgCounted_miss; [|exact IH].
      intros H; apply testMg_spec in H; congruence.
Qed.

Lemma mgCount_same (txns : list Transaction) :
  PdfGenerator.mgCount txns = ClientDetail.mgCount txns.
Proof.
  unfold PdfGenerator.mgCount, ClientDetail.mgCount.
  f_equal; apply filter_ext; intros t; now rewrite orEmpty_id.
Qed.

(** The count is a function of the list. *)
Lemma mgCounted_unique (txns : list Transaction) (n m : nat) :
  Spec.mgCounted txns n -> Spec.mgCounted txns m -> n = m.
Proof.
  intros Hn; revert m; induction Hn; intros m Hm; inversion Hm; subst;
    try reflexivity; try contradiction; auto.
Qed.

(** C5. The mileage count of the statement footer, like the one of the
    detail view, is the number of transactions whose description holds
    the standalone word [mg] in either case: two letters m and g, each
    upper or lower case, with no letter, digit or underscore next to
    them.  A list whose descriptions are [MG run], [mileage] and [3mg]
    counts exactly 1. *)
Theorem C5_mileage_count :
  forall txns : list Transaction,
    Spec.mgCounted txns (PdfGenerator.mgCount txns)
    /\ Spec.mgCounted txns (ClientDetail.mgCount txns)
    /\ (forall n, Spec.mgCounted txns n -> n = PdfGenerator.mgCount txns)
    /\ (map description txns = ["MG run"; "mileage"; "3mg"] ->
        PdfGenerator.mgCount txns = 1%nat
        /\ ClientDetail.mgCount txns = 1%nat).
Proof.
  intros txns.
  assert (Hd : Spec.mgCounted txns (ClientDetail.mgCount txns))
    by apply filter_counted.
  assert (Hp : Spec.mgCounted txns (PdfGenerator.mgCount txns))
    by (rewrite mgCount_same; exact Hd).
  split; [exact Hp|].
  split; [exact Hd|].
  split; [intros n Hn; exact (mgCounted_unique _ _ _ Hn Hp)|].
  intros Hdesc.
  rewrite mgCount_same; unfold ClientDetail.mgCount.
  destruct txns as [|t1 [|t2 [|t3 [|t4 rest]]]]; try discriminate Hdesc.
  injection Hdesc as H1 H2 H3.
  cbn [filter]; rewrite H1, H2, H3.
  split; reflexivity.
Qed.

(** C5 at the three descriptions of scenario 8. *)
Lemma C5_mileage_count_witness :
  map description Sample.mileage = ["MG run"; "mileage"; "3mg"]
  /\ PdfGenerator.mgCount Sample.mileage = 1%nat
  /\ ClientDetail.mgCount Sample.mileage = 1%nat.
Proof.
  split; [reflexivity|].
  exact (proj2 (proj2 (proj2 (C5_mileage_count Sample.mileage))) eq_refl).
Defined.

(* ===================================================================== *)
(** ** The CSV export *)
(* ===================================================================== *)

Lemma concat_lines {A : Type} (f : A -> string) (l : list A) (csv : string) :
  fold_left (fun csv x => csv ++ f x) l csv
  = csv ++ String.concat EmptyString (map f l).
Proof.
  revert csv; induction l as [|x l IH]; intros csv.
  - simpl; now rewrite string_app_empty_r.
  - cbn [fold_left map]; rewrite IH, string_app_assoc.
    f_equal.
    destruct l as [|y l]; [simpl; now rewrite string_app_empty_r|].
    reflexivity.
Qed.

(** The export, block by block. *)
Lemma exportToExcel_blocks (now : string) (stats : Reports.ClientStats)
      (topClients : list Reports.TopClient)
      (monthlyTrends : list Reports.MonthlyTrend) :
  Reports.exportToExcel now stats topClients monthlyTrends
  = Spec.csvHead now
    ++ Spec.summaryBlock
         (Reports.totalClients stats) (Reports.activeClients stats)
         (Reports.inactiveClients stats) (Reports.totalTransactions stats)
         (Reports.totalBalanceKES stats) (Reports.totalBalanceUSD stats)
    ++ Spec.topClientsBlock topClients
    ++ Spec.monthlyTrendsBlock monthlyTrends.
Proof.
  unfold Reports.exportToExcel, Spec.csvHead, Spec.summaryBlock,
    Spec.topClientsBlock, Spec.monthlyTrendsBlock.
  cbv zeta; cbn [Spec.unlines].
  destruct topClients as [|c cs], monthlyTrends as [|m ms];
    rewrite ?concat_lines;
    rewrite ?string_app_assoc, ?string_app_empty_r;
    reflexivity.
Qed.

(** C8. When the statistics computed from the loaded rows count 5
    clients, 3 of them active, 12 transactions, and balances of 10000 KES
    and 250 USD, the inactive count is 5 - 3 = 2 and the exported CSV is
    its two head lines and a blank line, then the SUMMARY STATISTICS block
    with exactly the lines [Total Clients,5], [Active Clients,3],
    [Inactive Clients,2], [Total Transactions,12],
    [Total Balance (KES),10000], [Total Balance (USD),250] in that order
    and a blank line, then the blocks of the top clients and the monthly
    trends; the numbers are in plain decimal text. *)
Theorem C8_csv_summary_statistics_block :
  forall (clientRows : list Reports.ClientRow)
         (kesTransactions usdTransactions : list Reports.ReportTransaction)
         (now : string) (topClients : list Reports.TopClient)
         (monthlyTrends : list Reports.MonthlyTrend),
    let clientStats :=
      Reports.computeClientStats clientRows kesTransactions usdTransactions
    in
    Reports.totalClients clientStats = 5 ->
    Reports.activeClients clientStats = 3 ->
    Reports.totalTransactions clientStats = 12 ->
    Reports.totalBalanceKES clientStats = 10000 ->
    Reports.totalBalanceUSD clientStats = 250 ->
    Reports.inactiveClients clientStats = 2
    /\ Reports.exportToExcel now clientStats topClients monthlyTrends
       = Spec.unlines
           [ "Dinix - Financial Report"; "Generated: " ++ now; EmptyString ]
         ++ Spec.unlines
              [ "SUMMARY STATISTICS";
                "Total Clients,5";
                "Active Clients,3";
                "Inactive Clients,2";
                "Total Transactions,12";
                "Total Balance (KES),10000";
                "Total Balance (USD),250";
                EmptyString ]
         ++ Spec.topClientsBlock topClients
         ++ Spec.monthlyTrendsBlock monthlyTrends.
Proof.
  intros clientRows kes usd now topClients monthlyTrends clientStats
         Htotal Hactive Htx Hkes Husd.
  assert (Hinactive : Reports.inactiveClients clientStats = 2).
  { change (Reports.inactiveClients clientStats)
      with (Reports.totalClients clientStats
            - Reports.activeClients clientStats).
    rewrite Htotal, Hactive; reflexivity. }
  split; [exact Hinactive|].
  rewrite exportToExcel_blocks.
  rewrite Htotal, Hactive, Hinactive, Htx, Hkes, Husd.
  reflexivity.
Qed.

(** C8 at the sample rows: five clients, three active, eight KES rows
    netting 10000 and four USD rows netting 250; no top client, no month. *)
Lemma C8_csv_summary_witness :
  let clientStats :=
    Reports.computeClientStats Sample.clientRows Sample.kesRows
                               Sample.usdRows in
  Reports.totalClients clientStats = 5
  /\ Reports.activeClients clientStats = 3
  /\ Reports.totalTransactions clientStats = 12
  /\ Reports.totalBalanceKES clientStats = 10000
  /\ Reports.totalBalanceUSD clientStats = 250
  /\ Reports.inactiveClients clientStats = 2
  /\ Reports.exportToExcel "03/11/2026, 09:00:00" clientStats [] []
     = Spec.unlines
         [ "Dinix - Financial Report";
           "Generated: 03/11/2026, 09:00:00";
           EmptyString;
           "SUMMARY STATISTICS";
           "Total Clients,5";
           "Active Clients,3";
           "Inactive Clients,2";
           "Total Transactions,12";
           "Total Balance (KES),10000";
           "Total Balance (USD),250";
           EmptyString ].
Proof.
  intros clientStats.
  pose proof (C8_csv_summary_statistics_block
                Sample.clientRows Sample.kesRows Sample.usdRows
                "03/11/2026, 09:00:00" [] []
                eq_refl eq_refl eq_refl eq_refl eq_refl) as [Hin Hcsv].
  do 5 (split; [reflexivity|]).
  split; [exact Hin|].
  etransitivity; [exact Hcsv|].
  reflexivity.
Defined.

(* ===================================================================== *)
(** ** The client rollup and the ranking *)
(* ===================================================================== *)

Lemma get_modify (k k' : string) (f : Reports.TopClient -> Reports.TopClient)
      (m : Reports.ClientMap) :
  Reports.get k (Reports.modify k' f m)
  = if String.eqb k' k then option_map f (Reports.get k m)
    else Reports.get k m.
Proof.
  induction m as [|[k0 v] m IH]; cbn [Reports.modify Reports.get].
  - destruct (String.eqb k' k); reflexivity.
  - destruct (String.eqb_spec k0 k') as [-> | Hne]; cbn [Reports.get].
    + destruct (String.eqb k' k); reflexivity.
    + rewrite IH.
      destruct (String.eqb_spec k0 k) as [-> | Hne'];
        destruct (String.eqb_spec k' k) as [-> | Hne'']; try reflexivity.
      contradiction.
Qed.

Lemma get_setNew (k k' : string) (v : Reports.TopClient)
      (m : Reports.ClientMap) :
  Reports.get k (Reports.setNew k' v m)
  = match Reports.get k m with
    | Some x => Some x
    | None => if String.eqb k' k then Some v else None
    end.
Proof.
  unfold Reports.setNew.
  induction m as [|[k0 v0] m IH]; cbn [app Reports.get].
  - reflexivity.
  - destruct (String.eqb k0 k); [reflexivity | exact IH].
Qed.

Lemma has_get (k : string) (m : Reports.ClientMap) :
  Reports.has k m
  = match Reports.get k m with Some _ => true | None => false end.
Proof.
  unfold Reports.has.
  induction m as [|[k0 v0] m IH]; cbn [existsb Reports.get fst].
  - reflexivity.
  - destruct (String.eqb k0 k); [reflexivity | exact IH].
Qed.

Lemma get_None_keys (k : string) (m : Reports.ClientMap) :
  Reports.get k m = None -> ~ In k (map fst m).
Proof.
  induction m as [|[k0 v0] m IH]; cbn [Reports.get map fst].
  - intros _ [].
  - destruct (String.eqb_spec k0 k) as [-> | Hne]; [discriminate|].
    intros H [E | Hin]; [contradiction | now apply IH].
Qed.

Lemma get_In (k : string) (v : Reports.TopClient) (m : Reports.ClientMap) :
  NoDup (map fst m) -> In (k, v) m -> Reports.get k m = Some v.
Proof.
  induction m as [|[k0 v0] m IH]; cbn [Reports.get map fst].
  - intros _ [].
  - intros Hnd [E | Hin].
    + injection E as -> ->; now rewrite String.eqb_refl.
    + inversion Hnd as [|? ? Hnotin Hnd']; subst.
      destruct (String.eqb_spec k0 k) as [-> | Hne].
      * exfalso; apply Hnotin.
        change k with (fst (k, v)); now apply in_map.
      * now apply IH.
Qed.

Lemma keys_modify (k : string) (f : Reports.TopClient -> Reports.TopClient)
      (m : Reports.ClientMap) :
  map fst (Reports.modify k f m) = map fst m.
Proof.
  induction m as [|[k0 v0] m IH]; cbn [Reports.modify].
  - reflexivity.
  - destruct (String.eqb k0 k); cbn [map fst]; [reflexivity | now rewrite IH].
Qed.

Lemma keys_ensure (t : Reports.ReportTransaction) (m : Reports.ClientMap) :
  NoDup (map fst m) -> NoDup (map fst (Reports.ensure t m)).
Proof.
  intros Hnd; unfold Reports.ensure.
  rewrite has_get.
  destruct (Reports.get (Reports.client_id t) m) eqn:E; cbn [negb].
  - exact Hnd.
  - unfold Reports.setNew; rewrite map_app; cbn [map fst].
    apply NoDup_app; [exact Hnd | repeat constructor; intros [] |].
    intros k Hin [<- | []]; revert Hin; now apply get_None_keys.
Qed.

(** The net amount the rollups add is credit minus debit of the row. *)
Lemma net_rowNet (t : Reports.ReportTransaction) :
  Reports.net t = Spec.rowNet t.
Proof.
  unfold Reports.net, Spec.rowNet.
  now rewrite (amount_or0 (Reports.rt_credit t)),
              (amount_or0 (Reports.rt_debit t)).
Qed.

Lemma clientNet_snoc (k : string) (l : list Reports.ReportTransaction)
      (t : Reports.ReportTransaction) :
  Spec.clientNet k (l ++ [t])
  = Spec.clientNet k l
    + (if String.eqb (Reports.client_id t) k then Spec.rowNet t else 0).
Proof. induction l as [|u l IH]; simpl; [|rewrite IH]; lia. Qed.

Lemma clientCount_snoc (k : string) (l : list Reports.ReportTransaction)
      (t : Reports.ReportTransaction) :
  Spec.clientCount k (l ++ [t])
  = Spec.clientCount k l
    + (if String.eqb (Reports.client_id t) k then 1 else 0).
Proof. induction l as [|u l IH]; simpl; [|rewrite IH]; lia. Qed.

Lemma get_ensure (k : string) (t : Reports.ReportTransaction)
      (m : Reports.ClientMap) :
  Reports.get k (Reports.ensure t m)
  = match Reports.get k m with
    | Some x => Some x
    | None =>
        if String.eqb (Reports.client_id t) k
        then Some (Reports.freshEntry t) else None
    end.
Proof.
  unfold Reports.ensure; rewrite has_get.
  destruct (Reports.get (Reports.client_id t) m) eqn:E; cbn [negb].
  - destruct (Reports.get k m) eqn:Ek; [reflexivity|].
    destruct (String.eqb_spec (Reports.client_id t) k) as [<- | Hne];
      [congruence | reflexivity].
  - apply get_setNew.
Qed.

(** One KES row keeps the rollup. *)
Lemma stepKES_rollsUp (m : Reports.ClientMap)
      (kes usd : list Reports.ReportTransaction)
      (t : Reports.ReportTransaction) :
  Spec.rollsUp m kes usd ->
  Spec.rollsUp (Reports.stepKES m t) (kes ++ [t]) usd.
Proof.
  intros (Hnd & Hsome & Hnone); unfold Reports.stepKES.
  pose proof (net_rowNet t) as Hnet.
  split; [rewrite keys_modify; now apply keys_ensure|].
  split.
  - intros k v; rewrite get_modify, get_ensure.
    unfold Spec.rolledUp; rewrite clientNet_snoc, clientCount_snoc.
    destruct (String.eqb_spec (Reports.client_id t) k) as [<- | Hne].
    + destruct (Reports.get (Reports.client_id t) m) as [v0|] eqn:E;
        cbn [option_map]; intros [= <-].
      * destruct (Hsome _ _ E) as (Hid & Hk & Hu & Hc).
        cbn [Reports.creditKES Reports.tc_client_id Reports.total_balance_kes
               Reports.total_balance_usd Reports.transaction_count].
        repeat split; try assumption; lia.
      * destruct (Hnone _ E) as (Hk & Hu & Hck & Hcu).
        cbn [Reports.creditKES Reports.freshEntry Reports.tc_client_id
               Reports.total_balance_kes Reports.total_balance_usd
               Reports.transaction_count].
        repeat split; lia.
    + destruct (Reports.get k m) as [v0|] eqn:E; [|discriminate].
      intros [= <-].
      destruct (Hsome _ _ E) as (Hid & Hk & Hu & Hc).
      repeat split; try assumption; lia.
  - intros k; rewrite get_modify, get_ensure.
    unfold Spec.unseen; rewrite clientNet_snoc, clientCount_snoc.
    destruct (String.eqb_spec (Reports.client_id t) k) as [<- | Hne].
    + destruct (Reports.get (Reports.client_id t) m); discriminate.
    + destruct (Reports.get k m) as [v0|] eqn:E; [discriminate|].
      intros _; destruct (Hnone _ E) as (Hk & Hu & Hck & Hcu).
      repeat split; lia.
Qed.

(** One USD row keeps the rollup. *)
Lemma stepUSD_rollsUp (m : Reports.ClientMap)
      (kes usd : list Reports.ReportTransaction)
      (t : Reports.ReportTransaction) :
  Spec.rollsUp m kes usd ->
  Spec.rollsUp (Reports.stepUSD m t) kes (usd ++ [t]).
Proof.
  intros (Hnd & Hsome & Hnone); unfold Reports.stepUSD.
  pose proof (net_rowNet t) as Hnet.
  split; [rewrite keys_modify; now apply keys_ensure|].
  split.
  - intros k v; rewrite get_modify, get_ensure.
    unfold Spec.rolledUp; rewrite clientNet_snoc, clientCount_snoc.
    destruct (String.eqb_spec (Reports.client_id t) k) as [<- | Hne].
    + destruct (Reports.get (Reports.client_id t) m) as [v0|] eqn:E;
        cbn [option_map]; intros [= <-].
      * destruct (Hsome _ _ E) as (Hid & Hk & Hu & Hc).
        cbn [Reports.creditUSD Reports.tc_client_id Reports.total_balance_kes
               Reports.total_balance_usd Reports.transaction_count].
        repeat split; try assumption; lia.
      * destruct (Hnone _ E) as (Hk & Hu & Hck & Hcu).
        cbn [Reports.creditUSD Reports.freshEntry Reports.tc_client_id
               Reports.total_balance_kes Reports.total_balance_usd
               Reports.transaction_count].
        repeat split; lia.
    + destruct (Reports.get k m) as [v0|] eqn:E; [|discriminate].
      intros [= <-].
      destruct (Hsome _ _ E) as (Hid & Hk & Hu & Hc).
      repeat split; try assumption; lia.
  - intros k; rewrite get_modify, get_ensure.
    unfold Spec.unseen; rewrite clientNet_snoc, clientCount_snoc.
    destruct (String.eqb_spec (Reports.client_id t) k) as [<- | Hne].
    + destruct (Reports.get (Reports.client_id t) m); discriminate.
    + destruct (Reports.get k m) as [v0|] eqn:E; [discriminate|].
      intros _; destruct (Hnone _ E) as (Hk & Hu & Hck & Hcu).
      repeat split; lia.
Qed.

Lemma foldKES_rollsUp (l : list Reports.ReportTransaction)
      (m : Reports.ClientMap) (kes usd : list Reports.ReportTransaction) :
  Spec.rollsUp m kes usd ->
  Spec.rollsUp (fold_left Reports.stepKES l m) (kes ++ l) usd.
Proof.
  revert m kes; induction l as [|t l IH]; intros m kes H; cbn [fold_left].
  - now rewrite app_nil_r.
  - replace (kes ++ t :: l)%list with ((kes ++ [t]) ++ l)%list
      by (now rewrite <- app_assoc).
    apply IH, stepKES_rollsUp, H.
Qed.

Lemma foldUSD_rollsUp (l : list Reports.ReportTransaction)
      (m : Reports.ClientMap) (kes usd : list Reports.ReportTransaction) :
  Spec.rollsUp m kes usd ->
  Spec.rollsUp (fold_left Reports.stepUSD l m) kes (usd ++ l).
Proof.
  revert m usd; induction l as [|t l IH]; intros m usd H; cbn [fold_left].
  - now rewrite app_nil_r.
  - replace (usd ++ t :: l)%list with ((usd ++ [t]) ++ l)%list
      by (now rewrite <- app_assoc).
    apply IH, stepUSD_rollsUp, H.
Qed.

Lemma buildClientMap_rollsUp (kes usd : list Reports.ReportTransaction) :
  Spec.rollsUp (Reports.buildClientMap kes usd) kes usd.
Proof.
  unfold Reports.buildClientMap.
  apply (foldUSD_rollsUp usd _ kes []).
  apply (foldKES_rollsUp kes [] [] []).
  split; [constructor|].
  split; [intros k v H; discriminate H|].
  intros k _; repeat split; reflexivity.
Qed.

(** Every entry of the rollup sums the rows of its own client. *)
Lemma values_rolledUp (kes usd : list Reports.ReportTransaction)
      (c : Reports.TopClient) :
  In c (Reports.values (Reports.buildClientMap kes usd)) ->
  Spec.rolledUp kes usd (Reports.tc_client_id c) c.
Proof.
  destruct (buildClientMap_rollsUp kes usd) as (Hnd & Hsome & _).
  unfold Reports.values; intros Hin.
  apply in_map_iff in Hin; destruct Hin as ([k v] & <- & Hin).
  cbn [snd].
  pose proof (Hsome k v (get_In k v _ Hnd Hin)) as H.
  destruct H as (Hid & H); unfold Spec.rolledUp; rewrite Hid.
  split; [reflexivity | exact H].
Qed.



(* ===================================================================== *)
(** ** Worked scenarios *)
(* ===================================================================== *)

(** Scenario 6: credit 1000 on 2024-01-05, debit 400 on 2024-01-10. *)
Example scenario_two_entries :
  PdfGenerator.runBalances
    0 (PdfGenerator.sortByDate Sample.dateOrdinal Sample.twoEntries)
  = [1000; 600]
  /\ PdfGenerator.calculateSummary Sample.twoEntries
     = {| receivable := 400; paid := 1000; balance := 600 |}
  /\ ClientDetail.balanceColumn Sample.twoEntries = [600; 1000]
  /\ PdfGenerator.buildTableData Sample.dateOrdinal Sample.showDate
                                 Sample.showCurrency Sample.twoEntries KES
     = [ ["2024-01-05"; "deposit"; "KES 1000"; "-"; "KES 1000"];
         ["2024-01-10"; "goods"; "-"; "KES 400"; "KES 600"] ].
Proof. repeat split; reflexivity. Qed.

(** Combining zero clients throws before anything is drawn. *)
Example combining_no_client_throws (getTime : string -> Z) :
  PdfGenerator.combinedOptions getTime []
  = Threw "No clients provided for combined statement".
Proof. reflexivity. Qed.

(** The ranking of the sample rows: composites 31000, 16500, 1500, 0 and
    -6500. *)
Example sample_ranking :
  map (fun c => (Reports.tc_client_id c, Reports.composite c))
      (Reports.topClientsList Sample.kesRows Sample.usdRows)
  = [ ("c1", 31000); ("c2", 16500); ("c3", 1500); ("c4", 0);
      ("c5", -6500) ].
Proof. reflexivity. Qed.

(** Clients that tie keep the order in which the rollup met them. *)
Example tie_keeps_insertion_order :
  map Reports.tc_client_id
      (Reports.topClientsList
         [ Sample.row "k1" "c7" "Gathoni" None (Some 130);
           Sample.row "k2" "c3" "Chege" None (Some 500) ]
         [ Sample.row "u1" "c9" "Imani" None (Some 1) ])
  = ["c3"; "c7"; "c9"].
Proof. reflexivity. Qed.

(* ===================================================================== *)
(** ** Further properties: the order and the balances of a statement *)
(* ===================================================================== *)

Section SortOnceFacts.
Context {A : Type}.
Variable cmp : A -> A -> Z.

(** A list in order is left as it is. *)
Lemma sort_in_order (l : list A) :
  StronglySorted (fun x y => cmp x y <= 0) l -> Js.sort cmp l = l.
Proof.
  induction 1 as [|x l Hs IH Hall]; cbn [Js.sort fold_right].
  - reflexivity.
  - fold (Js.sort cmp l); rewrite IH.
    destruct l as [|y l]; [reflexivity|].
    cbn [Js.insert].
    apply Forall_inv in Hall.
    apply Z.leb_le in Hall; now rewrite Hall.
Qed.

(** An element that follows every element of the list goes last. *)
Lemma insert_last (x : A) (l : list A) :
  Forall (fun y => cmp x y > 0) l -> Js.insert cmp x l = (l ++ [x])%list.
Proof.
  induction 1 as [|y l Hy Hall IH]; cbn [Js.insert app].
  - reflexivity.
  - destruct (Z.leb_spec (cmp x y) 0) as [Hle | Hgt]; [lia|].
    now rewrite IH.
Qed.

(** Elements that do not compare equal to [x] aside, [x] is put before
    those that do. *)
Lemma insert_filter (p : A -> bool) (x : A) (l : list A) :
  (forall y, p x = true -> p y = true -> cmp x y <= 0) ->
  filter p (Js.insert cmp x l)
  = if p x then x :: filter p l else filter p l.
Proof.
  intros Hp; induction l as [|y l IH]; cbn [Js.insert filter].
  - destruct (p x); reflexivity.
  - destruct (Z.leb_spec (cmp x y) 0) as [Hle | Hgt]; cbn [filter].
    + destruct (p x); reflexivity.
    + rewrite IH.
      destruct (p x) eqn:Ex, (p y) eqn:Ey; try reflexivity.
      specialize (Hp y eq_refl Ey); lia.
Qed.

End SortOnceFacts.

Lemma sortByDate_again (getTime : string -> Z) (l : list Transaction) :
  PdfGenerator.sortByDate getTime (PdfGenerator.sortByDate getTime l)
  = PdfGenerator.sortByDate getTime l.
Proof.
  unfold PdfGenerator.sortByDate at 1; apply sort_in_order.
  pose proof (sortByDate_sorted getTime l) as H.
  eapply StronglySorted_ind with (R := Spec.notAfter getTime); [| |exact H].
  - constructor.
  - intros a l' _ IH Hall; constructor; [exact IH|].
    eapply Forall_impl; [|exact Hall].
    unfold Spec.notAfter, PdfGenerator.byDate; intros; lia.
Qed.

(** X1. Sorting by date a second time changes nothing; so the table of a
    combined statement lists the merged transactions of each currency in
    the order the combiner gave them, one row per merged transaction. *)
Theorem X1_combined_table_keeps_merged_order :
  forall (getTime : string -> Z) (toLocaleDateString : string -> string)
         (formatCurrency : Z -> Currency -> string)
         (clients : list ClientLedgers),
    clients <> [] ->
    exists options : ReportOptions,
      PdfGenerator.combinedOptions getTime clients = Returned options
      /\ PdfGenerator.sortByDate getTime (transactionsKES options)
         = transactionsKES options
      /\ PdfGenerator.sortByDate getTime (transactionsUSD options)
         = transactionsUSD options
      /\ PdfGenerator.buildTableData getTime toLocaleDateString
                                     formatCurrency
                                     (transactionsKES options) KES
         = PdfGenerator.mapRows toLocaleDateString formatCurrency KES 0
                                (transactionsKES options)
      /\ PdfGenerator.buildTableData getTime toLocaleDateString
                                     formatCurrency
                                     (transactionsUSD options) USD
         = PdfGenerator.mapRows toLocaleDateString formatCurrency USD 0
                                (transactionsUSD options).
Proof.
  intros getTime toLoc fc clients Hne.
  eexists; split; [now apply combinedOptions_returns|].
  cbn [transactionsKES transactionsUSD].
  unfold PdfGenerator.buildTableData.
  rewrite !sortByDate_again; repeat split; reflexivity.
Qed.

(** X1 at clients A, B and C of the samples. *)
Lemma X1_combined_table_witness :
  let clients :=
    [Sample.clientA "2024-01-10"; Sample.clientB "2024-01-05"; Sample.clientC]
  in
  clients <> []
  /\ exists options : ReportOptions,
      PdfGenerator.combinedOptions Sample.dateOrdinal clients
      = Returned options
      /\ PdfGenerator.buildTableData Sample.dateOrdinal Sample.showDate
                                     Sample.showCurrency
                                     (transactionsKES options) KES
         = [ ["2024-01-05"; "B"; "-"; "KES 200"; "-KES 200"];
             ["2024-01-10"; "A - rent"; "KES 500"; "-"; "KES 300"] ].
Proof.
  intros clients.
  assert (Hne : clients <> []) by discriminate.
  split; [exact Hne|].
  destruct (X1_combined_table_keeps_merged_order
              Sample.dateOrdinal Sample.showDate Sample.showCurrency
              clients Hne)
    as (options & Heq & _ & _ & Hk & _).
  exists options; split; [exact Heq|].
  rewrite Hk.
  injection Heq as <-; reflexivity.
Defined.

(** X2. The date sort of the statement is stable: the transactions that
    share a date stand in the sorted list in the order the input list
    had them. *)
Theorem X2_same_date_rows_keep_input_order :
  forall (getTime : string -> Z) (txns : list Transaction) (time : Z),
    Derived.datedAt getTime time (PdfGenerator.sortByDate getTime txns)
    = Derived.datedAt getTime time txns.
Proof.
  intros getTime txns time; unfold Derived.datedAt, PdfGenerator.sortByDate.
  induction txns as [|t txns IH]; cbn [Js.sort fold_right filter].
  - reflexivity.
  - fold (Js.sort (PdfGenerator.byDate getTime) txns).
    rewrite insert_filter.
    + now rewrite IH.
    + intros y Hx Hy; apply Z.eqb_eq in Hx, Hy.
      unfold PdfGenerator.byDate; lia.
Qed.

Lemma runBalances_nth (l : list Transaction) (runBal : Z) (k : nat) :
  nth_error (PdfGenerator.runBalances runBal l) k
  = if (k <? List.length l)%nat
    then Some (runBal + Spec.netSum (firstn (S k) l))
    else None.
Proof.
  revert runBal k; induction l as [|t l IH]; intros runBal k.
  - destruct k; reflexivity.
  - cbn [PdfGenerator.runBalances].
    rewrite (amount_or0 (credit t)), (amount_or0 (debit t)).
    destruct k as [|k].
    + cbn [nth_error List.length firstn Spec.netSum].
      change (0 <? S (List.length l))%nat with true; cbv iota.
      f_equal; lia.
    + cbn [nth_error]; rewrite IH.
      change (S k <? List.length (t :: l))%nat with (k <? List.length l)%nat.
      destruct (k <? List.length l)%nat; [|reflexivity].
      f_equal.
      change (firstn (S (S k)) (t :: l)) with (t :: firstn (S k) l).
      cbn [Spec.netSum]; lia.
Qed.


(** The running balances of a list extended at its end. *)
Lemma runBalances_snoc (l : list Transaction) (t : Transaction)
      (runBal : Z) :
  PdfGenerator.runBalances runBal (l ++ [t])
  = (PdfGenerator.runBalances runBal l
     ++ [runBal + Spec.netSum (l ++ [t])])%list.
Proof.
  revert runBal; induction l as [|u l IH]; intros runBal.
  - cbn [app PdfGenerator.runBalances Spec.netSum].
    rewrite (amount_or0 (credit t)), (amount_or0 (debit t)).
    apply (f_equal (fun z => [z])); lia.
  - cbn [app PdfGenerator.runBalances Spec.netSum].
    rewrite IH, (amount_or0 (credit u)), (amount_or0 (debit u)).
    cbn [app].
    apply (f_equal (cons _)), (f_equal (app _)), (f_equal (fun z => [z])).
    lia.
Qed.

Lemma balanceColumn_cons (t : Transaction) (l : list Transaction) :
  ClientDetail.balanceColumn (t :: l)
  = Spec.netSum (t :: l) :: ClientDetail.balanceColumn l.
Proof.
  unfold ClientDetail.balanceColumn.
  cbn [List.length seq map].
  f_equal.
  - unfold ClientDetail.runningBalance, Js.sliceFrom; cbn [skipn].
    rewrite reduce_net; lia.
  - rewrite <- seq_shift, map_map.
    apply map_ext; intros i.
    unfold ClientDetail.runningBalance, Js.sliceFrom; reflexivity.
Qed.

(** Read from the bottom, the balance column of the detail view is the
    running balance of the list taken oldest first. *)
Lemma balanceColumn_rev (l : list Transaction) :
  PdfGenerator.runBalances 0 (rev l) = rev (ClientDetail.balanceColumn l).
Proof.
  induction l as [|t l IH].
  - reflexivity.
  - rewrite balanceColumn_cons; cbn [rev].
    rewrite runBalances_snoc, IH.
    apply (f_equal (app _)), (f_equal (fun z => [z])).
    rewrite (netSum_perm (rev l ++ [t]) (t :: l)); [lia|].
    apply Permutation_sym, (Permutation_rev (t :: l)).
Qed.

Lemma sortByDate_newestFirst (getTime : string -> Z)
      (l : list Transaction) :
  Derived.newestFirst getTime l -> PdfGenerator.sortByDate getTime l = rev l.
Proof.
  unfold Derived.newestFirst, PdfGenerator.sortByDate.
  induction 1 as [|t l Hs IH Hall]; cbn [Js.sort fold_right rev].
  - reflexivity.
  - fold (Js.sort (PdfGenerator.byDate getTime) l); rewrite IH.
    apply insert_last.
    apply Forall_forall; intros y Hy.
    apply in_rev in Hy.
    rewrite Forall_forall in Hall; specialize (Hall y Hy).
    unfold PdfGenerator.byDate; lia.
Qed.

(* ===================================================================== *)
(** ** Further properties: the combined statement *)
(* ===================================================================== *)

Lemma list_ascii_app (a b : string) :
  list_ascii_of_string (a ++ b)
  = (list_ascii_of_string a ++ list_ascii_of_string b)%list.
Proof. induction a as [|c a IH]; simpl; [reflexivity | now rewrite IH]. Qed.

(** The search looks at the character before the text only to tell
    whether it is a word character. *)
Lemma matchHere_prev (p q : option ascii) (l : list ascii) :
  RegExp.isWordAt p = RegExp.isWordAt q ->
  RegExp.matchHere true RegExp.mgPattern p l
  = RegExp.matchHere true RegExp.mgPattern q l.
Proof.
  intros H; unfold RegExp.mgPattern; cbn [RegExp.matchHere].
  now rewrite H.
Qed.

Lemma searchFrom_prev (p q : option ascii) (l : list ascii) :
  RegExp.isWordAt p = RegExp.isWordAt q ->
  RegExp.searchFrom true RegExp.mgPattern p l
  = RegExp.searchFrom true RegExp.mgPattern q l.
Proof.
  intros H; destruct l as [|c l]; cbn [RegExp.searchFrom];
    now rewrite (matchHere_prev p q _ H).
Qed.

(** A character that is neither a word character nor a letter of the
    word ends every match that starts before it. *)
Lemma matchHere_cut (c : ascii) (prev : option ascii) (l1 l2 : list ascii) :
  RegExp.isWordChar c = false ->
  Spec.isMb c = false -> Spec.isGb c = false ->
  RegExp.matchHere true RegExp.mgPattern prev (l1 ++ c :: l2)
  = RegExp.matchHere true RegExp.mgPattern prev l1.
Proof.
  intros Hw Hm Hg; unfold RegExp.mgPattern.
  destruct l1 as [|a [|b [|d l1]]];
    cbn [app RegExp.matchHere hd_error RegExp.isWordAt];
    rewrite ?charMatches_m, ?charMatches_g, ?Hm, ?Hg, ?Hw;
    rewrite ?andb_false_r; reflexivity.
Qed.

Lemma searchFrom_cut (c : ascii) (l1 l2 : list ascii) (prev : option ascii) :
  RegExp.isWordChar c = false ->
  Spec.isMb c = false -> Spec.isGb c = false ->
  RegExp.searchFrom true RegExp.mgPattern prev (l1 ++ c :: l2)
  = RegExp.searchFrom true RegExp.mgPattern prev l1
    || RegExp.searchFrom true RegExp.mgPattern None l2.
Proof.
  intros Hw Hm Hg; revert prev; induction l1 as [|x l1 IH]; intros prev.
  - pose proof (matchHere_cut c prev [] l2 Hw Hm Hg) as H.
    cbn [app] in H |- *.
    cbn [RegExp.searchFrom]; rewrite H, orb_false_r.
    rewrite (searchFrom_prev (Some c) None l2) by (cbn; exact Hw).
    destruct (RegExp.matchHere true RegExp.mgPattern prev []); reflexivity.
  - pose proof (matchHere_cut c prev (x :: l1) l2 Hw Hm Hg) as H.
    cbn [app] in H |- *.
    cbn [RegExp.searchFrom]; rewrite H, IH.
    now rewrite orb_assoc.
Qed.

(** The word is in [name - description] when it is in the name or in
    the description. *)
Lemma testMg_joined (name d : string) :
  RegExp.testMg (name ++ " - " ++ d)
  = RegExp.testMg name || RegExp.testMg d.
Proof.
  unfold RegExp.testMg, RegExp.test.
  rewrite list_ascii_app.
  change (list_ascii_of_string (" - " ++ d))
    with (" "%char :: ([] ++ "-"%char :: ([] ++ " "%char
                                          :: list_ascii_of_string d)))%list.
  rewrite !searchFrom_cut by reflexivity.
  reflexivity.
Qed.

Lemma testMg_rewritten (c : Client) (t : Transaction) :
  RegExp.testMg (Js.orEmpty (description (Spec.rewritten c t)))
  = RegExp.testMg (client_name c) || RegExp.testMg (description t).
Proof.
  rewrite orEmpty_id; unfold Spec.rewritten.
  destruct (description t) as [|x d] eqn:E; cbn [Spec.withDescription description].
  - now rewrite orb_false_r.
  - apply testMg_joined.
Qed.

Lemma mgCount_rewritten (c : Client) (l : list Transaction) :
  PdfGenerator.mgCount (map (Spec.rewritten c) l)
  = if RegExp.testMg (client_name c) then List.length l
    else PdfGenerator.mgCount l.
Proof.
  unfold PdfGenerator.mgCount.
  induction l as [|t l IH]; cbn [map filter].
  - destruct (RegExp.testMg (client_name c)); reflexivity.
  - rewrite testMg_rewritten, orEmpty_id.
    destruct (RegExp.testMg (client_name c)); cbn [orb].
    + cbn [List.length]; now rewrite IH.
    + destruct (RegExp.testMg (description t)); cbn [List.length];
        now rewrite IH.
Qed.

Lemma mgCount_app (l1 l2 : list Transaction) :
  PdfGenerator.mgCount (l1 ++ l2)
  = (PdfGenerator.mgCount l1 + PdfGenerator.mgCount l2)%nat.
Proof.
  unfold PdfGenerator.mgCount; now rewrite filter_app, length_app.
Qed.

Lemma mgCount_perm (l1 l2 : list Transaction) :
  Permutation l1 l2 -> PdfGenerator.mgCount l1 = PdfGenerator.mgCount l2.
Proof.
  unfold PdfGenerator.mgCount.
  induction 1 as [|x l l' _ IH|x y l|l l' l'' _ IH1 _ IH2]; cbn [filter].
  - reflexivity.
  - destruct (RegExp.testMg _); cbn [List.length]; now rewrite IH.
  - destruct (RegExp.testMg (Js.orEmpty (description x))),
             (RegExp.testMg (Js.orEmpty (description y))); reflexivity.
  - now rewrite IH1.
Qed.

Lemma mgCount_relabelled (ledger : ClientLedgers -> list Transaction)
      (clients : list ClientLedgers) :
  PdfGenerator.mgCount
    (flat_map (fun cl => map (Spec.rewritten (cl_client cl)) (ledger cl))
              clients)
  = list_sum (map (Derived.mileageOf ledger) clients).
Proof.
  induction clients as [|cl clients IH]; cbn [flat_map map list_sum].
  - reflexivity.
  - rewrite mgCount_app, mgCount_rewritten, IH; reflexivity.
Qed.

(** X5. The mileage count in the footer of a combined statement counts,
    for each client, every transaction when the client's name holds the
    standalone word [mg], and otherwise the transactions whose own
    description holds it: the client name that the combiner puts in front
    of each description is searched too. *)
Theorem X5_combined_mileage_counts_client_names :
  forall (getTime : string -> Z) (clients : list ClientLedgers),
    clients <> [] ->
    exists options : ReportOptions,
      PdfGenerator.combinedOptions getTime clients = Returned options
      /\ PdfGenerator.mgCount (transactionsKES options)
         = list_sum (map (Derived.mileageOf cl_transactionsKES) clients)
      /\ PdfGenerator.mgCount (transactionsUSD options)
         = list_sum (map (Derived.mileageOf cl_transactionsUSD) clients).
Proof.
  intros getTime clients Hne.
  eexists; split; [now apply combinedOptions_returns|].
  cbn [transactionsKES transactionsUSD].
  split.
  - rewrite (mgCount_perm _ (Spec.relabelledKES clients)) by apply sort_perm.
    apply mgCount_relabelled.
  - rewrite (mgCount_perm _ (Spec.relabelledUSD clients)) by apply sort_perm.
    apply mgCount_relabelled.
Qed.

(** X5 at a client named [MG Hauliers] with two entries that do not
    mention mileage, next to Client A: the footer counts 2. *)
Lemma X5_combined_mileage_witness :
  let hauliers :=
    {| cl_client := Sample.person "MG Hauliers" "MGH";
       cl_transactionsKES :=
         [ Sample.tx "h1" "2024-05-01" "diesel" (Some 900) None;
           Sample.tx "h2" "2024-05-02" "tyres" (Some 300) None ];
       cl_transactionsUSD := [] |} in
  let clients := [hauliers; Sample.clientA "2024-05-03"] in
  clients <> []
  /\ exists options : ReportOptions,
      PdfGenerator.combinedOptions Sample.dateOrdinal clients
      = Returned options
      /\ PdfGenerator.mgCount (transactionsKES options) = 2%nat
      /\ PdfGenerator.mgCount (flat_map cl_transactionsKES clients) = 0%nat.
Proof.
  intros hauliers clients.
  assert (Hne : clients <> []) by discriminate.
  split; [exact Hne|].
  destruct (X5_combined_mileage_counts_client_names
              Sample.dateOrdinal clients Hne)
    as (options & Heq & Hk & _).
  exists options.
  split; [exact Heq|].
  split; [exact Hk | reflexivity].
Defined.

Lemma totalLength_positive {A : Type} (ledger : ClientLedgers -> list A)
      (clients : list ClientLedgers) :
  (0 < Spec.totalLength (map ledger clients))%nat
  <-> exists cl, In cl clients /\ ledger cl <> [].
Proof.
  unfold Spec.totalLength.
  induction clients as [|cl clients IH]; cbn [map fold_right].
  - split; [lia | intros (cl & [] & _)].
  - split.
    + intros H.
      destruct (ledger cl) as [|x l] eqn:E.
      * cbn [List.length] in H.
        destruct (proj1 IH H) as (cl' & Hin & Hne).
        exists cl'; split; [now right | exact Hne].
      * exists cl; split; [now left | rewrite E; discriminate].
    + intros (cl' & [<- | Hin] & Hne).
      * destruct (ledger cl); [contradiction | cbn [List.length]; lia].
      * assert (0 < fold_right (fun l n => (List.length l + n)%nat) 0%nat
                               (map ledger clients))%nat
          by (apply IH; now exists cl').
        lia.
Qed.

Lemma nonEmpty_length {A : Type} (l : list A) :
  PdfGenerator.nonEmpty l = true <-> (0 < List.length l)%nat.
Proof. unfold PdfGenerator.nonEmpty; apply Nat.ltb_lt. Qed.

(** X6. A combined statement is always a full report: it draws the KES
    section exactly when some client has a KES transaction, the USD
    section exactly when some client has a USD transaction, and the "no
    transactions" notice alone exactly when no client has any. *)
Theorem X6_combined_statement_sections :
  forall (getTime : string -> Z) (toLocaleDateString : string -> string)
         (formatCurrency : Z -> Currency -> string)
         (clients : list ClientLedgers),
    clients <> [] ->
    exists options : ReportOptions,
      PdfGenerator.combinedOptions getTime clients = Returned options
      /\ let items :=
           PdfGenerator.renderSections getTime toLocaleDateString
                                       formatCurrency options in
         (In (DocText PdfGenerator.kesLabel) items
          <-> exists cl, In cl clients /\ cl_transactionsKES cl <> [])
         /\ (In (DocText PdfGenerator.usdLabel) items
             <-> exists cl, In cl clients /\ cl_transactionsUSD cl <> [])
         /\ (items = [DocText PdfGenerator.noTransactionsNotice]
             <-> forall cl, In cl clients ->
                            cl_transactionsKES cl = []
                            /\ cl_transactionsUSD cl = []).
Proof.
  intros getTime toLoc fc clients Hne.
  eexists; split; [now apply combinedOptions_returns|].
  set (options := {| client := PdfGenerator.combinedClient clients |}).
  cbv zeta.
  assert (Hk : PdfGenerator.showKES options = true
               <-> exists cl, In cl clients /\ cl_transactionsKES cl <> []).
  { unfold PdfGenerator.showKES; cbn [options reportType transactionsKES
                                        PdfGenerator.selectsKES andb].
    rewrite nonEmpty_length.
    unfold PdfGenerator.sortByDate; rewrite sort_length.
    rewrite (proj1 (length_relabelled clients)).
    apply totalLength_positive. }
  assert (Hu : PdfGenerator.showUSD options = true
               <-> exists cl, In cl clients /\ cl_transactionsUSD cl <> []).
  { unfold PdfGenerator.showUSD; cbn [options reportType transactionsUSD
                                        PdfGenerator.selectsUSD andb].
    rewrite nonEmpty_length.
    unfold PdfGenerator.sortByDate; rewrite sort_length.
    rewrite (proj2 (length_relabelled clients)).
    apply totalLength_positive. }
  split; [now rewrite kes_section_drawn|].
  split; [now rewrite usd_section_drawn|].
  split.
  - intros E.
    assert (Hn : In (DocText PdfGenerator.noTransactionsNotice)
                    (PdfGenerator.renderSections getTime toLoc fc options))
      by (rewrite E; now left).
    apply notice_drawn in Hn; destruct Hn as [Hnk Hnu].
    intros cl Hin; split.
    + destruct (cl_transactionsKES cl) eqn:Ec; [reflexivity|].
      assert (PdfGenerator.showKES options = true)
        by (apply Hk; exists cl; split; [exact Hin | rewrite Ec; discriminate]).
      congruence.
    + destruct (cl_transactionsUSD cl) eqn:Ec; [reflexivity|].
      assert (PdfGenerator.showUSD options = true)
        by (apply Hu; exists cl; split; [exact Hin | rewrite Ec; discriminate]).
      congruence.
  - intros Hall; apply sections_without_ledger.
    + destruct (PdfGenerator.showKES options) eqn:E; [|reflexivity].
      destruct (proj1 Hk eq_refl) as (cl & Hin & Hne').
      exfalso; apply Hne'; now apply Hall.
    + destruct (PdfGenerator.showUSD options) eqn:E; [|reflexivity].
      destruct (proj1 Hu eq_refl) as (cl & Hin & Hne').
      exfalso; apply Hne'; now apply Hall.
Qed.

(** X6 at Client C of the samples, who has USD transactions only. *)
Lemma X6_combined_sections_witness :
  let clients := [Sample.clientC] in
  clients <> []
  /\ exists options : ReportOptions,
      PdfGenerator.combinedOptions Sample.dateOrdinal clients
      = Returned options
      /\ In (DocText PdfGenerator.usdLabel)
            (PdfGenerator.renderSections Sample.dateOrdinal Sample.showDate
                                         Sample.showCurrency options)
      /\ ~ In (DocText PdfGenerator.kesLabel)
              (PdfGenerator.renderSections Sample.dateOrdinal Sample.showDate
                                           Sample.showCurrency options).
Proof.
  intros clients.
  assert (Hne : clients <> []) by discriminate.
  split; [exact Hne|].
  destruct (X6_combined_statement_sections
              Sample.dateOrdinal Sample.showDate Sample.showCurrency
              clients Hne)
    as (options & Heq & Hk & Hu & _).
  exists options; split; [exact Heq|]; split.
  - apply Hu; exists Sample.clientC; split; [now left | discriminate].
  - intros H; apply Hk in H; destruct H as (cl & [<- | []] & Hcl).
    now apply Hcl.
Defined.

(* ===================================================================== *)
(** ** Further properties: the analytics rollups *)
(* ===================================================================== *)

Section JsMapFacts.
Context {V : Type}.
Implicit Types (m : @JsMap.t V) (k : string).


Lemma jsmap_get_setNew k k' (v : V) m :
  JsMap.get k (JsMap.setNew k' v m)
  = match JsMap.get k m with
    | Some x => Some x
    | None => if String.eqb k' k then Some v else None
    end.
Proof.
  unfold JsMap.setNew.
  induction m as [|[k0 v0] m IH]; cbn [app JsMap.get].
  - reflexivity.
  - destruct (String.eqb k0 k); [reflexivity | exact IH].
Qed.

Lemma jsmap_has_get k m :
  JsMap.has k m
  = match JsMap.get k m with Some _ => true | None => false end.
Proof.
  unfold JsMap.has.
  induction m as [|[k0 v0] m IH]; cbn [existsb JsMap.get fst].
  - reflexivity.
  - destruct (String.eqb k0 k); [reflexivity | exact IH].
Qed.




Lemma jsmap_In_get k (v : V) m :
  JsMap.get k m = Some v -> In (k, v) m.
Proof.
  induction m as [|[k0 v0] m IH]; cbn [JsMap.get].
  - discriminate.
  - destruct (String.eqb_spec k0 k) as [-> | Hne].
    + intros [= ->]; now left.
    + intros H; right; now apply IH.
Qed.

(** A change of one entry moves a sum over the values by the change of
    that entry. *)
Lemma jsmap_sum_modify (f : V -> Z) k (g : V -> V) m (v : V) :
  JsMap.get k m = Some v ->
  Derived.sumZ f (JsMap.values (JsMap.modify k g m))
  = Derived.sumZ f (JsMap.values m) + (f (g v) - f v).
Proof.
  unfold JsMap.values.
  induction m as [|[k0 v0] m IH]; cbn [JsMap.get JsMap.modify].
  - discriminate.
  - destruct (String.eqb k0 k).
    + intros [= ->]; cbn [map snd Derived.sumZ]; lia.
    + intros H; cbn [map snd Derived.sumZ]; rewrite (IH H); lia.
Qed.

Lemma jsmap_sum_setNew (f : V -> Z) k (v : V) m :
  Derived.sumZ f (JsMap.values (JsMap.setNew k v m))
  = Derived.sumZ f (JsMap.values m) + f v.
Proof.
  unfold JsMap.values, JsMap.setNew.
  induction m as [|[k0 v0] m IH]; cbn [app map snd Derived.sumZ].
  - lia.
  - change (Derived.sumZ f (map snd (m ++ [(k, v)])%list))
      with (Derived.sumZ f (map snd (m ++ [(k, v)]%list))).
    rewrite IH; lia.
Qed.

End JsMapFacts.

Lemma sumZ_perm {A : Type} (f : A -> Z) (l l' : list A) :
  Permutation l l' -> Derived.sumZ f l = Derived.sumZ f l'.
Proof. induction 1; cbn [Derived.sumZ]; lia. Qed.





(** The client map of the rollup is a [JsMap]. *)
Lemma rollup_get_ensure_key (t : Reports.ReportTransaction)
      (m : Reports.ClientMap) :
  exists v, Reports.get (Reports.client_id t) (Reports.ensure t m) = Some v.
Proof.
  rewrite get_ensure, String.eqb_refl.
  destruct (Reports.get (Reports.client_id t) m); eauto.
Qed.

Lemma rollup_sum_ensure (f : Reports.TopClient -> Z)
      (t : Reports.ReportTransaction) (m : Reports.ClientMap) :
  f (Reports.freshEntry t) = 0 ->
  Derived.sumZ f (Reports.values (Reports.ensure t m))
  = Derived.sumZ f (Reports.values m).
Proof.
  intros Hf; unfold Reports.ensure.
  destruct (negb (Reports.has (Reports.client_id t) m)); [|reflexivity].
  transitivity (Derived.sumZ f (Reports.values m)
                + f (Reports.freshEntry t)).
  - exact (jsmap_sum_setNew f (Reports.client_id t)
                            (Reports.freshEntry t) m).
  - rewrite Hf; apply Z.add_0_r.
Qed.

(** One row moves a sum over the rollup by what it adds to its client. *)
Lemma rollup_sum_step (f : Reports.TopClient -> Z) (d : Z)
      (g : Reports.TopClient -> Reports.TopClient)
      (t : Reports.ReportTransaction) (m : Reports.ClientMap) :
  f (Reports.freshEntry t) = 0 ->
  (forall v, f (g v) = f v + d) ->
  Derived.sumZ f
    (Reports.values (Reports.modify (Reports.client_id t) g
                                    (Reports.ensure t m)))
  = Derived.sumZ f (Reports.values m) + d.
Proof.
  intros Hf Hg.
  destruct (rollup_get_ensure_key t m) as [v Hv].
  transitivity (Derived.sumZ f (Reports.values (Reports.ensure t m))
                + (f (g v) - f v)).
  - exact (jsmap_sum_modify f (Reports.client_id t) g
                            (Reports.ensure t m) v Hv).
  - rewrite (rollup_sum_ensure f t m Hf), Hg; lia.
Qed.

Lemma rollup_sum_foldKES (f : Reports.TopClient -> Z)
      (d : Reports.ReportTransaction -> Z)
      (rows : list Reports.ReportTransaction) (m : Reports.ClientMap) :
  (forall t, f (Reports.freshEntry t) = 0) ->
  (forall t v, f (Reports.creditKES t v) = f v + d t) ->
  Derived.sumZ f (Reports.values (fold_left Reports.stepKES rows m))
  = Derived.sumZ f (Reports.values m) + Derived.sumZ d rows.
Proof.
  intros Hf Hg; revert m.
  induction rows as [|t rows IH]; intros m; cbn [fold_left Derived.sumZ].
  - lia.
  - rewrite IH; unfold Reports.stepKES.
    rewrite (rollup_sum_step f (d t)); [lia | apply Hf | apply Hg].
Qed.

Lemma rollup_sum_foldUSD (f : Reports.TopClient -> Z)
      (d : Reports.ReportTransaction -> Z)
      (rows : list Reports.ReportTransaction) (m : Reports.ClientMap) :
  (forall t, f (Reports.freshEntry t) = 0) ->
  (forall t v, f (Reports.creditUSD t v) = f v + d t) ->
  Derived.sumZ f (Reports.values (fold_left Reports.stepUSD rows m))
  = Derived.sumZ f (Reports.values m) + Derived.sumZ d rows.
Proof.
  intros Hf Hg; revert m.
  induction rows as [|t rows IH]; intros m; cbn [fold_left Derived.sumZ].
  - lia.
  - rewrite IH; unfold Reports.stepUSD.
    rewrite (rollup_sum_step f (d t)); [lia | apply Hf | apply Hg].
Qed.

Lemma sumZ_const {A : Type} (c : Z) (l : list A) :
  Derived.sumZ (fun _ => c) l = c * Z.of_nat (List.length l).
Proof. induction l as [|x l IH]; cbn [Derived.sumZ List.length]; lia. Qed.

Lemma clientCount_nonneg (k : string) (l : list Reports.ReportTransaction) :
  0 <= Spec.clientCount k l.
Proof.
  induction l as [|t l IH]; cbn [Spec.clientCount]; [lia|].
  destruct (String.eqb (Reports.client_id t) k); lia.
Qed.

Lemma clientCount_positive (k : string) (t : Reports.ReportTransaction)
      (l : list Reports.ReportTransaction) :
  In t l -> Reports.client_id t = k -> 0 < Spec.clientCount k l.
Proof.
  intros Hin <-; induction l as [|u l IH]; [destruct Hin|].
  cbn [Spec.clientCount].
  pose proof (clientCount_nonneg (Reports.client_id t) l).
  destruct Hin as [-> | Hin].
  - rewrite String.eqb_refl; lia.
  - specialize (IH Hin).
    destruct (String.eqb (Reports.client_id u) (Reports.client_id t)); lia.
Qed.

Lemma keys_ensure_from (t : Reports.ReportTransaction)
      (m : Reports.ClientMap) (k : string) :
  In k (map fst (Reports.ensure t m)) ->
  In k (map fst m) \/ k = Reports.client_id t.
Proof.
  unfold Reports.ensure, Reports.setNew.
  destruct (negb (Reports.has (Reports.client_id t) m)); [|now left].
  rewrite map_app, in_app_iff; cbn [map fst In].
  intros [H | [H | []]]; [now left | now right].
Qed.

Lemma keys_foldKES_from (rows : list Reports.ReportTransaction)
      (m : Reports.ClientMap) (k : string) :
  In k (map fst (fold_left Reports.stepKES rows m)) ->
  In k (map fst m) \/ exists t, In t rows /\ Reports.client_id t = k.
Proof.
  revert m; induction rows as [|t rows IH]; intros m; cbn [fold_left].
  - now left.
  - intros H; destruct (IH _ H) as [Hk | (u & Hu & Hid)].
    + unfold Reports.stepKES in Hk; rewrite keys_modify in Hk.
      destruct (keys_ensure_from t m k Hk) as [Hm | ->];
        [now left | right; exists t; split; [now left | reflexivity]].
    + right; exists u; split; [now right | exact Hid].
Qed.

Lemma keys_foldUSD_from (rows : list Reports.ReportTransaction)
      (m : Reports.ClientMap) (k : string) :
  In k (map fst (fold_left Reports.stepUSD rows m)) ->
  In k (map fst m) \/ exists t, In t rows /\ Reports.client_id t = k.
Proof.
  revert m; induction rows as [|t rows IH]; intros m; cbn [fold_left].
  - now left.
  - intros H; destruct (IH _ H) as [Hk | (u & Hu & Hid)].
    + unfold Reports.stepUSD in Hk; rewrite keys_modify in Hk.
      destruct (keys_ensure_from t m k Hk) as [Hm | ->];
        [now left | right; exists t; split; [now left | reflexivity]].
    + right; exists u; split; [now right | exact Hid].
Qed.

(** In the rollup the identities are the keys. *)
Lemma rollup_ids_are_keys (kes usd : list Reports.ReportTransaction) :
  map Reports.tc_client_id
      (Reports.values (Reports.buildClientMap kes usd))
  = map fst (Reports.buildClientMap kes usd).
Proof.
  destruct (buildClientMap_rollsUp kes usd) as (Hnd & Hsome & _).
  unfold Reports.values; rewrite map_map.
  apply map_ext_in; intros [k v] Hin; cbn [fst snd].
  exact (proj1 (Hsome k v (get_In k v _ Hnd Hin))).
Qed.

Lemma rollup_key_iff_row (kes usd : list Reports.ReportTransaction)
      (k : string) :
  In k (map fst (Reports.buildClientMap kes usd))
  <-> exists t, In t (kes ++ usd) /\ Reports.client_id t = k.
Proof.
  split.
  - intros H; unfold Reports.buildClientMap in H.
    apply keys_foldUSD_from in H; destruct H as [H | (t & Ht & Hid)].
    + apply keys_foldKES_from in H; destruct H as [[] | (t & Ht & Hid)].
      exists t; split; [apply in_or_app; now left | exact Hid].
    + exists t; split; [apply in_or_app; now right | exact Hid].
  - intros (t & Hin & Hid).
    destruct (buildClientMap_rollsUp kes usd) as (_ & _ & Hnone).
    destruct (Reports.get k (Reports.buildClientMap kes usd)) eqn:E.
    + destruct (in_dec string_dec k
                       (map fst (Reports.buildClientMap kes usd)))
        as [Hk | Hk]; [exact Hk|].
      exfalso; revert E.
      generalize (Reports.buildClientMap kes usd) Hk.
      induction c as [|[k0 v0] c IHc]; cbn [Reports.get map fst];
        [discriminate|].
      intros Hk' E; destruct (String.eqb_spec k0 k) as [-> | Hne].
      * apply Hk'; now left.
      * apply IHc; [intros Hin'; apply Hk'; now right | exact E].
    + destruct (Hnone k E) as (_ & _ & Hck & Hcu).
      apply in_app_or in Hin; destruct Hin as [Hin | Hin].
      * pose proof (clientCount_positive k t kes Hin Hid); lia.
      * pose proof (clientCount_positive k t usd Hin Hid); lia.
Qed.

Lemma NoDup_firstn {A : Type} (n : nat) (l : list A) :
  NoDup l -> NoDup (firstn n l).
Proof.
  intros H; rewrite <- (firstn_skipn n l) in H.
  now apply NoDup_app_remove_r in H.
Qed.

(** X9. The client rollup lists a client exactly when one of the loaded
    rows is the client's, and lists it once; so the top-client list names
    no client twice, and with at most 10 clients it drops none. *)
Theorem X9_rollup_lists_each_client_once :
  forall kesTransactions usdTransactions : list Reports.ReportTransaction,
    let rollup :=
      Reports.values
        (Reports.buildClientMap kesTransactions usdTransactions) in
    let top := Reports.topClientsList kesTransactions usdTransactions in
    NoDup (map Reports.tc_client_id rollup)
    /\ (forall k,
           In k (map Reports.tc_client_id rollup)
           <-> exists t,
               In t (kesTransactions ++ usdTransactions)
               /\ Reports.client_id t = k)
    /\ NoDup (map Reports.tc_client_id top)
    /\ ((List.length rollup <= 10)%nat -> Permutation top rollup).
Proof.
  intros kes usd rollup top.
  assert (Hids : map Reports.tc_client_id rollup
                 = map fst (Reports.buildClientMap kes usd))
    by apply rollup_ids_are_keys.
  assert (Hnd : NoDup (map Reports.tc_client_id rollup)).
  { rewrite Hids; exact (proj1 (buildClientMap_rollsUp kes usd)). }
  assert (Hperm : Permutation (Js.sort Reports.byComposite rollup) rollup)
    by apply sort_perm.
  split; [exact Hnd|].
  split; [intros k; rewrite Hids; apply rollup_key_iff_row|].
  split.
  - unfold top, Reports.topClientsList, Js.slice; cbn [skipn Nat.sub].
    fold rollup; rewrite <- firstn_map; apply NoDup_firstn.
    apply (Permutation_NoDup
             (Permutation_sym (Permutation_map Reports.tc_client_id Hperm))).
    exact Hnd.
  - intros Hle.
    unfold top, Reports.topClientsList, Js.slice; cbn [skipn Nat.sub].
    fold rollup; rewrite firstn_all2; [exact Hperm|].
    now rewrite (Permutation_length Hperm).
Qed.


Lemma trends_get_ensure (k month : string) (m : @JsMap.t Reports.MonthlyTrend) :
  JsMap.get k (Trends.ensure month m)
  = match JsMap.get k m with
    | Some x => Some x
    | None =>
        if String.eqb month k then Some (Trends.freshTrend month) else None
    end.
Proof.
  unfold Trends.ensure; rewrite jsmap_has_get.
  destruct (JsMap.get month m) eqn:E; cbn [negb].
  - destruct (JsMap.get k m) eqn:Ek; [reflexivity|].
    destruct (String.eqb_spec month k) as [<- | Hne];
      [congruence | reflexivity].
  - apply jsmap_get_setNew.
Qed.









(** One row moves a sum over the buckets by what it adds to its month. *)
Lemma trends_sum_step (f : Reports.MonthlyTrend -> Z) (d : Z)
      (g : Reports.MonthlyTrend -> Reports.MonthlyTrend)
      (month : string) (m : @JsMap.t Reports.MonthlyTrend) :
  f (Trends.freshTrend month) = 0 ->
  (forall v, f (g v) = f v + d) ->
  Derived.sumZ f (JsMap.values (JsMap.modify month g (Trends.ensure month m)))
  = Derived.sumZ f (JsMap.values m) + d.
Proof.
  intros Hf Hg.
  assert (Hv : exists v, JsMap.get month (Trends.ensure month m) = Some v).
  { rewrite trends_get_ensure, String.eqb_refl.
    destruct (JsMap.get month m); eauto. }
  destruct Hv as [v Hv].
  rewrite (jsmap_sum_modify f month g _ v Hv), Hg.
  unfold Trends.ensure.
  destruct (negb (JsMap.has month m)); [|lia].
  rewrite jsmap_sum_setNew, Hf; lia.
Qed.

Lemma trends_sum_foldKES (f : Reports.MonthlyTrend -> Z)
      (d : Reports.ReportTransaction -> Z)
      (rows : list Reports.ReportTransaction)
      (m : @JsMap.t Reports.MonthlyTrend) :
  (forall k, f (Trends.freshTrend k) = 0) ->
  (forall t v, f (Trends.countKES t v) = f v + d t) ->
  Derived.sumZ f (JsMap.values (fold_left Trends.stepKES rows m))
  = Derived.sumZ f (JsMap.values m) + Derived.sumZ d rows.
Proof.
  intros Hf Hg; revert m.
  induction rows as [|t rows IH]; intros m; cbn [fold_left Derived.sumZ].
  - lia.
  - rewrite IH; unfold Trends.stepKES; cbv zeta.
    rewrite (trends_sum_step f (d t)); [lia | apply Hf | apply Hg].
Qed.

Lemma trends_sum_foldUSD (f : Reports.MonthlyTrend -> Z)
      (d : Reports.ReportTransaction -> Z)
      (rows : list Reports.ReportTransaction)
      (m : @JsMap.t Reports.MonthlyTrend) :
  (forall k, f (Trends.freshTrend k) = 0) ->
  (forall t v, f (Trends.countUSD t v) = f v + d t) ->
  Derived.sumZ f (JsMap.values (fold_left Trends.stepUSD rows m))
  = Derived.sumZ f (JsMap.values m) + Derived.sumZ d rows.
Proof.
  intros Hf Hg; revert m.
  induction rows as [|t rows IH]; intros m; cbn [fold_left Derived.sumZ].
  - lia.
  - rewrite IH; unfold Trends.stepUSD; cbv zeta.
    rewrite (trends_sum_step f (d t)); [lia | apply Hf | apply Hg].
Qed.

(** X11. Over all months the trends count every loaded row once: the
    KES transaction counts add up to the number of KES rows, the USD
    counts to the number of USD rows, and the two together to the total
    transaction count of the statistics. *)
Theorem X11_monthly_trends_add_up_to_the_statistics :
  forall (localeCompare : string -> string -> Z)
         (clientRows : list Reports.ClientRow)
         (kesTransactions usdTransactions : list Reports.ReportTransaction),
    let trends :=
      Trends.trends localeCompare kesTransactions usdTransactions in
    let stats :=
      Reports.computeClientStats clientRows kesTransactions usdTransactions
    in
    Derived.sumZ Reports.transactions_kes trends
    = Z.of_nat (List.length kesTransactions)
    /\ Derived.sumZ Reports.transactions_usd trends
       = Z.of_nat (List.length usdTransactions)
    /\ Derived.sumZ Reports.transactions_kes trends
       + Derived.sumZ Reports.transactions_usd trends
       = Reports.totalTransactions stats.
Proof.
  intros localeCompare rows kes usd trends stats; subst stats.
  assert (Hperm : Permutation trends
                    (JsMap.values (Trends.buildMonthlyMap kes usd)))
    by apply sort_perm.
  rewrite !(sumZ_perm _ _ _ Hperm).
  unfold Reports.computeClientStats, Trends.buildMonthlyMap;
    cbn [Reports.totalTransactions].
  assert (Hk : Derived.sumZ Reports.transactions_kes
                 (JsMap.values
                    (fold_left Trends.stepUSD usd
                               (fold_left Trends.stepKES kes [])))
               = Z.of_nat (List.length kes)).
  { rewrite (trends_sum_foldUSD _ (fun _ => 0)) by (intros; cbn; lia).
    rewrite (trends_sum_foldKES _ (fun _ => 1)) by (intros; cbn; lia).
    rewrite !sumZ_const; cbn [JsMap.values map Derived.sumZ]; lia. }
  assert (Hu : Derived.sumZ Reports.transactions_usd
                 (JsMap.values
                    (fold_left Trends.stepUSD usd
                               (fold_left Trends.stepKES kes [])))
               = Z.of_nat (List.length usd)).
  { rewrite (trends_sum_foldUSD _ (fun _ => 1)) by (intros; cbn; lia).
    rewrite (trends_sum_foldKES _ (fun _ => 0)) by (intros; cbn; lia).
    rewrite !sumZ_const; cbn [JsMap.values map Derived.sumZ]; lia. }
  rewrite Hk, Hu.
  repeat split.
Qed.

(* ===================================================================== *)
(** ** Further properties: the selection of top clients *)
(* ===================================================================== *)

Lemma setHas_In (k : string) (s : Selection.IdSet) :
  Selection.setHas k s = true <-> In k s.
Proof.
  unfold Selection.setHas; rewrite existsb_exists; split.
  - intros (x & Hin & E); apply String.eqb_eq in E; now subst.
  - intros Hin; exists k; split; [exact Hin | apply String.eqb_refl].
Qed.

Lemma setHas_delete (k id : string) (s : Selection.IdSet) :
  Selection.setHas k (Selection.setDelete id s)
  = Selection.setHas k s && negb (String.eqb k id).
Proof.
  unfold Selection.setHas, Selection.setDelete.
  induction s as [|x s IH]; cbn [filter existsb]; [reflexivity|].
  destruct (String.eqb_spec x id) as [-> | Hne]; cbn [negb existsb].
  - rewrite IH; destruct (String.eqb k id); cbn [orb];
      [now rewrite !andb_false_r | reflexivity].
  - rewrite IH.
    destruct (String.eqb_spec k x) as [-> | Hkx]; cbn [orb];
      [|reflexivity].
    destruct (String.eqb_spec x id); [contradiction | reflexivity].
Qed.

Lemma setHas_add (k id : string) (s : Selection.IdSet) :
  Selection.setHas k (Selection.setAdd id s)
  = Selection.setHas k s || String.eqb k id.
Proof.
  unfold Selection.setAdd.
  destruct (Selection.setHas id s) eqn:E.
  - destruct (String.eqb_spec k id) as [-> | Hne];
      [now rewrite E | now rewrite orb_false_r].
  - unfold Selection.setHas; rewrite existsb_app; cbn [existsb].
    now rewrite orb_false_r.
Qed.

Lemma setDelete_length (id : string) (s : Selection.IdSet) :
  NoDup s -> In id s ->
  S (List.length (Selection.setDelete id s)) = List.length s.
Proof.
  unfold Selection.setDelete.
  induction 1 as [|x s Hx Hnd IH]; [intros []|].
  cbn [filter]; intros [-> | Hin].
  - rewrite String.eqb_refl; cbn [negb List.length]; f_equal.
    clear IH Hnd; induction s as [|y s IHs]; cbn [filter]; [reflexivity|].
    destruct (String.eqb_spec y id) as [-> | Hne]; cbn [negb].
    + exfalso; apply Hx; now left.
    + cbn [List.length]; rewrite IHs;
        [reflexivity | intros H; apply Hx; now right].
  - destruct (String.eqb_spec x id) as [-> | Hne]; [contradiction|].
    cbn [negb List.length]; now rewrite (IH Hin).
Qed.

(** X12. Toggling a client in the selection flips the membership of that
    client and of no other, keeps the selection free of repeats and moves
    its size by exactly one; toggling the same client again restores the
    membership of every client. *)
Theorem X12_toggle_flips_one_membership :
  forall (clientId : string) (prev : Selection.IdSet),
    NoDup prev ->
    let next := Selection.toggleTopClientSelection clientId prev in
    NoDup next
    /\ (forall k,
           Selection.setHas k next
           = if String.eqb k clientId then negb (Selection.setHas k prev)
             else Selection.setHas k prev)
    /\ List.length next
       = (if Selection.setHas clientId prev
          then List.length prev - 1 else List.length prev + 1)%nat
    /\ (forall k,
           Selection.setHas
             k (Selection.toggleTopClientSelection clientId next)
           = Selection.setHas k prev).
Proof.
  intros id prev Hnd next.
  assert (Hflip : forall s k,
             Selection.setHas k (Selection.toggleTopClientSelection id s)
             = if String.eqb k id then negb (Selection.setHas k s)
               else Selection.setHas k s).
  { intros s k; unfold Selection.toggleTopClientSelection; cbv zeta.
    destruct (Selection.setHas id s) eqn:E.
    - rewrite setHas_delete.
      destruct (String.eqb_spec k id) as [-> | Hne]; cbn [negb];
        [now rewrite E, andb_false_r | now rewrite andb_true_r].
    - rewrite setHas_add.
      destruct (String.eqb_spec k id) as [-> | Hne];
        [now rewrite E | now rewrite orb_false_r]. }
  split; [|split; [apply Hflip|split]].
  - unfold next, Selection.toggleTopClientSelection; cbv zeta.
    destruct (Selection.setHas id prev) eqn:E.
    + now apply NoDup_filter.
    + unfold Selection.setAdd; rewrite E.
      apply NoDup_app; [exact Hnd | repeat constructor; intros [] |].
      intros k Hin [<- | []].
      apply setHas_In in Hin; congruence.
  - unfold next, Selection.toggleTopClientSelection; cbv zeta.
    destruct (Selection.setHas id prev) eqn:E.
    + apply setHas_In in E.
      pose proof (setDelete_length id prev Hnd E); lia.
    + unfold Selection.setAdd; rewrite E, length_app; reflexivity.
  - intros k; rewrite Hflip; unfold next; rewrite Hflip.
    destruct (String.eqb k id); [apply negb_involutive | reflexivity].
Qed.

(** X12 at a selection of two clients, toggling the first. *)
Lemma X12_toggle_witness :
  NoDup ["c1"; "c2"]
  /\ Selection.toggleTopClientSelection "c1" ["c1"; "c2"] = ["c2"]
  /\ Selection.setHas "c1"
       (Selection.toggleTopClientSelection "c1" ["c1"; "c2"]) = false
  /\ List.length (Selection.toggleTopClientSelection "c1" ["c1"; "c2"])
     = 1%nat.
Proof.
  assert (Hnd : NoDup ["c1"; "c2"]).
  { repeat constructor; cbn; intuition discriminate. }
  destruct (X12_toggle_flips_one_membership "c1" ["c1"; "c2"] Hnd)
    as (_ & Hflip & Hlen & _).
  split; [exact Hnd|].
  split; [reflexivity|].
  split; [exact (Hflip "c1") | exact Hlen].
Defined.

Lemma filter_either {A : Type} (p q : A -> bool) (l : list A) :
  (forall x, In x l -> p x = true -> q x = false) ->
  Permutation (filter (fun x => p x || q x) l)
              (filter p l ++ filter q l).
Proof.
  induction l as [|x l IH]; intros Hd; cbn [filter].
  - apply perm_nil.
  - assert (IH' : Permutation (filter (fun x => p x || q x) l)
                              (filter p l ++ filter q l)).
    { apply IH; intros y Hy; apply Hd; now right. }
    destruct (p x) eqn:Ep; cbn [orb].
    + rewrite (Hd x (or_introl eq_refl) Ep); cbn [app].
      now apply perm_skip.
    + destruct (q x).
      * apply Permutation_cons_app; exact IH'.
      * exact IH'.
Qed.

(** A part of a list of distinct clients is a list of distinct clients. *)
Lemma distinct_clients_kept (keep : Reports.TopClient -> bool)
      (cs : list Reports.TopClient) :
  NoDup (map Reports.tc_client_id cs) ->
  NoDup (map Reports.tc_client_id (filter keep cs)).
Proof.
  induction cs as [|c cs IH]; cbn [map filter]; [auto|].
  intros H; apply NoDup_cons_iff in H; destruct H as [Hc Hnd].
  destruct (keep c); [|now apply IH].
  cbn [map]; apply NoDup_cons_iff; split; [|now apply IH].
  intros Hin; apply Hc.
  apply in_map_iff in Hin; destruct Hin as (y & <- & Hy).
  apply in_map, (proj1 (filter_In keep y cs)), Hy.
Qed.

(** The rows of a list of distinct clients, client after client, are the
    rows of those clients. *)
Lemma rows_of_clients (rows : list Reports.ReportTransaction)
      (cs : list Reports.TopClient) :
  NoDup (map Reports.tc_client_id cs) ->
  Permutation
    (flat_map (fun c => Selection.ofClient (Reports.tc_client_id c) rows) cs)
    (Derived.ofClients
       (fun k => existsb (fun c => String.eqb (Reports.tc_client_id c) k) cs)
       rows).
Proof.
  unfold Derived.ofClients.
  induction cs as [|c cs IH]; cbn [map flat_map existsb]; intros Hnd.
  - induction rows as [|t rows IHr]; [apply perm_nil | exact IHr].
  - inversion Hnd as [|? ? Hc Hnd']; subst.
    eapply perm_trans; [apply Permutation_app_head, (IH Hnd')|].
    apply Permutation_sym.
    eapply perm_trans.
    + apply (filter_either
               (fun t => String.eqb (Reports.tc_client_id c)
                                    (Reports.client_id t))).
      intros t _ Ep; apply String.eqb_eq in Ep.
      destruct (existsb _ cs) eqn:E; [|reflexivity].
      exfalso; apply Hc.
      apply existsb_exists in E; destruct E as (c' & Hin & Ec').
      apply String.eqb_eq in Ec'; rewrite Ep, <- Ec'.
      now apply in_map.
    + apply Permutation_app_tail.
      unfold Selection.ofClient.
      rewrite (filter_ext _
                 (fun t => String.eqb (Reports.client_id t)
                                      (Reports.tc_client_id c)));
        [apply Permutation_refl|].
      intros t; apply String.eqb_sym.
Qed.

(** X13. The payload of a combined export has one entry per top client
    that is selected, named and coded as the top-client list names it.
    When the list names no client twice, the payload holds every cached
    KES row and every cached USD row of those clients exactly once, and
    no row of any other client.  The generator is reached only with a
    non-empty selection and a non-empty payload. *)
Theorem X13_combined_export_payload :
  forall (topClients : list Reports.TopClient)
         (selectedTopClientIds : Selection.IdSet)
         (kesTransactions usdTransactions : list Reports.ReportTransaction),
    NoDup (map Reports.tc_client_id topClients) ->
    let payload :=
      Selection.clientsPayload topClients selectedTopClientIds
                               kesTransactions usdTransactions in
    let picked := Derived.picked topClients selectedTopClientIds in
    map (fun e => client_name (Selection.pe_client e)) payload
    = map Reports.tc_client_name
          (Selection.selected topClients selectedTopClientIds)
    /\ map (fun e => client_code (Selection.pe_client e)) payload
       = map Reports.tc_client_code
             (Selection.selected topClients selectedTopClientIds)
    /\ Permutation (flat_map Selection.pe_transactionsKES payload)
                   (Derived.ofClients picked kesTransactions)
    /\ Permutation (flat_map Selection.pe_transactionsUSD payload)
                   (Derived.ofClients picked usdTransactions)
    /\ (forall generated,
           Selection.exportCombinedFromReports
             topClients selectedTopClientIds kesTransactions usdTransactions
           = Selection.Generate generated ->
           generated = payload /\ payload <> []
           /\ selectedTopClientIds <> []).
Proof.
  intros top ids kes usd Hnd payload picked.
  assert (Hsel : NoDup (map Reports.tc_client_id
                            (Selection.selected top ids)))
    by (now apply distinct_clients_kept).
  unfold payload, Selection.clientsPayload.
  split; [now rewrite map_map|].
  split; [now rewrite map_map|].
  split; [|split].
  - rewrite flat_map_concat_map, map_map, <- flat_map_concat_map.
    apply (rows_of_clients kes _ Hsel).
  - rewrite flat_map_concat_map, map_map, <- flat_map_concat_map.
    apply (rows_of_clients usd _ Hsel).
  - intros generated; unfold Selection.exportCombinedFromReports.
    destruct ids as [|i ids]; [discriminate|].
    fold (Selection.clientsPayload top (i :: ids) kes usd).
    destruct (Selection.clientsPayload top (i :: ids) kes usd) eqn:E;
      [discriminate|].
    intros [= <-]; repeat split; discriminate.
Qed.

(** X13 at the sample rows, clients c1 and c5 selected among the five
    ranked ones: three rows of c1 and two of c5 are handed on. *)
Lemma X13_combined_export_witness :
  let top := Reports.topClientsList Sample.kesRows Sample.usdRows in
  let payload :=
    Selection.clientsPayload top ["c5"; "c1"] Sample.kesRows Sample.usdRows
  in
  NoDup (map Reports.tc_client_id top)
  /\ map (fun e => client_name (Selection.pe_client e)) payload
     = ["Asha"; "Edna"]
  /\ map Reports.rt_id (flat_map Selection.pe_transactionsKES payload)
     = ["k1"; "k2"]
  /\ map Reports.rt_id (flat_map Selection.pe_transactionsUSD payload)
     = ["u1"; "u3"; "u4"].
Proof.
  intros top payload.
  assert (Hnd : NoDup (map Reports.tc_client_id top)).
  { repeat constructor; cbn; intuition discriminate. }
  destruct (X13_combined_export_payload
              top ["c5"; "c1"] Sample.kesRows Sample.usdRows Hnd)
    as (Hnames & _).
  split; [exact Hnd|].
  split; [exact Hnames|].
  split; reflexivity.
Defined.

(* ===================================================================== *)
(** ** Further properties: the handlers of the detail view *)
(* ===================================================================== *)

Lemma includes_In (l : list string) (s : string) :
  Ledger.includes l s = true <-> In s l.
Proof.
  unfold Ledger.includes; rewrite existsb_exists; split.
  - intros (x & Hin & E); apply String.eqb_eq in E; now subst.
  - intros Hin; exists s; split; [exact Hin | apply String.eqb_refl].
Qed.

Lemma form_types_disjoint (ty : string) :
  In ty Ledger.debitTypes -> In ty Ledger.creditTypes -> False.
Proof.
  unfold Ledger.debitTypes, Ledger.creditTypes; cbn [In].
  intros [<- | [<- | [<- | []]]] [H | [H | [H | []]]]; discriminate H.
Qed.

(** X14. The add and edit forms never put the amount on both sides: for
    every transaction type one of debit and credit is 0.  The types
    invoice, charge and expense put the amount in debit, the types
    payment, refund and credit put it in credit, and any other type
    leaves both at 0. *)
Theorem X14_form_amount_goes_to_one_side :
  forall (transactionType : string) (amount : Js.number),
    let debitSide := Ledger.formDebit transactionType amount in
    let creditSide := Ledger.formCredit transactionType amount in
    (debitSide = Some 0 \/ creditSide = Some 0)
    /\ (In transactionType ["invoice"; "charge"; "expense"] ->
        debitSide = amount /\ creditSide = Some 0)
    /\ (In transactionType ["payment"; "refund"; "credit"] ->
        debitSide = Some 0 /\ creditSide = amount)
    /\ (~ In transactionType
            ["invoice"; "charge"; "expense"; "payment"; "refund"; "credit"] ->
        debitSide = Some 0 /\ creditSide = Some 0).
Proof.
  intros ty amount debitSide creditSide; subst debitSide creditSide.
  unfold Ledger.formDebit, Ledger.formCredit.
  pose proof (includes_In Ledger.debitTypes ty) as Hd.
  pose proof (includes_In Ledger.creditTypes ty) as Hc.
  assert (Hall : In ty ["invoice"; "charge"; "expense";
                        "payment"; "refund"; "credit"]
                 <-> In ty Ledger.debitTypes \/ In ty Ledger.creditTypes).
  { change ["invoice"; "charge"; "expense"; "payment"; "refund"; "credit"]
      with (Ledger.debitTypes ++ Ledger.creditTypes)%list.
    apply in_app_iff. }
  change ["invoice"; "charge"; "expense"] with Ledger.debitTypes.
  change ["payment"; "refund"; "credit"] with Ledger.creditTypes.
  destruct (Ledger.includes Ledger.debitTypes ty),
           (Ledger.includes Ledger.creditTypes ty).
  - exfalso; apply (form_types_disjoint ty); [now apply Hd | now apply Hc].
  - split; [right; reflexivity|].
    split; [intros _; split; reflexivity|].
    split; [intros H; apply Hc in H; discriminate H|].
    intros H; exfalso; apply H, Hall; left; now apply Hd.
  - split; [left; reflexivity|].
    split; [intros H; apply Hd in H; discriminate H|].
    split; [intros _; split; reflexivity|].
    intros H; exfalso; apply H, Hall; right; now apply Hc.
  - split; [left; reflexivity|].
    split; [intros H; apply Hd in H; discriminate H|].
    split; [intros H; apply Hc in H; discriminate H|].
    intros _; split; reflexivity.
Qed.

Lemma withoutId_absent (i : string) (l : list Transaction) :
  ~ In i (map id l) -> Ledger.withoutId i l = l.
Proof.
  unfold Ledger.withoutId.
  induction l as [|t l IH]; cbn [map filter In]; [reflexivity|].
  intros H.
  destruct (String.eqb_spec (id t) i) as [E | Hne]; cbn [negb].
  - exfalso; apply H; now left.
  - rewrite IH; [reflexivity | intros Hin; apply H; now right].
Qed.





(** X16. A delete that the backend refuses, one asked while another
    submission runs, and one of an id the ledger does not hold all leave
    both ledgers and, when the stored summaries were those of the ledgers,
    both summaries as they were. *)
Theorem X16_delete_without_effect :
  forall (deleteError : bool) (transactionId : string)
         (currency : Ledger.Tab) (s : Ledger.DetailState),
    Derived.consistent s ->
    deleteError = true \/ Ledger.ds_submitting s = true
    \/ ~ In transactionId (map id (Derived.ledgerOf currency s)) ->
    let s' := Ledger.executeDelete deleteError transactionId currency s in
    Ledger.ds_transactionsKES s' = Ledger.ds_transactionsKES s
    /\ Ledger.ds_transactionsUSD s' = Ledger.ds_transactionsUSD s
    /\ Ledger.ds_summaryKES s' = Ledger.ds_summaryKES s
    /\ Ledger.ds_summaryUSD s' = Ledger.ds_summaryUSD s.
Proof.
  intros deleteError i cur s [Hck Hcu] H s'; subst s'.
  unfold Ledger.executeDelete.
  destruct (Ledger.ds_submitting s) eqn:Es; [repeat split; reflexivity|].
  destruct deleteError; [repeat split; reflexivity|].
  destruct H as [H | [H | H]]; try discriminate H.
  destruct cur; cbn [Derived.ledgerOf] in H;
    rewrite (withoutId_absent i _ H);
    cbn [Ledger.ds_transactionsKES Ledger.ds_transactionsUSD
           Ledger.ds_summaryKES Ledger.ds_summaryUSD];
    repeat split; congruence.
Qed.

(** X16 at scenario 6, deleting an id that is not there. *)
Lemma X16_delete_without_effect_witness :
  let s :=
    Ledger.loadClientData Sample.twoEntries []
      (Ledger.mkDetailState [] [] Spec.zeroSummary Spec.zeroSummary false) in
  Derived.consistent s
  /\ ~ In "t9" (map id (Derived.ledgerOf Ledger.TabKES s))
  /\ Ledger.ds_transactionsKES
       (Ledger.executeDelete false "t9" Ledger.TabKES s)
     = Sample.twoEntries
  /\ Ledger.ds_summaryKES (Ledger.executeDelete false "t9" Ledger.TabKES s)
     = Ledger.ds_summaryKES s.
Proof.
  intros s.
  assert (H1 : Derived.consistent s) by (split; reflexivity).
  assert (H2 : ~ In "t9" (map id (Derived.ledgerOf Ledger.TabKES s))).
  { cbn; intuition discriminate. }
  destruct (X16_delete_without_effect false "t9" Ledger.TabKES s H1
              (or_intror (or_intror H2)))
    as (Hk & _ & Hsk & _).
  split; [exact H1|].
  split; [exact H2|].
  split; [exact Hk | exact Hsk].
Defined.

(** X17. A confirmed insert puts the new transaction on top of its
    ledger: every older row keeps the balance it showed, the new top row
    shows the balance accumulated over the whole new list, and the Summary
    of the ledger is computed anew over the new list; the other currency
    is untouched. *)
Theorem X17_insert_keeps_older_balances :
  forall (currency : Ledger.Tab) (data : Transaction)
         (s : Ledger.DetailState),
    let s' := Ledger.addToState currency data s in
    Derived.ledgerOf currency s' = data :: Derived.ledgerOf currency s
    /\ ClientDetail.balanceColumn (Derived.ledgerOf currency s')
       = ClientDetail.runningBalance (Derived.ledgerOf currency s') 0
         :: ClientDetail.balanceColumn (Derived.ledgerOf currency s)
    /\ tl (ClientDetail.balanceColumn (Derived.ledgerOf currency s'))
       = ClientDetail.balanceColumn (Derived.ledgerOf currency s)
    /\ Derived.summaryOf currency s'
       = ClientDetail.calculateSummary (Derived.ledgerOf currency s')
    /\ Derived.ledgerOf (Derived.otherTab currency) s'
       = Derived.ledgerOf (Derived.otherTab currency) s
    /\ Derived.summaryOf (Derived.otherTab currency) s'
       = Derived.summaryOf (Derived.otherTab currency) s.
Proof.
  intros cur data s s'; subst s'.
  assert (Hcol : forall l,
             ClientDetail.balanceColumn (data :: l)
             = ClientDetail.runningBalance (data :: l) 0
               :: ClientDetail.balanceColumn l).
  { intros l; unfold ClientDetail.balanceColumn.
    cbn [List.length seq map]; apply f_equal.
    rewrite <- seq_shift, map_map.
    apply map_ext; intros i.
    unfold ClientDetail.runningBalance, Js.sliceFrom; reflexivity. }
  destruct cur;
    cbn [Ledger.addToState Derived.ledgerOf Derived.summaryOf
           Derived.otherTab Ledger.ds_transactionsKES
           Ledger.ds_transactionsUSD Ledger.ds_summaryKES
           Ledger.ds_summaryUSD];
    rewrite Hcol; repeat split.
Qed.

(** X17 at scenario 6, with a credit of 50 inserted: 650 on top of the
    600 and the 1000 shown before. *)
Lemma X17_insert_witness :
  let s :=
    Ledger.loadClientData Sample.twoEntries []
      (Ledger.mkDetailState [] [] Spec.zeroSummary Spec.zeroSummary false) in
  let data := Sample.tx "t3" "2024-01-12" "top-up" None (Some 50) in
  let s' := Ledger.addToState Ledger.TabKES data s in
  ClientDetail.balanceColumn (Ledger.ds_transactionsKES s) = [600; 1000]
  /\ ClientDetail.balanceColumn (Ledger.ds_transactionsKES s')
     = [650; 600; 1000]
  /\ tl (ClientDetail.balanceColumn (Ledger.ds_transactionsKES s'))
     = ClientDetail.balanceColumn (Ledger.ds_transactionsKES s).
Proof.
  intros s data s'.
  destruct (X17_insert_keeps_older_balances Ledger.TabKES data s)
    as (_ & _ & Htl & _).
  split; [reflexivity|].
  split; [reflexivity | exact Htl].
Defined.




Lemma pinRun_snoc (events : list Ledger.PinEvent) (e : Ledger.PinEvent)
      (s : Ledger.PinState) :
  Ledger.pinRun (events ++ [e]) s
  = Ledger.pinStep (Ledger.pinRun events s) e.
Proof. unfold Ledger.pinRun; now rewrite fold_left_app. Qed.

Lemma pinTyped_more (events : list Ledger.PinEvent) (e : Ledger.PinEvent) :
  Derived.pinTyped events -> Derived.pinTyped (events ++ [e]).
Proof.
  intros (typed & Hin & E); exists typed.
  split; [apply in_or_app; now left | exact E].
Qed.

Lemma pinGuarded_more (events : list Ledger.PinEvent) (e : Ledger.PinEvent)
      (r : Ledger.PinState * list Ledger.Effect) :
  Derived.pinGuarded events r -> Derived.pinGuarded (events ++ [e]) r.
Proof.
  intros (Ha & Hp & Hd & He).
  split; [intros a E; apply in_or_app; left; now apply Ha|].
  split; [intros E; now apply pinTyped_more, Hp|].
  split.
  - intros i cur Hin; destruct (Hd i cur Hin) as [H1 H2].
    split; [apply in_or_app; now left | now apply pinTyped_more].
  - intros t E; destruct (He t E) as [(cur & H1) H2].
    split; [exists cur; apply in_or_app; now left | now apply pinTyped_more].
Qed.

Lemma pinStep_guarded (events : list Ledger.PinEvent) (e : Ledger.PinEvent)
      (r : Ledger.PinState * list Ledger.Effect) :
  Derived.pinGuarded events r ->
  Derived.pinGuarded (events ++ [e]) (Ledger.pinStep r e).
Proof.
  intros H.
  pose proof (pinGuarded_more events e r H) as (Ha & Hp & Hd & He).
  assert (Hlast : In e (events ++ [e])) by (apply in_or_app; right; now left).
  destruct r as [s effs]; cbn [fst snd] in *.
  destruct e as [action | typed | | |]; cbn [Ledger.pinStep fst snd];
    unfold Derived.pinGuarded.
  - (* a request *)
    unfold Ledger.handlePinProtectedAction;
      cbn [fst snd Ledger.pinAction Ledger.pinInput
             Ledger.editingTransaction].
    split; [intros a [= <-]; exact Hlast|].
    split; [intros E; discriminate E|].
    split; [exact Hd | exact He].
  - (* typing *)
    unfold Ledger.changePinInput;
      cbn [fst snd Ledger.pinAction Ledger.pinInput
             Ledger.editingTransaction].
    split; [exact Ha|].
    split; [intros E; exists typed; split; [exact Hlast | exact E]|].
    split; [exact Hd | exact He].
  - (* verification *)
    unfold Ledger.verifyPinAndExecute.
    destruct (String.eqb_spec (Ledger.pinInput s) Ledger.correctPin)
      as [Epin | Epin]; cbn [negb].
    + specialize (Hp Epin).
      destruct (Ledger.pinAction s) as [[i cur | t cur]|] eqn:Eact;
        cbn [fst snd Ledger.pinAction Ledger.pinInput
               Ledger.editingTransaction].
      * split; [intros a E; discriminate E|].
        split; [intros E; discriminate E|].
        split; [|exact He].
        intros i' cur' Hin; apply in_app_or in Hin.
        destruct Hin as [Hin | [[= <- <-] | []]]; [now apply Hd|].
        split; [now apply Ha | exact Hp].
      * split; [intros a E; discriminate E|].
        split; [intros E; discriminate E|].
        split.
        -- intros i cur' Hin; rewrite app_nil_r in Hin; now apply Hd.
        -- intros t' [= <-]; split; [exists cur; now apply Ha | exact Hp].
      * split; [intros a E; discriminate E|].
        split; [intros E; discriminate E|].
        split; [|exact He].
        intros i cur Hin; rewrite app_nil_r in Hin; now apply Hd.
    + cbn [fst snd Ledger.pinAction Ledger.pinInput
             Ledger.editingTransaction].
      split; [exact Ha|].
      split; [intros E; discriminate E|].
      split; [|exact He].
      intros i cur Hin; apply in_app_or in Hin.
      destruct Hin as [Hin | [Hin | []]]; [now apply Hd | discriminate Hin].
  - (* cancelling *)
    unfold Ledger.cancelPin;
      cbn [fst snd Ledger.pinAction Ledger.pinInput
             Ledger.editingTransaction].
    split; [intros a E; discriminate E|].
    split; [intros E; discriminate E|].
    split; [exact Hd | exact He].
  - (* leaving the edit dialog *)
    unfold Ledger.closeEdit;
      cbn [fst snd Ledger.pinAction Ledger.pinInput
             Ledger.editingTransaction].
    split; [exact Ha|].
    split; [exact Hp|].
    split; [exact Hd | intros t E; discriminate E].
Qed.

Lemma pinRun_guarded (events : list Ledger.PinEvent) :
  Derived.pinGuarded events (Ledger.pinRun events Ledger.pinInitial).
Proof.
  induction events as [|e events IH] using rev_ind.
  - repeat split; cbn; intros; try discriminate; contradiction.
  - rewrite pinRun_snoc; now apply pinStep_guarded.
Qed.

(** X19. From a freshly mounted detail view, whatever the user requests,
    types, submits or cancels at the PIN challenge, a delete is handed to
    [executeDelete] only for a transaction whose delete was requested and
    only when the digits typed in the PIN field were 2580; likewise a
    transaction is open for editing only if its edit was requested and
    that PIN was typed.  A verification with any other PIN hands on
    nothing, keeps the pending action and empties the PIN field. *)
Theorem X19_pin_guards_delete_and_edit :
  forall events : list Ledger.PinEvent,
    let r := Ledger.pinRun events Ledger.pinInitial in
    let unlocked :=
      exists typed,
        In (Ledger.TypePin typed) events
        /\ Ledger.digitsOnly typed = "2580" in
    (forall transactionId currency,
        In (Ledger.CallExecuteDelete transactionId currency) (snd r) ->
        In (Ledger.Request (Ledger.DeleteAction transactionId currency))
           events
        /\ unlocked)
    /\ (forall t,
           Ledger.editingTransaction (fst r) = Some t ->
           (exists currency,
               In (Ledger.Request (Ledger.EditAction t currency)) events)
           /\ unlocked)
    /\ (forall s,
           Ledger.pinInput s <> "2580" ->
           let v := Ledger.verifyPinAndExecute s in
           snd v = [Ledger.ToastError "Incorrect PIN!"]
           /\ Ledger.pinAction (fst v) = Ledger.pinAction s
           /\ Ledger.editingTransaction (fst v) = Ledger.editingTransaction s
           /\ Ledger.showEditTransaction (fst v)
              = Ledger.showEditTransaction s
           /\ Ledger.showPinModal (fst v) = Ledger.showPinModal s
           /\ Ledger.pinInput (fst v) = EmptyString).
Proof.
  intros events r unlocked.
  destruct (pinRun_guarded events) as (_ & _ & Hd & He).
  split; [exact Hd|].
  split; [exact He|].
  intros s Hpin v; subst v; unfold Ledger.verifyPinAndExecute.
  destruct (String.eqb_spec (Ledger.pinInput s) Ledger.correctPin)
    as [E | E]; [contradiction|].
  repeat split.
Qed.


(* ===================================================================== *)
(** ** Binary64 arithmetic on whole numbers *)
(* ===================================================================== *)

(** Whole numbers of magnitude below [2^53] are doubles, and binary64
    adds and subtracts them without rounding as long as the result stays
    below [2^53]: this is proved here from the specification of the
    primitive operations, by following the rounding of [SpecFloat]. *)

Lemma iter_xO_value (m d : positive) :
  Zpos (Pos.iter xO m d) = Zpos m * 2 ^ Zpos d.
Proof.
  induction d as [|d IH] using Pos.peano_ind.
  - cbn [Pos.iter]; rewrite Pos2Z.inj_xO; change (2 ^ 1) with 2; ring.
  - rewrite Pos.iter_succ, Pos2Z.inj_succ, Z.pow_succ_r by lia.
    rewrite Pos2Z.inj_xO, IH; ring.
Qed.

Lemma iter_xO_digits (m d : positive) :
  digits2_pos (Pos.iter xO m d) = (digits2_pos m + d)%positive.
Proof.
  induction d as [|d IH] using Pos.peano_ind.
  - cbn; lia.
  - rewrite Pos.iter_succ; cbn [digits2_pos]; rewrite IH; lia.
Qed.

Lemma digits2_bounds (m : positive) :
  2 ^ (Zpos (digits2_pos m) - 1) <= Zpos m < 2 ^ Zpos (digits2_pos m).
Proof.
  induction m as [m IH | m IH |]; cbn [digits2_pos];
    rewrite ?Pos2Z.inj_succ.
  - replace (Z.succ (Zpos (digits2_pos m)) - 1)
      with (Z.succ (Zpos (digits2_pos m) - 1)) by lia.
    rewrite !Z.pow_succ_r by lia; lia.
  - replace (Z.succ (Zpos (digits2_pos m)) - 1)
      with (Z.succ (Zpos (digits2_pos m) - 1)) by lia.
    rewrite !Z.pow_succ_r by lia; lia.
  - cbn; lia.
Qed.

Lemma digits2_unique (m : positive) (d : Z) :
  2 ^ (d - 1) <= Zpos m < 2 ^ d -> Zpos (digits2_pos m) = d.
Proof.
  intros [Hlo Hhi].
  pose proof (digits2_bounds m) as [Hlo' Hhi'].
  assert (Hd : 0 < d).
  { destruct (Z_lt_le_dec 0 d) as [|Hle]; [assumption|].
    assert (2 ^ d <= 2 ^ 0) by (apply Z.pow_le_mono_r; lia).
    change (2 ^ 0) with 1 in *; lia. }
  destruct (Z_lt_le_dec (Zpos (digits2_pos m)) d) as [Hlt|Hge].
  - assert (2 ^ Zpos (digits2_pos m) <= 2 ^ (d - 1))
      by (apply Z.pow_le_mono_r; lia).
    lia.
  - destruct (Z_lt_le_dec d (Zpos (digits2_pos m))) as [Hlt|Hge'];
      [|lia].
    assert (2 ^ d <= 2 ^ (Zpos (digits2_pos m) - 1))
      by (apply Z.pow_le_mono_r; lia).
    lia.
Qed.

Lemma iter_pos_as_iter {A : Type} (f : A -> A) (n : positive) (x : A) :
  iter_pos f n x = Pos.iter f x n.
Proof.
  revert x; induction n as [n IH | n IH |]; intros x; cbn;
    rewrite ?IH; [|reflexivity..].
  now rewrite !Pos.iter_swap.
Qed.

(** Shifting out the zero bits a left shift brought in loses nothing. *)
Lemma shr_exact (z d : positive) :
  iter_pos shr_1 d
           {| shr_m := Zpos (Pos.iter xO z d);
              shr_r := false; shr_s := false |}
  = {| shr_m := Zpos z; shr_r := false; shr_s := false |}.
Proof.
  rewrite iter_pos_as_iter; revert z.
  induction d as [|d IH] using Pos.peano_ind; intros z.
  - reflexivity.
  - rewrite Pos.iter_succ_r, Pos.iter_succ; cbn [shr_1 orb].
    now rewrite <- (IH z).
Qed.

Lemma fexp_53 (e : Z) : -1021 <= e -> fexp prec emax e = e - 53.
Proof. intros H; unfold fexp, emin, prec, emax; lia. Qed.

(** A mantissa of 53 bits is left as it is. *)
Lemma round_aux_canonical (s : bool) (mz : positive) (ez : Z) :
  digits2_pos mz = 53%positive -> -1074 <= ez <= 971 ->
  binary_round_aux prec emax s (Zpos mz) ez loc_Exact
  = S754_finite s mz ez.
Proof.
  intros Hd Hez.
  unfold binary_round_aux, shr_fexp; cbn [Zdigits2 shr_record_of_loc].
  rewrite Hd, fexp_53 by lia.
  replace (53 + ez - 53 - ez) with 0 by lia.
  cbn [shr shr_m loc_of_shr_record round_nearest_even Zdigits2].
  rewrite Hd, fexp_53 by lia.
  replace (53 + ez - 53 - ez) with 0 by lia.
  cbn [shr shr_m shr_record_of_loc].
  replace (ez <=? emax - prec) with true; [reflexivity|].
  symmetry; apply Z.leb_le; unfold emax, prec; lia.
Qed.

(** Zero bits beyond the 53rd are shifted out exactly. *)
Lemma round_aux_shifted (s : bool) (z0 k : positive) (e0 : Z) :
  digits2_pos z0 = 53%positive -> -1074 <= e0 <= 971 ->
  binary_round_aux prec emax s (Zpos (Pos.iter xO z0 k)) (e0 - Zpos k)
                   loc_Exact
  = S754_finite s z0 e0.
Proof.
  intros Hd He.
  unfold binary_round_aux, shr_fexp; cbn [Zdigits2 shr_record_of_loc].
  rewrite iter_xO_digits, Hd, fexp_53 by lia.
  replace (Zpos (53 + k) + (e0 - Zpos k) - 53 - (e0 - Zpos k))
    with (Zpos k) by lia.
  cbn [shr]; rewrite shr_exact.
  cbn [shr_m loc_of_shr_record round_nearest_even Zdigits2
         shr_record_of_loc].
  rewrite Hd, fexp_53 by lia.
  replace (53 + (e0 - Zpos k + Zpos k) - 53 - (e0 - Zpos k + Zpos k))
    with 0 by lia.
  cbn [shr shr_m].
  replace (e0 - Zpos k + Zpos k <=? emax - prec) with true.
  - apply f_equal; lia.
  - symmetry; apply Z.leb_le; unfold emax, prec; lia.
Qed.

Lemma digits_below_2_53 (p : positive) :
  Zpos p < 2 ^ 53 -> Zpos (digits2_pos p) <= 53.
Proof.
  intros H; pose proof (digits2_bounds p) as [Hlo _].
  destruct (Z_lt_le_dec 53 (Zpos (digits2_pos p))) as [Hgt|]; [|assumption].
  assert (2 ^ 53 <= 2 ^ (Zpos (digits2_pos p) - 1))
    by (apply Z.pow_le_mono_r; lia).
  lia.
Qed.

Lemma mantissa_digits (p : positive) :
  Zpos p < 2 ^ 53 -> digits2_pos (Whole.mantissa p) = 53%positive.
Proof.
  intros H; apply digits_below_2_53 in H; unfold Whole.mantissa.
  destruct (53 - Zpos (digits2_pos p)) eqn:E; try lia.
  rewrite iter_xO_digits; lia.
Qed.

Lemma mantissa_value (p : positive) :
  Zpos p < 2 ^ 53 ->
  Zpos (Whole.mantissa p) = Zpos p * 2 ^ (53 - Zpos (digits2_pos p)).
Proof.
  intros H; apply digits_below_2_53 in H; unfold Whole.mantissa.
  destruct (53 - Zpos (digits2_pos p)) eqn:E; try lia.
  apply iter_xO_value.
Qed.

Lemma exponent_range (p : positive) :
  Zpos p < 2 ^ 53 -> -52 <= Whole.exponent p <= 0.
Proof.
  intros Hp; pose proof (digits_below_2_53 p Hp); unfold Whole.exponent; lia.
Qed.

(** Rounding the mantissa [m = c * 2^k] at exponent [-k], for a whole
    number [c] below [2^53], gives the encoding of [c]. *)
Lemma binary_round_integer (s : bool) (m c : positive) (k : Z) :
  Zpos c < 2 ^ 53 -> 0 <= k <= 60 -> Zpos m = Zpos c * 2 ^ k ->
  binary_round prec emax s m (- k)
  = S754_finite s (Whole.mantissa c) (Whole.exponent c).
Proof.
  intros Hc Hk Hm.
  pose proof (digits_below_2_53 c Hc) as Hdc.
  pose proof (digits2_bounds c) as Hbc.
  assert (Hdm : Zpos (digits2_pos m) = Zpos (digits2_pos c) + k).
  { apply digits2_unique; rewrite Hm.
    replace (Zpos (digits2_pos c) + k - 1)
      with ((Zpos (digits2_pos c) - 1) + k) by lia.
    rewrite !Z.pow_add_r by lia.
    assert (0 < 2 ^ k) by (apply Z.pow_pos_nonneg; lia).
    nia. }
  unfold binary_round; rewrite Hdm, fexp_53 by lia.
  unfold shl_align.
  destruct (Z.compare_spec k (53 - Zpos (digits2_pos c))) as [Heq|Hlt|Hgt].
  - replace (Zpos (digits2_pos c) + k + - k - 53 - - k) with 0 by lia.
    assert (Hmc : m = Whole.mantissa c).
    { apply Pos2Z.inj; rewrite mantissa_value by assumption.
      now rewrite Hm, Heq. }
    rewrite Hmc; unfold Whole.exponent.
    replace (Zpos (digits2_pos c) - 53) with (- k) by lia.
    apply round_aux_canonical; [now apply mantissa_digits | lia].
  - destruct (Zpos (digits2_pos c) + k + - k - 53 - - k) eqn:E; try lia.
    assert (Hmc : Pos.iter xO m p = Whole.mantissa c).
    { apply Pos2Z.inj.
      rewrite iter_xO_value, mantissa_value, Hm by assumption.
      rewrite <- Z.mul_assoc, <- Z.pow_add_r by lia.
      apply f_equal, f_equal; lia. }
    rewrite Hmc; unfold Whole.exponent.
    replace (Zpos (digits2_pos c) + k + - k - 53)
      with (Zpos (digits2_pos c) - 53) by lia.
    apply round_aux_canonical; [now apply mantissa_digits | lia].
  - destruct (Zpos (digits2_pos c) + k + - k - 53 - - k) eqn:E; try lia.
    assert (Hmc : m = Pos.iter xO (Whole.mantissa c) p).
    { apply Pos2Z.inj.
      rewrite iter_xO_value, mantissa_value, Hm by assumption.
      rewrite <- Z.mul_assoc, <- Z.pow_add_r by lia.
      apply f_equal, f_equal; lia. }
    rewrite Hmc; unfold Whole.exponent.
    replace (- k) with (Zpos (digits2_pos c) - 53 - Zpos p) by lia.
    apply round_aux_shifted; [now apply mantissa_digits | lia].
Qed.

Lemma normalize_integer (M z k : Z) :
  Z.abs z < 2 ^ 53 -> 0 <= k <= 60 -> M = z * 2 ^ k ->
  binary_normalize prec emax M (- k) false = Whole.encoding z.
Proof.
  intros Hz Hk HM.
  assert (H2 : 0 < 2 ^ k) by (apply Z.pow_pos_nonneg; lia).
  destruct z as [|c|c].
  - cbn in HM; subst M; reflexivity.
  - destruct M as [|m|m]; try nia.
    cbn [binary_normalize Whole.encoding].
    apply binary_round_integer; [exact Hz | lia | exact HM].
  - destruct M as [|m|m]; try nia.
    cbn [binary_normalize Whole.encoding].
    apply binary_round_integer; [exact Hz | lia |].
    change (Zneg m) with (- Zpos m) in HM.
    change (Zneg c) with (- Zpos c) in HM; nia.
Qed.

(** The double of a whole number below [2^53] encodes that number. *)
Lemma encoding_ofZ (z : Z) :
  Z.abs z < 2 ^ 53 -> Prim2SF (Binary64.ofZ z) = Whole.encoding z.
Proof.
  intros Hz.
  assert (Hpos : forall p,
             Zpos p < 2 ^ 53 ->
             Prim2SF (PrimFloat.of_uint63 (Uint63.of_Z (Zpos p)))
             = Whole.encoding (Zpos p)).
  { intros p Hp; rewrite FloatAxioms.of_uint63_spec, Uint63.of_Z_spec.
    rewrite Z.mod_small.
    - apply (normalize_integer (Zpos p) (Zpos p) 0);
        [exact Hp | lia | cbn; lia].
    - split; [lia|].
      apply Z.lt_trans with (2 ^ 53); [exact Hp | reflexivity]. }
  destruct z as [|p|p].
  - reflexivity.
  - apply Hpos; exact Hz.
  - cbn [Binary64.ofZ]; rewrite FloatAxioms.opp_spec, Hpos by exact Hz.
    reflexivity.
Qed.

Lemma shl_align_value (mx : positive) (ex ex' : Z) :
  ex' <= ex ->
  Zpos (fst (shl_align mx ex ex')) = Zpos mx * 2 ^ (ex - ex').
Proof.
  intros H; unfold shl_align.
  destruct (ex' - ex) eqn:E; try lia.
  - replace (ex - ex') with 0 by lia; cbn [fst].
    change (2 ^ 0) with 1; lia.
  - cbn [fst]; rewrite iter_xO_value; apply f_equal, f_equal; lia.
Qed.

Lemma encoding_aligned (p : positive) (ez : Z) :
  Zpos p < 2 ^ 53 -> -52 <= ez <= Whole.exponent p ->
  Zpos (fst (shl_align (Whole.mantissa p) (Whole.exponent p) ez))
  = Zpos p * 2 ^ (- ez).
Proof.
  intros Hp Hez.
  pose proof (digits_below_2_53 p Hp).
  rewrite shl_align_value by lia.
  rewrite mantissa_value by assumption.
  rewrite <- Z.mul_assoc, <- Z.pow_add_r by (unfold Whole.exponent in *; lia).
  apply f_equal, f_equal; unfold Whole.exponent; lia.
Qed.

Lemma SFadd_integer (a b : Z) :
  Z.abs a < 2 ^ 53 -> Z.abs b < 2 ^ 53 -> Z.abs (a + b) < 2 ^ 53 ->
  SF64add (Whole.encoding a) (Whole.encoding b) = Whole.encoding (a + b).
Proof.
  intros Ha Hb Hab.
  destruct a as [|p|p]; destruct b as [|q|q]; try reflexivity;
    unfold SF64add; cbn [Whole.encoding SFadd];
    pose proof (exponent_range p Ha); pose proof (exponent_range q Hb);
    set (ez := Z.min (Whole.exponent p) (Whole.exponent q));
    (replace ez with (- (- ez)) at 3 by lia);
    (apply normalize_integer; [exact Hab | lia |]);
    rewrite !encoding_aligned by (try assumption; lia);
    cbn [cond_Zopp]; lia.
Qed.

Lemma SFsub_integer (a b : Z) :
  Z.abs a < 2 ^ 53 -> Z.abs b < 2 ^ 53 -> Z.abs (a - b) < 2 ^ 53 ->
  SF64sub (Whole.encoding a) (Whole.encoding b) = Whole.encoding (a - b).
Proof.
  intros Ha Hb Hab.
  destruct a as [|p|p]; destruct b as [|q|q]; try reflexivity;
    unfold SF64sub; cbn [Whole.encoding SFsub];
    pose proof (exponent_range p Ha); pose proof (exponent_range q Hb);
    set (ez := Z.min (Whole.exponent p) (Whole.exponent q));
    (replace ez with (- (- ez)) at 3 by lia);
    (apply normalize_integer; [exact Hab | lia |]);
    rewrite !encoding_aligned by (try assumption; lia);
    cbn [cond_Zopp]; lia.
Qed.

(** Binary64 adds whole numbers exactly below [2^53]. *)
Lemma ofZ_add (a b : Z) :
  Z.abs a < 2 ^ 53 -> Z.abs b < 2 ^ 53 -> Z.abs (a + b) < 2 ^ 53 ->
  PrimFloat.add (Binary64.ofZ a) (Binary64.ofZ b) = Binary64.ofZ (a + b).
Proof.
  intros Ha Hb Hab; apply Prim2SF_inj.
  rewrite FloatAxioms.add_spec, !encoding_ofZ by assumption.
  now apply SFadd_integer.
Qed.

(** Binary64 subtracts whole numbers exactly below [2^53]. *)
Lemma ofZ_sub (a b : Z) :
  Z.abs a < 2 ^ 53 -> Z.abs b < 2 ^ 53 -> Z.abs (a - b) < 2 ^ 53 ->
  PrimFloat.sub (Binary64.ofZ a) (Binary64.ofZ b) = Binary64.ofZ (a - b).
Proof.
  intros Ha Hb Hab; apply Prim2SF_inj.
  rewrite FloatAxioms.sub_spec, !encoding_ofZ by assumption.
  now apply SFsub_integer.
Qed.

(** The double of a whole number is a number, and is zero only for 0. *)
Lemma ofZ_truthy (z : Z) :
  Z.abs z < 2 ^ 53 -> Binary64.truthy (Binary64.ofZ z) = negb (z =? 0).
Proof.
  intros Hz; unfold Binary64.truthy, PrimFloat.is_nan, PrimFloat.is_zero.
  rewrite !FloatAxioms.eqb_spec, encoding_ofZ by assumption.
  change (Prim2SF PrimFloat.zero) with (S754_zero false).
  destruct z as [|p|p]; cbn [Whole.encoding]; unfold SFeqb, SFcompare;
    rewrite ?Z.compare_refl, ?Pos.compare_cont_refl; reflexivity.
Qed.

(** [x || 0] on a whole amount is that amount. *)
Lemma or0_whole (x : Js.number) :
  Z.abs (Spec.amount x) < 2 ^ 53 ->
  Binary64.or0 (Whole.number x) = Binary64.ofZ (Spec.amount x).
Proof.
  destruct x as [v|]; cbn [Whole.number option_map Binary64.or0 Spec.amount];
    [|reflexivity].
  intros Hv; rewrite ofZ_truthy by exact Hv.
  destruct (Z.eqb_spec v 0) as [-> | Hne]; reflexivity.
Qed.

(* ===================================================================== *)
(** ** Ledgers of whole amounts in binary64 *)
(* ===================================================================== *)

Lemma volume_nonneg (l : list Transaction) : 0 <= Whole.volume l.
Proof. induction l as [|t l IH]; cbn [Whole.volume]; lia. Qed.

Lemma volume_sums (l : list Transaction) :
  Z.abs (Spec.sumCredits l) + Z.abs (Spec.sumDebits l) <= Whole.volume l.
Proof.
  induction l as [|t l IH];
    cbn [Whole.volume Spec.sumCredits Spec.sumDebits]; lia.
Qed.

Lemma volume_perm (l1 l2 : list Transaction) :
  Permutation l1 l2 -> Whole.volume l1 = Whole.volume l2.
Proof. induction 1; cbn [Whole.volume]; lia. Qed.

Lemma volume_app (l1 l2 : list Transaction) :
  Whole.volume (l1 ++ l2) = Whole.volume l1 + Whole.volume l2.
Proof. induction l1 as [|t l1 IH]; cbn [app Whole.volume]; lia. Qed.

Lemma volume_skipn (i : nat) (l : list Transaction) :
  Whole.volume (skipn i l) <= Whole.volume l.
Proof.
  revert l; induction i as [|i IH]; intros [|t l];
    cbn [skipn Whole.volume]; try lia.
  specialize (IH l); lia.
Qed.

(** The loop of the statement generator's summary on a whole ledger. *)
Lemma summaryStep_whole (l : list Transaction) (p r : Z) :
  Z.abs p + Z.abs r + Whole.volume l < 2 ^ 53 ->
  fold_left PdfGenerator64.summaryStep (Whole.ledger l)
            (Binary64.ofZ p, Binary64.ofZ r)
  = (Binary64.ofZ (p + Spec.sumCredits l),
     Binary64.ofZ (r + Spec.sumDebits l)).
Proof.
  revert p r; induction l as [|t l IH]; intros p r H.
  - cbn [Whole.ledger map fold_left Spec.sumCredits Spec.sumDebits].
    now rewrite !Z.add_0_r.
  - pose proof (volume_nonneg l) as Hv.
    cbn [Whole.volume] in H.
    cbn [Whole.ledger map fold_left Spec.sumCredits Spec.sumDebits].
    fold (Whole.ledger l).
    unfold PdfGenerator64.summaryStep at 2.
    cbn [fst snd Whole.transaction Binary64.credit Binary64.debit].
    rewrite !or0_whole, !ofZ_add by lia.
    rewrite IH by lia.
    apply f_equal2; apply f_equal; lia.
Qed.

Lemma pdf_summary_whole (l : list Transaction) :
  Whole.volume l < 2 ^ 53 ->
  PdfGenerator64.calculateSummary (Whole.ledger l)
  = Whole.summary (Spec.ledgerSummary l).
Proof.
  intros H; pose proof (volume_sums l) as Hs.
  unfold PdfGenerator64.calculateSummary.
  change (PrimFloat.zero, PrimFloat.zero)
    with (Binary64.ofZ 0, Binary64.ofZ 0).
  rewrite summaryStep_whole by (cbn; lia).
  cbn [fst snd Z.add]; rewrite ofZ_sub by lia.
  reflexivity.
Qed.

Lemma reduce_credit_whole (l : list Transaction) (z : Z) :
  Z.abs z + Whole.volume l < 2 ^ 53 ->
  fold_left
    (fun sum t => PrimFloat.add sum (Binary64.or0 (Binary64.credit t)))
    (Whole.ledger l) (Binary64.ofZ z)
  = Binary64.ofZ (z + Spec.sumCredits l).
Proof.
  revert z; induction l as [|t l IH]; intros z H.
  - cbn [Whole.ledger map fold_left Spec.sumCredits]; now rewrite Z.add_0_r.
  - pose proof (volume_nonneg l) as Hv.
    cbn [Whole.volume] in H.
    cbn [Whole.ledger map fold_left Spec.sumCredits].
    fold (Whole.ledger l).
    cbn [Whole.transaction Binary64.credit].
    rewrite or0_whole, ofZ_add by lia.
    rewrite IH by lia.
    apply f_equal; lia.
Qed.

Lemma reduce_debit_whole (l : list Transaction) (z : Z) :
  Z.abs z + Whole.volume l < 2 ^ 53 ->
  fold_left
    (fun sum t => PrimFloat.add sum (Binary64.or0 (Binary64.debit t)))
    (Whole.ledger l) (Binary64.ofZ z)
  = Binary64.ofZ (z + Spec.sumDebits l).
Proof.
  revert z; induction l as [|t l IH]; intros z H.
  - cbn [Whole.ledger map fold_left Spec.sumDebits]; now rewrite Z.add_0_r.
  - pose proof (volume_nonneg l) as Hv.
    cbn [Whole.volume] in H.
    cbn [Whole.ledger map fold_left Spec.sumDebits].
    fold (Whole.ledger l).
    cbn [Whole.transaction Binary64.debit].
    rewrite or0_whole, ofZ_add by lia.
    rewrite IH by lia.
    apply f_equal; lia.
Qed.

Lemma detail_summary_whole (l : list Transaction) :
  Whole.volume l < 2 ^ 53 ->
  ClientDetail64.calculateSummary (Whole.ledger l)
  = Whole.summary (Spec.ledgerSummary l).
Proof.
  intros H; pose proof (volume_sums l) as Hs.
  unfold ClientDetail64.calculateSummary.
  change PrimFloat.zero with (Binary64.ofZ 0).
  rewrite reduce_credit_whole, reduce_debit_whole by (cbn; lia).
  cbn [Z.add]; rewrite ofZ_sub by lia.
  reflexivity.
Qed.

(** The reduction behind the balance column on a whole ledger. *)
Lemma reduce_net_whole (l : list Transaction) (z : Z) :
  Z.abs z + Whole.volume l < 2 ^ 53 ->
  fold_left
    (fun sum t =>
       PrimFloat.sub
         (PrimFloat.add sum (Binary64.or0 (Binary64.credit t)))
         (Binary64.or0 (Binary64.debit t)))
    (Whole.ledger l) (Binary64.ofZ z)
  = Binary64.ofZ (z + Spec.netSum l).
Proof.
  revert z; induction l as [|t l IH]; intros z H.
  - cbn [Whole.ledger map fold_left Spec.netSum]; now rewrite Z.add_0_r.
  - pose proof (volume_nonneg l) as Hv.
    cbn [Whole.volume] in H.
    cbn [Whole.ledger map fold_left Spec.netSum].
    fold (Whole.ledger l).
    cbn [Whole.transaction Binary64.credit Binary64.debit].
    rewrite !or0_whole, ofZ_add, ofZ_sub by lia.
    rewrite IH by lia.
    apply f_equal; lia.
Qed.

(** The running balances of the statement on a whole ledger. *)
Lemma runBalances_whole (l : list Transaction) (r : Z) :
  Z.abs r + Whole.volume l < 2 ^ 53 ->
  PdfGenerator64.runBalances (Binary64.ofZ r) (Whole.ledger l)
  = map Binary64.ofZ (PdfGenerator.runBalances r l).
Proof.
  revert r; induction l as [|t l IH]; intros r H.
  - reflexivity.
  - pose proof (volume_nonneg l) as Hv.
    cbn [Whole.volume] in H.
    cbn [Whole.ledger map PdfGenerator64.runBalances
           PdfGenerator.runBalances].
    fold (Whole.ledger l).
    cbn [Whole.transaction Binary64.credit Binary64.debit].
    rewrite (amount_or0 (credit t)), (amount_or0 (debit t)).
    rewrite !or0_whole, ofZ_sub, ofZ_add by lia.
    rewrite IH by lia.
    reflexivity.
Qed.

Section SortMap.
Context {A B : Type}.
Variable f : A -> B.
Variable cmpA : A -> A -> Z.
Variable cmpB : B -> B -> Z.
Hypothesis cmp_f : forall x y, cmpB (f x) (f y) = cmpA x y.

Lemma insert_map (x : A) (l : list A) :
  Js.insert cmpB (f x) (map f l) = map f (Js.insert cmpA x l).
Proof.
  induction l as [|y l IH]; cbn [map Js.insert].
  - reflexivity.
  - rewrite cmp_f; destruct (cmpA x y <=? 0); cbn [map];
      [reflexivity | now rewrite IH].
Qed.

(** Sorting the images is sorting the originals. *)
Lemma sort_map (l : list A) :
  Js.sort cmpB (map f l) = map f (Js.sort cmpA l).
Proof.
  unfold Js.sort; induction l as [|x l IH]; cbn [map fold_right].
  - reflexivity.
  - rewrite IH; apply insert_map.
Qed.

End SortMap.

Lemma sortByDate_whole (getTime : string -> Z) (l : list Transaction) :
  PdfGenerator64.sortByDate getTime (Whole.ledger l)
  = Whole.ledger (PdfGenerator.sortByDate getTime l).
Proof.
  unfold PdfGenerator64.sortByDate, PdfGenerator.sortByDate, Whole.ledger.
  apply sort_map; reflexivity.
Qed.

Lemma runningBalance_whole (l : list Transaction) (i : nat) :
  Whole.volume l < 2 ^ 53 ->
  ClientDetail64.runningBalance (Whole.ledger l) i
  = Binary64.ofZ (Spec.netSum (skipn i l)).
Proof.
  intros H; pose proof (volume_skipn i l) as Hs.
  unfold ClientDetail64.runningBalance, Js.sliceFrom, Whole.ledger.
  rewrite skipn_map; fold (Whole.ledger (skipn i l)).
  change PrimFloat.zero with (Binary64.ofZ 0).
  rewrite reduce_net_whole by (cbn; lia).
  reflexivity.
Qed.

(* ===================================================================== *)
(** ** Statements and balance columns in binary64 *)
(* ===================================================================== *)

Section StatementTable64.
Variable getTime : string -> Z.
Variable toLocaleDateString : string -> string.
Variable formatCurrency : float -> Currency -> string.

Lemma runBalances64_length (l : list Binary64.Transaction) (runBal : float) :
  List.length (PdfGenerator64.runBalances runBal l) = List.length l.
Proof.
  revert runBal; induction l as [|t l IH]; intros runBal;
    cbn [PdfGenerator64.runBalances List.length]; [reflexivity|].
  now rewrite IH.
Qed.

(** The fifth cell of each row prints the value [runBal] had there. *)
Lemma mapRows64_balance_cells (sym : Currency)
      (l : list Binary64.Transaction) (runBal : float) :
  map (fun row => nth 4 row EmptyString)
      (PdfGenerator64.mapRows toLocaleDateString formatCurrency sym runBal l)
  = map (fun v => PdfGenerator64.signedCurrency formatCurrency v sym)
        (PdfGenerator64.runBalances runBal l).
Proof.
  revert runBal; induction l as [|t l IH]; intros runBal.
  - reflexivity.
  - cbn [PdfGenerator64.mapRows PdfGenerator64.runBalances
           PdfGenerator64.tableRow map nth].
    now rewrite IH.
Qed.

Lemma sortByDate64_sorted (l : list Binary64.Transaction) :
  StronglySorted (Rounded.notAfter getTime)
                 (PdfGenerator64.sortByDate getTime l).
Proof.
  apply sort_sorted; unfold Rounded.notAfter, PdfGenerator64.byDate;
    intros; lia.
Qed.

End StatementTable64.

Lemma or0_amount (x : Binary64.number) : Binary64.or0 x = Rounded.amount x.
Proof.
  destruct x as [v|]; cbn [Binary64.or0 Rounded.amount]; [|reflexivity].
  unfold Binary64.truthy.
  destruct (PrimFloat.is_nan v), (PrimFloat.is_zero v); reflexivity.
Qed.

Lemma reduce_net64 (l : list Binary64.Transaction) (start : float) :
  fold_left
    (fun sum t =>
       PrimFloat.sub
         (PrimFloat.add sum (Binary64.or0 (Binary64.credit t)))
         (Binary64.or0 (Binary64.debit t)))
    l start
  = Rounded.netFrom start l.
Proof.
  revert start; induction l as [|t l IH]; intros start;
    cbn [fold_left Rounded.netFrom]; [reflexivity|].
  now rewrite IH, !or0_amount.
Qed.

Lemma balanceColumn64_nth (l : list Binary64.Transaction) (i : nat) :
  nth_error (ClientDetail64.balanceColumn l) i
  = if (i <? List.length l)%nat
    then Some (ClientDetail64.runningBalance l i)
    else None.
Proof.
  unfold ClientDetail64.balanceColumn.
  destruct (Nat.ltb_spec i (List.length l)) as [Hlt | Hge].
  - rewrite nth_error_map, nth_error_seq.
    apply Nat.ltb_lt in Hlt; rewrite Hlt; reflexivity.
  - apply nth_error_None; rewrite length_map, length_seq; exact Hge.
Qed.

Lemma leibniz_neq (x y : float) :
  PrimFloat.Leibniz.eqb x y = false -> x <> y.
Proof.
  intros H E; apply FloatAxioms.Leibniz.eqb_spec in E.
  rewrite E in H; discriminate H.
Qed.


Lemma last_map {A B : Type} (f : A -> B) (l : list A) (d : A) :
  last (map f l) (f d) = f (last l d).
Proof.
  induction l as [|x [|y l] IH]; [reflexivity | reflexivity |].
  exact IH.
Qed.

(** C2, as stated, fails on amounts in hundredths.  For the rows 0.10
    in, 0.40 out, 0.30 in, in date order, the running balance of the last
    row is a negative rounding residue (about -5.55e-17, printed with a
    minus sign) while the balance of the Summary of the same list is 0. *)
Lemma C2_cents_counterexample :
  last (PdfGenerator64.runBalances
          PrimFloat.zero
          (PdfGenerator64.sortByDate Sample.dateOrdinal SampleCents.ascending))
       PrimFloat.zero
  <> Binary64.balance (PdfGenerator64.calculateSummary SampleCents.ascending)
  /\ PrimFloat.ltb
       (last (PdfGenerator64.runBalances
                PrimFloat.zero
                (PdfGenerator64.sortByDate Sample.dateOrdinal
                                           SampleCents.ascending))
             PrimFloat.zero)
       PrimFloat.zero
     = true
  /\ Binary64.balance (PdfGenerator64.calculateSummary SampleCents.ascending)
     = PrimFloat.zero.
Proof.
  split; [apply leibniz_neq; vm_compute; reflexivity|].
  split; vm_compute; reflexivity.
Qed.

(** C2, amended.  For every transaction list the statement table has one
    row per transaction, taken in ascending date order, and the balance
    cell of each row prints the running balance accumulated from zero as
    credit - debit.  When the amounts are whole numbers whose magnitudes
    add up to less than 2^53, the running balance of row [k] is the sum of
    credit - debit over the first [k+1] rows, and the running balance of
    the last row equals the balance of the Summary computed over the same
    list (by the statement generator's [calculateSummary] as by the detail
    view's), both being the sum of the credits minus the sum of the
    debits. *)
Theorem C2_last_running_balance_is_summary_balance :
  forall (getTime : string -> Z) (toLocaleDateString : string -> string)
         (formatCurrency : float -> Currency -> string)
         (ledger : list Binary64.Transaction) (sym : Currency),
    let rows :=
      PdfGenerator64.buildTableData getTime toLocaleDateString
                                    formatCurrency ledger sym in
    let sorted := PdfGenerator64.sortByDate getTime ledger in
    let running := PdfGenerator64.runBalances PrimFloat.zero sorted in
    List.length rows = List.length ledger
    /\ map (fun row => nth 4 row EmptyString) rows
       = map (fun v => PdfGenerator64.signedCurrency formatCurrency v sym)
             running
    /\ Permutation sorted ledger
    /\ StronglySorted (Rounded.notAfter getTime) sorted
    /\ forall txns : list Transaction,
        ledger = Whole.ledger txns ->
        Whole.volume txns < 2 ^ 53 ->
        (exists ascending : list Transaction,
            sorted = Whole.ledger ascending
            /\ Permutation ascending txns
            /\ StronglySorted (Spec.notAfter getTime) ascending
            /\ forall k : nat,
                nth_error running k
                = if (k <? List.length txns)%nat
                  then Some (Binary64.ofZ
                               (Spec.netSum (firstn (S k) ascending)))
                  else None)
        /\ last running PrimFloat.zero
           = Binary64.ofZ (Spec.sumCredits txns - Spec.sumDebits txns)
        /\ last running PrimFloat.zero
           = Binary64.balance (PdfGenerator64.calculateSummary ledger)
        /\ last running PrimFloat.zero
           = Binary64.balance (ClientDetail64.calculateSummary ledger).
Proof.
  intros getTime toLoc fc ledger sym rows sorted running.
  assert (Hcells :
            map (fun row => nth 4 row EmptyString) rows
            = map (fun v => PdfGenerator64.signedCurrency fc v sym) running)
    by apply mapRows64_balance_cells.
  assert (Hperm : Permutation sorted ledger) by apply sort_perm.
  split.
  { rewrite <- (length_map (fun row => nth 4 row EmptyString)), Hcells.
    rewrite length_map; unfold running; rewrite runBalances64_length.
    apply (Permutation_length Hperm). }
  split; [exact Hcells|].
  split; [exact Hperm|].
  split; [apply sortByDate64_sorted|].
  intros txns -> Hvol.
  set (ascending := PdfGenerator.sortByDate getTime txns).
  assert (Hasc : Permutation ascending txns) by apply sort_perm.
  assert (Hsorted : sorted = Whole.ledger ascending)
    by apply sortByDate_whole.
  assert (Hrun : running
                 = map Binary64.ofZ (PdfGenerator.runBalances 0 ascending)).
  { unfold running; rewrite Hsorted.
    change PrimFloat.zero with (Binary64.ofZ 0).
    apply runBalances_whole.
    rewrite (volume_perm _ _ Hasc); cbn; lia. }
  assert (Hlast : last running PrimFloat.zero
                  = Binary64.ofZ (Spec.sumCredits txns - Spec.sumDebits txns)).
  { rewrite Hrun; change PrimFloat.zero with (Binary64.ofZ 0).
    rewrite last_map, runBalances_last.
    rewrite (netSum_perm _ _ Hasc), netSum_split.
    apply f_equal; lia. }
  split; [|split; [exact Hlast | split]].
  - exists ascending.
    split; [exact Hsorted|].
    split; [exact Hasc|].
    split; [apply sortByDate_sorted|].
    intros k; rewrite Hrun, nth_error_map, runBalances_nth.
    rewrite (Permutation_length Hasc).
    destruct (k <? List.length txns)%nat; reflexivity.
  - now rewrite Hlast, pdf_summary_whole.
  - now rewrite Hlast, detail_summary_whole.
Qed.

(** C2 at scenario 6 (credit 1000, then debit 400): the last row and the
    Summary both show 600. *)
Lemma C2_whole_amounts_witness :
  Whole.volume Sample.twoEntries < 2 ^ 53
  /\ last (PdfGenerator64.runBalances
             PrimFloat.zero
             (PdfGenerator64.sortByDate
                Sample.dateOrdinal (Whole.ledger Sample.twoEntries)))
          PrimFloat.zero
     = Binary64.balance
         (PdfGenerator64.calculateSummary (Whole.ledger Sample.twoEntries))
  /\ last (PdfGenerator64.runBalances
             PrimFloat.zero
             (PdfGenerator64.sortByDate
                Sample.dateOrdinal (Whole.ledger Sample.twoEntries)))
          PrimFloat.zero
     = Binary64.ofZ 600.
Proof.
  assert (H : Whole.volume Sample.twoEntries < 2 ^ 53) by reflexivity.
  destruct (C2_last_running_balance_is_summary_balance
              Sample.dateOrdinal Sample.showDate SampleCents.showCurrency
              (Whole.ledger Sample.twoEntries) KES)
    as (_ & _ & _ & _ & Hwhole).
  destruct (Hwhole Sample.twoEntries eq_refl H) as (_ & Hv & Hb & _).
  split; [exact H|].
  split; [exact Hb | exact Hv].
Defined.

(** C10, as stated, fails on amounts in hundredths.  For the rows shown
    as 0.30 in, 0.40 out, 0.10 in, the topmost row shows a negative
    rounding residue (about -2.78e-17) while the balance of the Summary of
    the same list is 0. *)
Lemma C10_cents_counterexample :
  ClientDetail64.runningBalance SampleCents.displayed 0
  <> Binary64.balance (ClientDetail64.calculateSummary SampleCents.displayed)
  /\ PrimFloat.ltb (ClientDetail64.runningBalance SampleCents.displayed 0)
                   PrimFloat.zero
     = true
  /\ Binary64.balance (ClientDetail64.calculateSummary SampleCents.displayed)
     = PrimFloat.zero.
Proof.
  split; [apply leibniz_neq; vm_compute; reflexivity|].
  split; vm_compute; reflexivity.
Qed.

(** C10, amended.  For every transaction list held in the display order
    of the detail view, the balance shown on the row at index [i] is what
    results when, starting from zero, each transaction at indices [i] to
    the end in turn has its credit added and its debit subtracted.  When
    the amounts are whole numbers whose magnitudes add up to less than
    2^53 this is the sum of credit - debit over those transactions, and
    the topmost row shows the balance of the Summary computed over the
    same list. *)
Theorem C10_displayed_balance_is_suffix_sum :
  forall (ledger : list Binary64.Transaction) (i : nat),
    ClientDetail64.runningBalance ledger i
    = Rounded.netFrom PrimFloat.zero (skipn i ledger)
    /\ nth_error (ClientDetail64.balanceColumn ledger) i
       = (if (i <? List.length ledger)%nat
          then Some (Rounded.netFrom PrimFloat.zero (skipn i ledger))
          else None)
    /\ forall txns : list Transaction,
        ledger = Whole.ledger txns ->
        Whole.volume txns < 2 ^ 53 ->
        ClientDetail64.runningBalance ledger i
        = Binary64.ofZ (Spec.netSum (skipn i txns))
        /\ ClientDetail64.runningBalance ledger 0
           = Binary64.balance (ClientDetail64.calculateSummary ledger)
        /\ hd PrimFloat.zero (ClientDetail64.balanceColumn ledger)
           = Binary64.balance (ClientDetail64.calculateSummary ledger)
        /\ Binary64.balance (ClientDetail64.calculateSummary ledger)
           = Binary64.ofZ (Spec.sumCredits txns - Spec.sumDebits txns).
Proof.
  intros ledger i.
  assert (Hrow : forall j,
             ClientDetail64.runningBalance ledger j
             = Rounded.netFrom PrimFloat.zero (skipn j ledger)).
  { intros j; unfold ClientDetail64.runningBalance, Js.sliceFrom.
    apply reduce_net64. }
  split; [apply Hrow|].
  split; [rewrite balanceColumn64_nth, Hrow; reflexivity|].
  intros txns -> Hvol.
  assert (Htop : ClientDetail64.runningBalance (Whole.ledger txns) 0
                 = Binary64.balance
                     (ClientDetail64.calculateSummary (Whole.ledger txns))).
  { rewrite runningBalance_whole, detail_summary_whole by exact Hvol.
    cbn [skipn Whole.summary Spec.ledgerSummary Binary64.balance balance].
    now rewrite netSum_split. }
  split; [now apply runningBalance_whole|].
  split; [exact Htop|].
  split.
  - destruct txns as [|t txns].
    + reflexivity.
    + rewrite <- Htop; reflexivity.
  - now rewrite detail_summary_whole.
Qed.

(** C10 at scenario 6, shown newest first: 600 on top of 1000, and 600 is
    the balance of the Summary. *)
Lemma C10_whole_amounts_witness :
  Whole.volume Sample.twoEntries < 2 ^ 53
  /\ ClientDetail64.runningBalance (Whole.ledger Sample.twoEntries) 1
     = Binary64.ofZ 1000
  /\ ClientDetail64.runningBalance (Whole.ledger Sample.twoEntries) 0
     = Binary64.balance
         (ClientDetail64.calculateSummary (Whole.ledger Sample.twoEntries))
  /\ Binary64.balance
       (ClientDetail64.calculateSummary (Whole.ledger Sample.twoEntries))
     = Binary64.ofZ 600.
Proof.
  assert (H : Whole.volume Sample.twoEntries < 2 ^ 53) by reflexivity.
  destruct (C10_displayed_balance_is_suffix_sum
              (Whole.ledger Sample.twoEntries) 1)
    as (_ & _ & Hwhole).
  destruct (Hwhole Sample.twoEntries eq_refl H) as (Hrow & Htop & _ & Hbal).
  split; [exact H|].
  split; [exact Hrow|].
  split; [exact Htop | exact Hbal].
Defined.


(* ===================================================================== *)
(** ** The combiner in binary64 *)
(* ===================================================================== *)

Lemma pushAll64_app (c : Client) (txns all : list Binary64.Transaction) :
  PdfGenerator64.pushAll c txns all
  = (all ++ map (PdfGenerator64.relabel c) txns)%list.
Proof.
  unfold PdfGenerator64.pushAll.
  revert all; induction txns as [|t txns IH]; intros all; cbn [fold_left map].
  - now rewrite app_nil_r.
  - rewrite IH, <- app_assoc; reflexivity.
Qed.

Lemma collect64_from (clients : list Binary64.ClientLedgers)
      (all : list Binary64.Transaction * list Binary64.Transaction) :
  fold_left
    (fun all cl =>
       (PdfGenerator64.pushAll (Binary64.cl_client cl)
                               (Binary64.cl_transactionsKES cl) (fst all),
        PdfGenerator64.pushAll (Binary64.cl_client cl)
                               (Binary64.cl_transactionsUSD cl) (snd all)))
    clients all
  = ((fst all
      ++ flat_map
           (fun cl =>
              map (PdfGenerator64.relabel (Binary64.cl_client cl))
                  (Binary64.cl_transactionsKES cl))
           clients)%list,
     (snd all
      ++ flat_map
           (fun cl =>
              map (PdfGenerator64.relabel (Binary64.cl_client cl))
                  (Binary64.cl_transactionsUSD cl))
           clients)%list).
Proof.
  revert all; induction clients as [|cl clients IH]; intros [ks us].
  - cbn [fold_left flat_map fst snd]; now rewrite !app_nil_r.
  - cbn [fold_left]; rewrite IH; cbn [fst snd flat_map].
    rewrite !pushAll64_app, <- !app_assoc; reflexivity.
Qed.

Lemma flat_map_length_total {A B : Type} (ledger : A -> list B)
      (f : A -> B -> B) (clients : list A) :
  List.length (flat_map (fun cl => map (f cl) (ledger cl)) clients)
  = Spec.totalLength (map ledger clients).
Proof.
  unfold Spec.totalLength.
  induction clients as [|cl clients IH]; cbn [flat_map map fold_right];
    [reflexivity|].
  now rewrite length_app, length_map, IH.
Qed.

Lemma relabel64_whole (c : Client) (t : Transaction) :
  PdfGenerator64.relabel c (Whole.transaction t)
  = Whole.transaction (Spec.rewritten c t).
Proof.
  unfold PdfGenerator64.relabel, Spec.rewritten, Spec.withDescription,
    Whole.transaction, Js.orEmpty.
  cbn [Binary64.description]; destruct (description t); reflexivity.
Qed.

Lemma relabelled64_whole (ledger : ClientLedgers -> list Transaction)
      (ledger64 : Binary64.ClientLedgers -> list Binary64.Transaction)
      (cls : list ClientLedgers) :
  (forall cl, ledger64 (Whole.clientLedgers cl) = Whole.ledger (ledger cl)) ->
  flat_map
    (fun cl => map (PdfGenerator64.relabel (Binary64.cl_client cl))
                   (ledger64 cl))
    (Whole.clients cls)
  = Whole.ledger
      (flat_map (fun cl => map (Spec.rewritten (cl_client cl)) (ledger cl))
                cls).
Proof.
  intros Hl; unfold Whole.clients, Whole.ledger.
  induction cls as [|cl cls IH]; cbn [map flat_map]; [reflexivity|].
  rewrite map_app, IH, Hl; apply (f_equal (fun l => (l ++ _)%list)).
  unfold Whole.ledger; rewrite !map_map.
  apply map_ext; intros t; apply relabel64_whole.
Qed.

Lemma volume_rewritten (c : Client) (l : list Transaction) :
  Whole.volume (map (Spec.rewritten c) l) = Whole.volume l.
Proof.
  induction l as [|t l IH]; cbn [map Whole.volume]; [reflexivity|].
  destruct (rewritten_amounts c t) as [Hc Hd].
  now rewrite IH, Hc, Hd.
Qed.

Lemma volume_relabelled (ledger : ClientLedgers -> list Transaction)
      (cls : list ClientLedgers) :
  Whole.volume
    (flat_map (fun cl => map (Spec.rewritten (cl_client cl)) (ledger cl)) cls)
  = Whole.volume (flat_map ledger cls).
Proof.
  induction cls as [|cl cls IH]; cbn [flat_map]; [reflexivity|].
  now rewrite !volume_app, volume_rewritten, IH.
Qed.

Lemma volume_clients (cls : list ClientLedgers) :
  Whole.volume (flat_map cl_transactionsKES cls) <= Whole.clientsVolume cls
  /\ Whole.volume (flat_map cl_transactionsUSD cls) <= Whole.clientsVolume cls.
Proof.
  induction cls as [|cl cls [IHk IHu]]; cbn [flat_map Whole.clientsVolume].
  - cbn; lia.
  - rewrite !volume_app.
    pose proof (volume_nonneg (cl_transactionsKES cl)).
    pose proof (volume_nonneg (cl_transactionsUSD cl)).
    lia.
Qed.

Lemma ledgerSummary_relabelled (getTime : string -> Z)
      (ledger : ClientLedgers -> list Transaction)
      (cls : list ClientLedgers) :
  Spec.ledgerSummary
    (PdfGenerator.sortByDate
       getTime
       (flat_map (fun cl => map (Spec.rewritten (cl_client cl)) (ledger cl))
                 cls))
  = Spec.ledgerSummary (flat_map ledger cls).
Proof.
  assert (H : forall l,
             Spec.sumCredits
               (flat_map (fun cl => map (Spec.rewritten (cl_client cl))
                                        (ledger cl)) l)
             = Spec.sumCredits (flat_map ledger l)
             /\ Spec.sumDebits
                  (flat_map (fun cl => map (Spec.rewritten (cl_client cl))
                                           (ledger cl)) l)
                = Spec.sumDebits (flat_map ledger l)).
  { induction l as [|cl l [IHc IHd]]; [split; reflexivity|].
    cbn [flat_map]; rewrite !sumCredits_app, !sumDebits_app.
    rewrite sumCredits_rewritten, sumDebits_rewritten, IHc, IHd.
    split; reflexivity. }
  destruct (H cls) as [Hc Hd].
  unfold Spec.ledgerSummary, PdfGenerator.sortByDate.
  rewrite (sumCredits_perm _ _ (sort_perm (PdfGenerator.byDate getTime) _)).
  rewrite (sumDebits_perm _ _ (sort_perm (PdfGenerator.byDate getTime) _)).
  now rewrite Hc, Hd.
Qed.

Lemma sumSummaries_ledger (ledger : ClientLedgers -> list Transaction)
      (cls : list ClientLedgers) :
  Spec.sumSummaries (map (fun cl => Spec.ledgerSummary (ledger cl)) cls)
  = Spec.ledgerSummary (flat_map ledger cls).
Proof.
  unfold Spec.sumSummaries.
  induction cls as [|cl cls IH]; cbn [map fold_right flat_map];
    [reflexivity|].
  rewrite IH; unfold Spec.addSummary, Spec.ledgerSummary;
    cbn [receivable paid balance].
  rewrite sumCredits_app, sumDebits_app.
  f_equal; lia.
Qed.

(** Adding up the Summaries of whole ledgers, client after client. *)
Lemma sumSummaries_whole_from
      (ledger : ClientLedgers -> list Transaction)
      (ledger64 : Binary64.ClientLedgers -> list Binary64.Transaction)
      (cls : list ClientLedgers) (acc : Summary) :
  (forall cl, ledger64 (Whole.clientLedgers cl) = Whole.ledger (ledger cl)) ->
  Z.abs (receivable acc) + Z.abs (paid acc)
  + Whole.volume (flat_map ledger cls) < 2 ^ 53 ->
  Z.abs (balance acc) + Whole.volume (flat_map ledger cls) < 2 ^ 53 ->
  fold_left Rounded.addSummary
            (map (fun cl => PdfGenerator64.calculateSummary (ledger64 cl))
                 (Whole.clients cls))
            (Whole.summary acc)
  = Whole.summary
      (Spec.addSummary acc (Spec.ledgerSummary (flat_map ledger cls))).
Proof.
  intros Hl; revert acc.
  induction cls as [|cl cls IH]; intros acc Hrp Hb.
  - cbn [Whole.clients map fold_left flat_map].
    unfold Spec.addSummary, Spec.ledgerSummary, Whole.summary;
      cbn [Spec.sumCredits Spec.sumDebits receivable paid balance].
    now rewrite !Z.add_0_r.
  - cbn [flat_map] in Hrp, Hb; rewrite volume_app in Hrp, Hb.
    pose proof (volume_nonneg (flat_map ledger cls)) as Hrest.
    pose proof (volume_sums (ledger cl)) as Hs.
    cbn [Whole.clients map fold_left]; fold (Whole.clients cls).
    rewrite Hl, pdf_summary_whole by lia.
    assert (Hadd : Rounded.addSummary
                     (Whole.summary acc)
                     (Whole.summary (Spec.ledgerSummary (ledger cl)))
                   = Whole.summary
                       (Spec.addSummary acc
                                        (Spec.ledgerSummary (ledger cl)))).
    { unfold Rounded.addSummary, Whole.summary, Spec.addSummary,
        Spec.ledgerSummary;
        cbn [Binary64.receivable Binary64.paid Binary64.balance
               receivable paid balance].
      rewrite !ofZ_add by lia; reflexivity. }
    rewrite Hadd, IH.
    + apply f_equal.
      unfold Spec.addSummary, Spec.ledgerSummary;
        cbn [receivable paid balance flat_map].
      rewrite sumCredits_app, sumDebits_app.
      f_equal; lia.
    + unfold Spec.addSummary, Spec.ledgerSummary;
        cbn [receivable paid balance]; lia.
    + unfold Spec.addSummary, Spec.ledgerSummary;
        cbn [receivable paid balance]; lia.
Qed.

Lemma sumSummaries_whole
      (ledger : ClientLedgers -> list Transaction)
      (ledger64 : Binary64.ClientLedgers -> list Binary64.Transaction)
      (cls : list ClientLedgers) :
  (forall cl, ledger64 (Whole.clientLedgers cl) = Whole.ledger (ledger cl)) ->
  Whole.volume (flat_map ledger cls) < 2 ^ 53 ->
  Rounded.sumSummaries
    (map (fun cl => PdfGenerator64.calculateSummary (ledger64 cl))
         (Whole.clients cls))
  = Whole.summary (Spec.ledgerSummary (flat_map ledger cls)).
Proof.
  intros Hl Hv; unfold Rounded.sumSummaries.
  change Rounded.zeroSummary with (Whole.summary Spec.zeroSummary).
  rewrite (sumSummaries_whole_from ledger ledger64 cls _ Hl)
    by (cbn [Spec.zeroSummary receivable paid balance]; cbn; lia).
  apply f_equal; unfold Spec.addSummary, Spec.zeroSummary, Spec.ledgerSummary;
    cbn [receivable paid balance].
  f_equal.
Qed.

(** The summary of a merged whole ledger. *)
Lemma merged_summary_whole (getTime : string -> Z)
      (ledger : ClientLedgers -> list Transaction)
      (ledger64 : Binary64.ClientLedgers -> list Binary64.Transaction)
      (cls : list ClientLedgers) :
  (forall cl, ledger64 (Whole.clientLedgers cl) = Whole.ledger (ledger cl)) ->
  Whole.volume (flat_map ledger cls) < 2 ^ 53 ->
  PdfGenerator64.calculateSummary
    (PdfGenerator64.sortByDate
       getTime
       (flat_map
          (fun cl => map (PdfGenerator64.relabel (Binary64.cl_client cl))
                         (ledger64 cl))
          (Whole.clients cls)))
  = Whole.summary (Spec.ledgerSummary (flat_map ledger cls)).
Proof.
  intros Hl Hv.
  rewrite (relabelled64_whole ledger ledger64 cls Hl), sortByDate_whole.
  rewrite pdf_summary_whole.
  - now rewrite ledgerSummary_relabelled.
  - unfold PdfGenerator.sortByDate.
    rewrite (volume_perm _ _ (sort_perm (PdfGenerator.byDate getTime) _)).
    now rewrite volume_relabelled.
Qed.

(** C3, as stated, fails on amounts in hundredths.  Client A paid 0.10
    in, client B paid 0.20 and 0.30 in: the merged list sums to a paid of
    0.6000000000000001 while the per-client paid amounts 0.1 and 0.5 add
    up to 0.6. *)
Lemma C3_cents_counterexample :
  exists options : Binary64.ReportOptions,
    PdfGenerator64.combinedOptions
      Sample.dateOrdinal [SampleCents.clientA; SampleCents.clientB]
    = Returned options
    /\ Binary64.summaryKES options
       <> Rounded.sumSummaries
            (map (fun cl =>
                    PdfGenerator64.calculateSummary
                      (Binary64.cl_transactionsKES cl))
                 [SampleCents.clientA; SampleCents.clientB])
    /\ Binary64.paid (Binary64.summaryKES options)
       = PrimFloat.add (PrimFloat.add (Binary64.cents 10) (Binary64.cents 20))
                       (Binary64.cents 30)
    /\ Binary64.paid
         (Rounded.sumSummaries
            (map (fun cl =>
                    PdfGenerator64.calculateSummary
                      (Binary64.cl_transactionsKES cl))
                 [SampleCents.clientA; SampleCents.clientB]))
       = Binary64.cents 60.
Proof.
  eexists; split; [reflexivity|].
  split; [|split; vm_compute; reflexivity].
  intros H; apply (f_equal Binary64.paid) in H; revert H.
  apply leibniz_neq; vm_compute; reflexivity.
Qed.

(** C3, amended.  For every non-empty list of client ledgers the
    combiner returns; each merged per-currency list has as many
    transactions as the per-client lists together, and its Summary is
    computed over the merged list.  When the amounts are whole numbers
    whose magnitudes add up to less than 2^53, the Summary of each merged
    list equals the component-wise sum of the per-client Summaries: paid,
    receivable and balance are each the sum of the per-client ones. *)
Theorem C3_combining_preserves_count_and_summary :
  forall (getTime : string -> Z) (clients : list Binary64.ClientLedgers),
    clients <> [] ->
    exists options : Binary64.ReportOptions,
      PdfGenerator64.combinedOptions getTime clients = Returned options
      /\ List.length (Binary64.transactionsKES options)
         = Spec.totalLength (map Binary64.cl_transactionsKES clients)
      /\ List.length (Binary64.transactionsUSD options)
         = Spec.totalLength (map Binary64.cl_transactionsUSD clients)
      /\ Binary64.summaryKES options
         = PdfGenerator64.calculateSummary (Binary64.transactionsKES options)
      /\ Binary64.summaryUSD options
         = PdfGenerator64.calculateSummary (Binary64.transactionsUSD options)
      /\ forall whole : list ClientLedgers,
          clients = Whole.clients whole ->
          Whole.clientsVolume whole < 2 ^ 53 ->
          Binary64.summaryKES options
          = Rounded.sumSummaries
              (map (fun cl =>
                      PdfGenerator64.calculateSummary
                        (Binary64.cl_transactionsKES cl))
                   clients)
          /\ Binary64.summaryUSD options
             = Rounded.sumSummaries
                 (map (fun cl =>
                         PdfGenerator64.calculateSummary
                           (Binary64.cl_transactionsUSD cl))
                      clients)
          /\ Binary64.summaryKES options
             = Whole.summary
                 (Spec.sumSummaries
                    (map (fun cl => Spec.ledgerSummary (cl_transactionsKES cl))
                         whole))
          /\ Binary64.summaryUSD options
             = Whole.summary
                 (Spec.sumSummaries
                    (map (fun cl => Spec.ledgerSummary (cl_transactionsUSD cl))
                         whole)).
Proof.
  intros getTime clients Hne.
  destruct clients as [|cl0 rest]; [contradiction|].
  set (clients := cl0 :: rest) in *.
  eexists; split; [reflexivity|].
  cbn [Binary64.transactionsKES Binary64.transactionsUSD
         Binary64.summaryKES Binary64.summaryUSD].
  unfold PdfGenerator64.collect; rewrite collect64_from; cbn [fst snd app].
  unfold PdfGenerator64.sortByDate at 1 2; rewrite !sort_length.
  split; [apply (flat_map_length_total Binary64.cl_transactionsKES)|].
  split; [apply (flat_map_length_total Binary64.cl_transactionsUSD)|].
  split; [reflexivity|].
  split; [reflexivity|].
  intros whole Hwhole Hvol.
  destruct (volume_clients whole) as [Hk Hu].
  rewrite Hwhole.
  rewrite (merged_summary_whole getTime cl_transactionsKES
             Binary64.cl_transactionsKES whole)
    by (try reflexivity; lia).
  rewrite (merged_summary_whole getTime cl_transactionsUSD
             Binary64.cl_transactionsUSD whole)
    by (try reflexivity; lia).
  rewrite (sumSummaries_whole cl_transactionsKES Binary64.cl_transactionsKES)
    by (try reflexivity; lia).
  rewrite (sumSummaries_whole cl_transactionsUSD Binary64.cl_transactionsUSD)
    by (try reflexivity; lia).
  rewrite !sumSummaries_ledger.
  repeat split.
Qed.

(** C3 at clients A, B and C of the samples: two KES rows, one USD row,
    KES Summary {paid 500, receivable 200, balance 300}, the sum of the
    per-client Summaries. *)
Lemma C3_combining_witness :
  let whole :=
    [Sample.clientA "2024-01-05"; Sample.clientB "2024-01-10"; Sample.clientC]
  in
  Whole.clients whole <> []
  /\ Whole.clientsVolume whole < 2 ^ 53
  /\ exists options : Binary64.ReportOptions,
      PdfGenerator64.combinedOptions Sample.dateOrdinal (Whole.clients whole)
      = Returned options
      /\ List.length (Binary64.transactionsKES options) = 2%nat
      /\ List.length (Binary64.transactionsUSD options) = 1%nat
      /\ Binary64.summaryKES options
         = Rounded.sumSummaries
             (map (fun cl =>
                     PdfGenerator64.calculateSummary
                       (Binary64.cl_transactionsKES cl))
                  (Whole.clients whole))
      /\ Binary64.summaryKES options
         = Whole.summary {| receivable := 200; paid := 500; balance := 300 |}
      /\ Binary64.summaryUSD options
         = Whole.summary {| receivable := 0; paid := 40; balance := 40 |}.
Proof.
  intros whole.
  assert (Hne : Whole.clients whole <> []) by discriminate.
  assert (Hvol : Whole.clientsVolume whole < 2 ^ 53) by reflexivity.
  split; [exact Hne|].
  split; [exact Hvol|].
  destruct (C3_combining_preserves_count_and_summary
              Sample.dateOrdinal (Whole.clients whole) Hne)
    as (options & Heq & Hk & Hu & _ & _ & Hwhole).
  destruct (Hwhole whole eq_refl Hvol) as (Hsum & _ & Hsk & Hsu).
  exists options.
  split; [exact Heq|].
  split; [exact Hk|].
  split; [exact Hu|].
  split; [exact Hsum|].
  split; [exact Hsk | exact Hsu].
Defined.


(* ===================================================================== *)
(** ** The ranking of the top clients *)
(* ===================================================================== *)














(* ===================================================================== *)
(** ** Further properties, on whole amounts and on counts *)
(* ===================================================================== *)

Lemma runningBalance_netSum (l : list Transaction) (i : nat) :
  ClientDetail.runningBalance l i = Spec.netSum (skipn i l).
Proof.
  unfold ClientDetail.runningBalance, Js.sliceFrom.
  rewrite reduce_net; lia.
Qed.

Lemma balanceColumn_whole (l : list Transaction) :
  Whole.volume l < 2 ^ 53 ->
  ClientDetail64.balanceColumn (Whole.ledger l)
  = map Binary64.ofZ (ClientDetail.balanceColumn l).
Proof.
  intros H; unfold ClientDetail64.balanceColumn, ClientDetail.balanceColumn.
  unfold Whole.ledger at 2; rewrite length_map, map_map.
  apply map_ext; intros i.
  now rewrite runningBalance_whole, runningBalance_netSum.
Qed.

(** X4. When the detail view holds its transactions newest first with
    all dates distinct, the statement lists them in the reverse order;
    and when the amounts are whole numbers whose magnitudes add up to less
    than 2^53, it prints on each row the balance the detail view shows on
    that transaction: the statement's running balances are the balance
    column read from the bottom. *)
Theorem X4_statement_and_detail_view_agree :
  forall (getTime : string -> Z) (txns : list Transaction),
    Derived.newestFirst getTime txns ->
    Whole.volume txns < 2 ^ 53 ->
    PdfGenerator64.sortByDate getTime (Whole.ledger txns)
    = rev (Whole.ledger txns)
    /\ PdfGenerator64.runBalances
         PrimFloat.zero
         (PdfGenerator64.sortByDate getTime (Whole.ledger txns))
       = rev (ClientDetail64.balanceColumn (Whole.ledger txns)).
Proof.
  intros getTime txns Hnew Hvol.
  rewrite sortByDate_whole, (sortByDate_newestFirst getTime txns Hnew).
  split; [apply map_rev|].
  change PrimFloat.zero with (Binary64.ofZ 0).
  rewrite runBalances_whole.
  - rewrite balanceColumn_rev, balanceColumn_whole by exact Hvol.
    apply map_rev.
  - rewrite (volume_perm _ _ (Permutation_sym (Permutation_rev txns))).
    cbn; lia.
Qed.

(** X4 at scenario 6: the detail view shows 600 above 1000, the statement
    prints 1000 then 600. *)
Lemma X4_statement_and_detail_witness :
  Derived.newestFirst Sample.dateOrdinal Sample.twoEntries
  /\ Whole.volume Sample.twoEntries < 2 ^ 53
  /\ PdfGenerator64.runBalances
       PrimFloat.zero
       (PdfGenerator64.sortByDate Sample.dateOrdinal
                                  (Whole.ledger Sample.twoEntries))
     = rev (ClientDetail64.balanceColumn (Whole.ledger Sample.twoEntries))
  /\ ClientDetail64.balanceColumn (Whole.ledger Sample.twoEntries)
     = [Binary64.ofZ 600; Binary64.ofZ 1000].
Proof.
  assert (H : Derived.newestFirst Sample.dateOrdinal Sample.twoEntries).
  { repeat constructor. }
  assert (Hv : Whole.volume Sample.twoEntries < 2 ^ 53) by reflexivity.
  split; [exact H|].
  split; [exact Hv|].
  split; [|vm_compute; reflexivity].
  exact (proj2 (X4_statement_and_detail_view_agree
                  Sample.dateOrdinal Sample.twoEntries H Hv)).
Defined.

(** With amounts in hundredths the two can part: for payments of 0.10,
    0.20 and 0.30 in, the statement ends on 0.6000000000000001 where the
    detail view shows 0.6 on top. *)
Example cents_statement_and_detail_part :
  last (PdfGenerator64.runBalances
          PrimFloat.zero
          (PdfGenerator64.sortByDate Sample.dateOrdinal
                                     SampleCents.threeCredits))
       PrimFloat.zero
  <> hd PrimFloat.zero (ClientDetail64.balanceColumn SampleCents.threeCredits)
  /\ hd PrimFloat.zero (ClientDetail64.balanceColumn SampleCents.threeCredits)
     = Binary64.cents 60.
Proof.
  split; [apply leibniz_neq; vm_compute; reflexivity|].
  vm_compute; reflexivity.
Qed.

(** X8. The client rollup neither loses nor invents a transaction: over
    all its entries the transaction counts add up to the total transaction
    count of the statistics, and every entry counts the rows of its
    client, of which there is at least one. *)
Theorem X8_rollup_adds_up_to_the_statistics :
  forall (clientRows : list Reports.ClientRow)
         (kesTransactions usdTransactions : list Reports.ReportTransaction),
    let rollup :=
      Reports.values
        (Reports.buildClientMap kesTransactions usdTransactions) in
    let stats :=
      Reports.computeClientStats clientRows kesTransactions usdTransactions
    in
    Derived.sumZ Reports.transaction_count rollup
    = Reports.totalTransactions stats
    /\ forall c,
        In c rollup ->
        Reports.transaction_count c
        = Spec.clientCount (Reports.tc_client_id c) kesTransactions
          + Spec.clientCount (Reports.tc_client_id c) usdTransactions
        /\ 0 < Reports.transaction_count c.
Proof.
  intros rows kes usd rollup stats; subst stats.
  split.
  - unfold rollup, Reports.computeClientStats, Reports.buildClientMap;
      cbn [Reports.totalTransactions].
    rewrite (rollup_sum_foldUSD _ (fun _ => 1)) by (intros; cbn; lia).
    rewrite (rollup_sum_foldKES _ (fun _ => 1)) by (intros; cbn; lia).
    rewrite !sumZ_const; cbn [Reports.values map Derived.sumZ]; lia.
  - intros c Hin.
    destruct (values_rolledUp kes usd c Hin) as (_ & _ & _ & Hn).
    split; [exact Hn|].
    assert (Hkey : In (Reports.tc_client_id c)
                      (map fst (Reports.buildClientMap kes usd))).
    { rewrite <- rollup_ids_are_keys; now apply in_map. }
    apply rollup_key_iff_row in Hkey; destruct Hkey as (t & Ht & Hid).
    pose proof (clientCount_nonneg (Reports.tc_client_id c) kes).
    pose proof (clientCount_nonneg (Reports.tc_client_id c) usd).
    apply in_app_or in Ht; destruct Ht as [Ht | Ht].
    + pose proof (clientCount_positive _ t kes Ht Hid); lia.
    + pose proof (clientCount_positive _ t usd Ht Hid); lia.
Qed.

(** X8 at the sample rows: twelve transactions over five clients, three
    of them of client c1. *)
Lemma X8_rollup_witness :
  Derived.sumZ Reports.transaction_count
               (Reports.values
                  (Reports.buildClientMap Sample.kesRows Sample.usdRows))
  = 12
  /\ Reports.transaction_count
       (Reports.mkTopClient "c1" "Asha" "c1" 5000 200 3)
     = Spec.clientCount "c1" Sample.kesRows
       + Spec.clientCount "c1" Sample.usdRows.
Proof.
  destruct (X8_rollup_adds_up_to_the_statistics
              Sample.clientRows Sample.kesRows Sample.usdRows)
    as [Hsum Hentry].
  split; [exact Hsum|].
  exact (proj1 (Hentry (Reports.mkTopClient "c1" "Asha" "c1" 5000 200 3)
                       (or_introl eq_refl))).
Defined.



Lemma last_default {A : Type} (l : list A) (d d' : A) :
  l <> [] -> last l d = last l d'.
Proof.
  induction l as [|x [|y l] IH]; intros Hne;
    [contradiction | reflexivity |].
  apply IH; discriminate.
Qed.

(** X21. For a non-empty list of whole amounts whose magnitudes add up
    to less than 2^53, the balance cell of the last row of the statement
    table prints what the BALANCE cell of the footer prints for the
    Summary of the list, be it the Summary the combiner computes or the
    one the detail view hands over. *)
Theorem X21_last_row_prints_footer_balance :
  forall (getTime : string -> Z) (toLocaleDateString : string -> string)
         (formatCurrency : float -> Currency -> string)
         (txns : list Transaction) (sym : Currency),
    txns <> [] ->
    Whole.volume txns < 2 ^ 53 ->
    let lastCell :=
      nth 4
          (last (PdfGenerator64.buildTableData
                   getTime toLocaleDateString formatCurrency
                   (Whole.ledger txns) sym) [])
          EmptyString in
    lastCell
    = PdfGenerator64.footBal
        formatCurrency
        (PdfGenerator64.calculateSummary (Whole.ledger txns)) sym
    /\ lastCell
       = PdfGenerator64.footBal
           formatCurrency
           (ClientDetail64.calculateSummary (Whole.ledger txns)) sym.
Proof.
  intros getTime toLoc fc txns sym Hne Hvol lastCell.
  set (rows := PdfGenerator64.buildTableData getTime toLoc fc
                                             (Whole.ledger txns) sym)
    in lastCell.
  set (running :=
         PdfGenerator64.runBalances
           PrimFloat.zero
           (PdfGenerator64.sortByDate getTime (Whole.ledger txns))).
  assert (Hcells :
            map (fun row => nth 4 row EmptyString) rows
            = map (fun v => PdfGenerator64.signedCurrency fc v sym) running)
    by apply mapRows64_balance_cells.
  assert (Hrun : running <> []).
  { intros E; apply Hne, length_zero_iff_nil.
    assert (Hlen : List.length running = List.length txns).
    { unfold running; rewrite runBalances64_length.
      unfold PdfGenerator64.sortByDate; rewrite sort_length.
      apply length_map. }
    now rewrite <- Hlen, E. }
  assert (Hlast : last running PrimFloat.zero
                  = Binary64.ofZ (Spec.sumCredits txns - Spec.sumDebits txns)).
  { unfold running; rewrite sortByDate_whole.
    change PrimFloat.zero with (Binary64.ofZ 0).
    rewrite runBalances_whole, last_map, runBalances_last.
    - apply f_equal; unfold PdfGenerator.sortByDate.
      rewrite (netSum_perm _ _ (sort_perm (PdfGenerator.byDate getTime) txns)).
      rewrite netSum_split; lia.
    - unfold PdfGenerator.sortByDate.
      rewrite (volume_perm _ _ (sort_perm (PdfGenerator.byDate getTime) txns)).
      cbn; lia. }
  assert (Hcell : lastCell
                  = PdfGenerator64.signedCurrency
                      fc
                      (Binary64.ofZ
                         (Spec.sumCredits txns - Spec.sumDebits txns))
                      sym).
  { unfold lastCell.
    change EmptyString with ((fun row => nth 4 row EmptyString) []) at 1.
    rewrite <- (last_map (fun row => nth 4 row EmptyString)), Hcells.
    cbn beta.
    rewrite (last_default _ _
               (PdfGenerator64.signedCurrency fc PrimFloat.zero sym))
      by (intros E; apply map_eq_nil in E; contradiction).
    rewrite (last_map (fun v => PdfGenerator64.signedCurrency fc v sym)).
    now rewrite Hlast. }
  unfold PdfGenerator64.footBal.
  rewrite pdf_summary_whole, detail_summary_whole by exact Hvol.
  split; exact Hcell.
Qed.

(** X21 at scenario 6. *)
Lemma X21_last_row_witness :
  Sample.twoEntries <> []
  /\ Whole.volume Sample.twoEntries < 2 ^ 53
  /\ nth 4
         (last (PdfGenerator64.buildTableData
                  Sample.dateOrdinal Sample.showDate SampleCents.showCurrency
                  (Whole.ledger Sample.twoEntries) KES) [])
         EmptyString
     = PdfGenerator64.footBal
         SampleCents.showCurrency
         (PdfGenerator64.calculateSummary (Whole.ledger Sample.twoEntries))
         KES.
Proof.
  assert (Hne : Sample.twoEntries <> []) by discriminate.
  assert (Hv : Whole.volume Sample.twoEntries < 2 ^ 53) by reflexivity.
  split; [exact Hne|].
  split; [exact Hv|].
  exact (proj1 (X21_last_row_prints_footer_balance
                  Sample.dateOrdinal Sample.showDate SampleCents.showCurrency
                  Sample.twoEntries KES Hne Hv)).
Defined.

(** With amounts in hundredths the two cells can part, down to the sign:
    for 0.10 in, 0.40 out, 0.30 in the last row prints a minus sign and
    the footer none. *)
Example cents_last_row_and_footer_part :
  nth 4
      (last (PdfGenerator64.buildTableData
               Sample.dateOrdinal Sample.showDate SampleCents.showCurrency
               SampleCents.ascending KES) [])
      EmptyString
  = "-KES"
  /\ PdfGenerator64.footBal
       SampleCents.showCurrency
       (PdfGenerator64.calculateSummary SampleCents.ascending) KES
     = "KES".
Proof. split; vm_compute; reflexivity. Qed.
